(** * Jarvis assistant: the command dispatch engine of [jarvis.py]

    A shallow embedding of the wakeword helpers, the two lookup stages, the
    OS control helpers, [JarvisApp.process_command], [JarvisApp.on_command]
    and [JarvisApp._listening_loop], followed by the properties of the
    dispatch engine that the specification states about them. *)

From Stdlib Require Import List NArith Ascii String Bool Arith Lia.
Import ListNotations.

Local Open Scope N_scope.
Local Open Scope list_scope.

(** ** Text

    A Python [str] is a sequence of Unicode code points. *)

Definition char := N.
Definition str := list char.

(** [txt "abc"]: the text of an ASCII literal of the source. *)
Definition txt (s : string) : str := map N_of_ascii (list_ascii_of_string s).

Definition is_ascii (c : char) : bool := c <? 128.

(** *** The character tables of CPython

    The tables are those of CPython 3.11 (Unicode 14.0) over all code
    points.

    [isspace] is [str.isspace] on one character, which is also the class
    [\s] of [re] on [str] patterns and the set removed by [str.strip()]. *)

Definition isspace (c : char) : bool :=
  ((9 <=? c) && (c <=? 13)) || ((28 <=? c) && (c <=? 32))
  || (c =? 0x85) || (c =? 0xA0) || (c =? 0x1680)
  || ((0x2000 <=? c) && (c <=? 0x200A))
  || (c =? 0x2028) || (c =? 0x2029) || (c =? 0x202F) || (c =? 0x205F)
  || (c =? 0x3000).

Definition is_upper_ascii (c : char) : bool := (65 <=? c) && (c <=? 90).
Definition is_lower_ascii (c : char) : bool := (97 <=? c) && (c <=? 122).
Definition is_digit_ascii (c : char) : bool := (48 <=? c) && (c <=? 57).

Definition in_ranges (rs : list (N * N)) (c : char) : bool :=
  existsb (fun r => (fst r <=? c) && (c <=? snd r)) rs.

(** The code points beyond ASCII for which [str.isalnum] holds, as inclusive
    ranges. *)
Definition alnum_ranges : list (N * N) :=
  [(0xAA, 0xAA); (0xB2, 0xB3); (0xB5, 0xB5); (0xB9, 0xBA); (0xBC, 0xBE);
   (0xC0, 0xD6); (0xD8, 0xF6); (0xF8, 0x2C1); (0x2C6, 0x2D1); (0x2E0, 0x2E4);
   (0x2EC, 0x2EC); (0x2EE, 0x2EE); (0x370, 0x374); (0x376, 0x377);
   (0x37A, 0x37D); (0x37F, 0x37F); (0x386, 0x386); (0x388, 0x38A);
   (0x38C, 0x38C); (0x38E, 0x3A1); (0x3A3, 0x3F5); (0x3F7, 0x481);
   (0x48A, 0x52F); (0x531, 0x556); (0x559, 0x559); (0x560, 0x588);
   (0x5D0, 0x5EA); (0x5EF, 0x5F2); (0x620, 0x64A); (0x660, 0x669);
   (0x66E, 0x66F); (0x671, 0x6D3); (0x6D5, 0x6D5); (0x6E5, 0x6E6);
   (0x6EE, 0x6FC); (0x6FF, 0x6FF); (0x710, 0x710); (0x712, 0x72F);
   (0x74D, 0x7A5); (0x7B1, 0x7B1); (0x7C0, 0x7EA); (0x7F4, 0x7F5);
   (0x7FA, 0x7FA); (0x800, 0x815); (0x81A, 0x81A); (0x824, 0x824);
   (0x828, 0x828); (0x840, 0x858); (0x860, 0x86A); (0x870, 0x887);
   (0x889, 0x88E); (0x8A0, 0x8C9); (0x904, 0x939); (0x93D, 0x93D);
   (0x950, 0x950); (0x958, 0x961); (0x966, 0x96F); (0x971, 0x980);
   (0x985, 0x98C); (0x98F, 0x990); (0x993, 0x9A8); (0x9AA, 0x9B0);
   (0x9B2, 0x9B2); (0x9B6, 0x9B9); (0x9BD, 0x9BD); (0x9CE, 0x9CE);
   (0x9DC, 0x9DD); (0x9DF, 0x9E1); (0x9E6, 0x9F1); (0x9F4, 0x9F9);
   (0x9FC, 0x9FC); (0xA05, 0xA0A); (0xA0F, 0xA10); (0xA13, 0xA28);
   (0xA2A, 0xA30); (0xA32, 0xA33); (0xA35, 0xA36); (0xA38, 0xA39);
   (0xA59, 0xA5C); (0xA5E, 0xA5E); (0xA66, 0xA6F); (0xA72, 0xA74);
   (0xA85, 0xA8D); (0xA8F, 0xA91); (0xA93, 0xAA8); (0xAAA, 0xAB0);
   (0xAB2, 0xAB3); (0xAB5, 0xAB9); (0xABD, 0xABD); (0xAD0, 0xAD0);
   (0xAE0, 0xAE1); (0xAE6, 0xAEF); (0xAF9, 0xAF9); (0xB05, 0xB0C);
   (0xB0F, 0xB10); (0xB13, 0xB28); (0xB2A, 0xB30); (0xB32, 0xB33);
   (0xB35, 0xB39); (0xB3D, 0xB3D); (0xB5C, 0xB5D); (0xB5F, 0xB61);
   (0xB66, 0xB6F); (0xB71, 0xB77); (0xB83, 0xB83); (0xB85, 0xB8A);
   (0xB8E, 0xB90); (0xB92, 0xB95); (0xB99, 0xB9A); (0xB9C, 0xB9C);
   (0xB9E, 0xB9F); (0xBA3, 0xBA4); (0xBA8, 0xBAA); (0xBAE, 0xBB9);
   (0xBD0, 0xBD0); (0xBE6, 0xBF2); (0xC05, 0xC0C); (0xC0E, 0xC10);
   (0xC12, 0xC28); (0xC2A, 0xC39); (0xC3D, 0xC3D); (0xC58, 0xC5A);
   (0xC5D, 0xC5D); (0xC60, 0xC61); (0xC66, 0xC6F); (0xC78, 0xC7E);
   (0xC80, 0xC80); (0xC85, 0xC8C); (0xC8E, 0xC90); (0xC92, 0xCA8);
   (0xCAA, 0xCB3); (0xCB5, 0xCB9); (0xCBD, 0xCBD); (0xCDD, 0xCDE);
   (0xCE0, 0xCE1); (0xCE6, 0xCEF); (0xCF1, 0xCF2); (0xD04, 0xD0C);
   (0xD0E, 0xD10); (0xD12, 0xD3A); (0xD3D, 0xD3D); (0xD4E, 0xD4E);
   (0xD54, 0xD56); (0xD58, 0xD61); (0xD66, 0xD78); (0xD7A, 0xD7F);
   (0xD85, 0xD96); (0xD9A, 0xDB1); (0xDB3, 0xDBB); (0xDBD, 0xDBD);
   (0xDC0, 0xDC6); (0xDE6, 0xDEF); (0xE01, 0xE30); (0xE32, 0xE33);
   (0xE40, 0xE46); (0xE50, 0xE59); (0xE81, 0xE82); (0xE84, 0xE84);
   (0xE86, 0xE8A); (0xE8C, 0xEA3); (0xEA5, 0xEA5); (0xEA7, 0xEB0);
   (0xEB2, 0xEB3); (0xEBD, 0xEBD); (0xEC0, 0xEC4); (0xEC6, 0xEC6);
   (0xED0, 0xED9); (0xEDC, 0xEDF); (0xF00, 0xF00); (0xF20, 0xF33);
   (0xF40, 0xF47); (0xF49, 0xF6C); (0xF88, 0xF8C); (0x1000, 0x102A);
   (0x103F, 0x1049); (0x1050, 0x1055); (0x105A, 0x105D); (0x1061, 0x1061);
   (0x1065, 0x1066); (0x106E, 0x1070); (0x1075, 0x1081); (0x108E, 0x108E);
   (0x1090, 0x1099); (0x10A0, 0x10C5); (0x10C7, 0x10C7); (0x10CD, 0x10CD);
   (0x10D0, 0x10FA); (0x10FC, 0x1248); (0x124A, 0x124D); (0x1250, 0x1256);
   (0x1258, 0x1258); (0x125A, 0x125D); (0x1260, 0x1288); (0x128A, 0x128D);
   (0x1290, 0x12B0); (0x12B2, 0x12B5); (0x12B8, 0x12BE); (0x12C0, 0x12C0);
   (0x12C2, 0x12C5); (0x12C8, 0x12D6); (0x12D8, 0x1310); (0x1312, 0x1315);
   (0x1318, 0x135A); (0x1369, 0x137C); (0x1380, 0x138F); (0x13A0, 0x13F5);
   (0x13F8, 0x13FD); (0x1401, 0x166C); (0x166F, 0x167F); (0x1681, 0x169A);
   (0x16A0, 0x16EA); (0x16EE, 0x16F8); (0x1700, 0x1711); (0x171F, 0x1731);
   (0x1740, 0x1751); (0x1760, 0x176C); (0x176E, 0x1770); (0x1780, 0x17B3);
   (0x17D7, 0x17D7); (0x17DC, 0x17DC); (0x17E0, 0x17E9); (0x17F0, 0x17F9);
   (0x1810, 0x1819); (0x1820, 0x1878); (0x1880, 0x1884); (0x1887, 0x18A8);
   (0x18AA, 0x18AA); (0x18B0, 0x18F5); (0x1900, 0x191E); (0x1946, 0x196D);
   (0x1970, 0x1974); (0x1980, 0x19AB); (0x19B0, 0x19C9); (0x19D0, 0x19DA);
   (0x1A00, 0x1A16); (0x1A20, 0x1A54); (0x1A80, 0x1A89); (0x1A90, 0x1A99);
   (0x1AA7, 0x1AA7); (0x1B05, 0x1B33); (0x1B45, 0x1B4C); (0x1B50, 0x1B59);
   (0x1B83, 0x1BA0); (0x1BAE, 0x1BE5); (0x1C00, 0x1C23); (0x1C40, 0x1C49);
   (0x1C4D, 0x1C7D); (0x1C80, 0x1C88); (0x1C90, 0x1CBA); (0x1CBD, 0x1CBF);
   (0x1CE9, 0x1CEC); (0x1CEE, 0x1CF3); (0x1CF5, 0x1CF6); (0x1CFA, 0x1CFA);
   (0x1D00, 0x1DBF); (0x1E00, 0x1F15); (0x1F18, 0x1F1D); (0x1F20, 0x1F45);
   (0x1F48, 0x1F4D); (0x1F50, 0x1F57); (0x1F59, 0x1F59); (0x1F5B, 0x1F5B);
   (0x1F5D, 0x1F5D); (0x1F5F, 0x1F7D); (0x1F80, 0x1FB4); (0x1FB6, 0x1FBC);
   (0x1FBE, 0x1FBE); (0x1FC2, 0x1FC4); (0x1FC6, 0x1FCC); (0x1FD0, 0x1FD3);
   (0x1FD6, 0x1FDB); (0x1FE0, 0x1FEC); (0x1FF2, 0x1FF4); (0x1FF6, 0x1FFC);
   (0x2070, 0x2071); (0x2074, 0x2079); (0x207F, 0x2089); (0x2090, 0x209C);
   (0x2102, 0x2102); (0x2107, 0x2107); (0x210A, 0x2113); (0x2115, 0x2115);
   (0x2119, 0x211D); (0x2124, 0x2124); (0x2126, 0x2126); (0x2128, 0x2128);
   (0x212A, 0x212D); (0x212F, 0x2139); (0x213C, 0x213F); (0x2145, 0x2149);
   (0x214E, 0x214E); (0x2150, 0x2189); (0x2460, 0x249B); (0x24EA, 0x24FF);
   (0x2776, 0x2793); (0x2C00, 0x2CE4); (0x2CEB, 0x2CEE); (0x2CF2, 0x2CF3);
   (0x2CFD, 0x2CFD); (0x2D00, 0x2D25); (0x2D27, 0x2D27); (0x2D2D, 0x2D2D);
   (0x2D30, 0x2D67); (0x2D6F, 0x2D6F); (0x2D80, 0x2D96); (0x2DA0, 0x2DA6);
   (0x2DA8, 0x2DAE); (0x2DB0, 0x2DB6); (0x2DB8, 0x2DBE); (0x2DC0, 0x2DC6);
   (0x2DC8, 0x2DCE); (0x2DD0, 0x2DD6); (0x2DD8, 0x2DDE); (0x2E2F, 0x2E2F);
   (0x3005, 0x3007); (0x3021, 0x3029); (0x3031, 0x3035); (0x3038, 0x303C);
   (0x3041, 0x3096); (0x309D, 0x309F); (0x30A1, 0x30FA); (0x30FC, 0x30FF);
   (0x3105, 0x312F); (0x3131, 0x318E); (0x3192, 0x3195); (0x31A0, 0x31BF);
   (0x31F0, 0x31FF); (0x3220, 0x3229); (0x3248, 0x324F); (0x3251, 0x325F);
   (0x3280, 0x3289); (0x32B1, 0x32BF); (0x3400, 0x4DBF); (0x4E00, 0xA48C);
   (0xA4D0, 0xA4FD); (0xA500, 0xA60C); (0xA610, 0xA62B); (0xA640, 0xA66E);
   (0xA67F, 0xA69D); (0xA6A0, 0xA6EF); (0xA717, 0xA71F); (0xA722, 0xA788);
   (0xA78B, 0xA7CA); (0xA7D0, 0xA7D1); (0xA7D3, 0xA7D3); (0xA7D5, 0xA7D9);
   (0xA7F2, 0xA801); (0xA803, 0xA805); (0xA807, 0xA80A); (0xA80C, 0xA822);
   (0xA830, 0xA835); (0xA840, 0xA873); (0xA882, 0xA8B3); (0xA8D0, 0xA8D9);
   (0xA8F2, 0xA8F7); (0xA8FB, 0xA8FB); (0xA8FD, 0xA8FE); (0xA900, 0xA925);
   (0xA930, 0xA946); (0xA960, 0xA97C); (0xA984, 0xA9B2); (0xA9CF, 0xA9D9);
   (0xA9E0, 0xA9E4); (0xA9E6, 0xA9FE); (0xAA00, 0xAA28); (0xAA40, 0xAA42);
   (0xAA44, 0xAA4B); (0xAA50, 0xAA59); (0xAA60, 0xAA76); (0xAA7A, 0xAA7A);
   (0xAA7E, 0xAAAF); (0xAAB1, 0xAAB1); (0xAAB5, 0xAAB6); (0xAAB9, 0xAABD);
   (0xAAC0, 0xAAC0); (0xAAC2, 0xAAC2); (0xAADB, 0xAADD); (0xAAE0, 0xAAEA);
   (0xAAF2, 0xAAF4); (0xAB01, 0xAB06); (0xAB09, 0xAB0E); (0xAB11, 0xAB16);
   (0xAB20, 0xAB26); (0xAB28, 0xAB2E); (0xAB30, 0xAB5A); (0xAB5C, 0xAB69);
   (0xAB70, 0xABE2); (0xABF0, 0xABF9); (0xAC00, 0xD7A3); (0xD7B0, 0xD7C6);
   (0xD7CB, 0xD7FB); (0xF900, 0xFA6D); (0xFA70, 0xFAD9); (0xFB00, 0xFB06);
   (0xFB13, 0xFB17); (0xFB1D, 0xFB1D); (0xFB1F, 0xFB28); (0xFB2A, 0xFB36);
   (0xFB38, 0xFB3C); (0xFB3E, 0xFB3E); (0xFB40, 0xFB41); (0xFB43, 0xFB44);
   (0xFB46, 0xFBB1); (0xFBD3, 0xFD3D); (0xFD50, 0xFD8F); (0xFD92, 0xFDC7);
   (0xFDF0, 0xFDFB); (0xFE70, 0xFE74); (0xFE76, 0xFEFC); (0xFF10, 0xFF19);
   (0xFF21, 0xFF3A); (0xFF41, 0xFF5A); (0xFF66, 0xFFBE); (0xFFC2, 0xFFC7);
   (0xFFCA, 0xFFCF); (0xFFD2, 0xFFD7); (0xFFDA, 0xFFDC); (0x10000, 0x1000B);
   (0x1000D, 0x10026); (0x10028, 0x1003A); (0x1003C, 0x1003D);
   (0x1003F, 0x1004D); (0x10050, 0x1005D); (0x10080, 0x100FA);
   (0x10107, 0x10133); (0x10140, 0x10178); (0x1018A, 0x1018B);
   (0x10280, 0x1029C); (0x102A0, 0x102D0); (0x102E1, 0x102FB);
   (0x10300, 0x10323); (0x1032D, 0x1034A); (0x10350, 0x10375);
   (0x10380, 0x1039D); (0x103A0, 0x103C3); (0x103C8, 0x103CF);
   (0x103D1, 0x103D5); (0x10400, 0x1049D); (0x104A0, 0x104A9);
   (0x104B0, 0x104D3); (0x104D8, 0x104FB); (0x10500, 0x10527);
   (0x10530, 0x10563); (0x10570, 0x1057A); (0x1057C, 0x1058A);
   (0x1058C, 0x10592); (0x10594, 0x10595); (0x10597, 0x105A1);
   (0x105A3, 0x105B1); (0x105B3, 0x105B9); (0x105BB, 0x105BC);
   (0x10600, 0x10736); (0x10740, 0x10755); (0x10760, 0x10767);
   (0x10780, 0x10785); (0x10787, 0x107B0); (0x107B2, 0x107BA);
   (0x10800, 0x10805); (0x10808, 0x10808); (0x1080A, 0x10835);
   (0x10837, 0x10838); (0x1083C, 0x1083C); (0x1083F, 0x10855);
   (0x10858, 0x10876); (0x10879, 0x1089E); (0x108A7, 0x108AF);
   (0x108E0, 0x108F2); (0x108F4, 0x108F5); (0x108FB, 0x1091B);
   (0x10920, 0x10939); (0x10980, 0x109B7); (0x109BC, 0x109CF);
   (0x109D2, 0x10A00); (0x10A10, 0x10A13); (0x10A15, 0x10A17);
   (0x10A19, 0x10A35); (0x10A40, 0x10A48); (0x10A60, 0x10A7E);
   (0x10A80, 0x10A9F); (0x10AC0, 0x10AC7); (0x10AC9, 0x10AE4);
   (0x10AEB, 0x10AEF); (0x10B00, 0x10B35); (0x10B40, 0x10B55);
   (0x10B58, 0x10B72); (0x10B78, 0x10B91); (0x10BA9, 0x10BAF);
   (0x10C00, 0x10C48); (0x10C80, 0x10CB2); (0x10CC0, 0x10CF2);
   (0x10CFA, 0x10D23); (0x10D30, 0x10D39); (0x10E60, 0x10E7E);
   (0x10E80, 0x10EA9); (0x10EB0, 0x10EB1); (0x10F00, 0x10F27);
   (0x10F30, 0x10F45); (0x10F51, 0x10F54); (0x10F70, 0x10F81);
   (0x10FB0, 0x10FCB); (0x10FE0, 0x10FF6); (0x11003, 0x11037);
   (0x11052, 0x1106F); (0x11071, 0x11072); (0x11075, 0x11075);
   (0x11083, 0x110AF); (0x110D0, 0x110E8); (0x110F0, 0x110F9);
   (0x11103, 0x11126); (0x11136, 0x1113F); (0x11144, 0x11144);
   (0x11147, 0x11147); (0x11150, 0x11172); (0x11176, 0x11176);
   (0x11183, 0x111B2); (0x111C1, 0x111C4); (0x111D0, 0x111DA);
   (0x111DC, 0x111DC); (0x111E1, 0x111F4); (0x11200, 0x11211);
   (0x11213, 0x1122B); (0x11280, 0x11286); (0x11288, 0x11288);
   (0x1128A, 0x1128D); (0x1128F, 0x1129D); (0x1129F, 0x112A8);
   (0x112B0, 0x112DE); (0x112F0, 0x112F9); (0x11305, 0x1130C);
   (0x1130F, 0x11310); (0x11313, 0x11328); (0x1132A, 0x11330);
   (0x11332, 0x11333); (0x11335, 0x11339); (0x1133D, 0x1133D);
   (0x11350, 0x11350); (0x1135D, 0x11361); (0x11400, 0x11434);
   (0x11447, 0x1144A); (0x11450, 0x11459); (0x1145F, 0x11461);
   (0x11480, 0x114AF); (0x114C4, 0x114C5); (0x114C7, 0x114C7);
   (0x114D0, 0x114D9); (0x11580, 0x115AE); (0x115D8, 0x115DB);
   (0x11600, 0x1162F); (0x11644, 0x11644); (0x11650, 0x11659);
   (0x11680, 0x116AA); (0x116B8, 0x116B8); (0x116C0, 0x116C9);
   (0x11700, 0x1171A); (0x11730, 0x1173B); (0x11740, 0x11746);
   (0x11800, 0x1182B); (0x118A0, 0x118F2); (0x118FF, 0x11906);
   (0x11909, 0x11909); (0x1190C, 0x11913); (0x11915, 0x11916);
   (0x11918, 0x1192F); (0x1193F, 0x1193F); (0x11941, 0x11941);
   (0x11950, 0x11959); (0x119A0, 0x119A7); (0x119AA, 0x119D0);
   (0x119E1, 0x119E1); (0x119E3, 0x119E3); (0x11A00, 0x11A00);
   (0x11A0B, 0x11A32); (0x11A3A, 0x11A3A); (0x11A50, 0x11A50);
   (0x11A5C, 0x11A89); (0x11A9D, 0x11A9D); (0x11AB0, 0x11AF8);
   (0x11C00, 0x11C08); (0x11C0A, 0x11C2E); (0x11C40, 0x11C40);
   (0x11C50, 0x11C6C); (0x11C72, 0x11C8F); (0x11D00, 0x11D06);
   (0x11D08, 0x11D09); (0x11D0B, 0x11D30); (0x11D46, 0x11D46);
   (0x11D50, 0x11D59); (0x11D60, 0x11D65); (0x11D67, 0x11D68);
   (0x11D6A, 0x11D89); (0x11D98, 0x11D98); (0x11DA0, 0x11DA9);
   (0x11EE0, 0x11EF2); (0x11FB0, 0x11FB0); (0x11FC0, 0x11FD4);
   (0x12000, 0x12399); (0x12400, 0x1246E); (0x12480, 0x12543);
   (0x12F90, 0x12FF0); (0x13000, 0x1342E); (0x14400, 0x14646);
   (0x16800, 0x16A38); (0x16A40, 0x16A5E); (0x16A60, 0x16A69);
   (0x16A70, 0x16ABE); (0x16AC0, 0x16AC9); (0x16AD0, 0x16AED);
   (0x16B00, 0x16B2F); (0x16B40, 0x16B43); (0x16B50, 0x16B59);
   (0x16B5B, 0x16B61); (0x16B63, 0x16B77); (0x16B7D, 0x16B8F);
   (0x16E40, 0x16E96); (0x16F00, 0x16F4A); (0x16F50, 0x16F50);
   (0x16F93, 0x16F9F); (0x16FE0, 0x16FE1); (0x16FE3, 0x16FE3);
   (0x17000, 0x187F7); (0x18800, 0x18CD5); (0x18D00, 0x18D08);
   (0x1AFF0, 0x1AFF3); (0x1AFF5, 0x1AFFB); (0x1AFFD, 0x1AFFE);
   (0x1B000, 0x1B122); (0x1B150, 0x1B152); (0x1B164, 0x1B167);
   (0x1B170, 0x1B2FB); (0x1BC00, 0x1BC6A); (0x1BC70, 0x1BC7C);
   (0x1BC80, 0x1BC88); (0x1BC90, 0x1BC99); (0x1D2E0, 0x1D2F3);
   (0x1D360, 0x1D378); (0x1D400, 0x1D454); (0x1D456, 0x1D49C);
   (0x1D49E, 0x1D49F); (0x1D4A2, 0x1D4A2); (0x1D4A5, 0x1D4A6);
   (0x1D4A9, 0x1D4AC); (0x1D4AE, 0x1D4B9); (0x1D4BB, 0x1D4BB);
   (0x1D4BD, 0x1D4C3); (0x1D4C5, 0x1D505); (0x1D507, 0x1D50A);
   (0x1D50D, 0x1D514); (0x1D516, 0x1D51C); (0x1D51E, 0x1D539);
   (0x1D53B, 0x1D53E); (0x1D540, 0x1D544); (0x1D546, 0x1D546);
   (0x1D54A, 0x1D550); (0x1D552, 0x1D6A5); (0x1D6A8, 0x1D6C0);
   (0x1D6C2, 0x1D6DA); (0x1D6DC, 0x1D6FA); (0x1D6FC, 0x1D714);
   (0x1D716, 0x1D734); (0x1D736, 0x1D74E); (0x1D750, 0x1D76E);
   (0x1D770, 0x1D788); (0x1D78A, 0x1D7A8); (0x1D7AA, 0x1D7C2);
   (0x1D7C4, 0x1D7CB); (0x1D7CE, 0x1D7FF); (0x1DF00, 0x1DF1E);
   (0x1E100, 0x1E12C); (0x1E137, 0x1E13D); (0x1E140, 0x1E149);
   (0x1E14E, 0x1E14E); (0x1E290, 0x1E2AD); (0x1E2C0, 0x1E2EB);
   (0x1E2F0, 0x1E2F9); (0x1E7E0, 0x1E7E6); (0x1E7E8, 0x1E7EB);
   (0x1E7ED, 0x1E7EE); (0x1E7F0, 0x1E7FE); (0x1E800, 0x1E8C4);
   (0x1E8C7, 0x1E8CF); (0x1E900, 0x1E943); (0x1E94B, 0x1E94B);
   (0x1E950, 0x1E959); (0x1EC71, 0x1ECAB); (0x1ECAD, 0x1ECAF);
   (0x1ECB1, 0x1ECB4); (0x1ED01, 0x1ED2D); (0x1ED2F, 0x1ED3D);
   (0x1EE00, 0x1EE03); (0x1EE05, 0x1EE1F); (0x1EE21, 0x1EE22);
   (0x1EE24, 0x1EE24); (0x1EE27, 0x1EE27); (0x1EE29, 0x1EE32);
   (0x1EE34, 0x1EE37); (0x1EE39, 0x1EE39); (0x1EE3B, 0x1EE3B);
   (0x1EE42, 0x1EE42); (0x1EE47, 0x1EE47); (0x1EE49, 0x1EE49);
   (0x1EE4B, 0x1EE4B); (0x1EE4D, 0x1EE4F); (0x1EE51, 0x1EE52);
   (0x1EE54, 0x1EE54); (0x1EE57, 0x1EE57); (0x1EE59, 0x1EE59);
   (0x1EE5B, 0x1EE5B); (0x1EE5D, 0x1EE5D); (0x1EE5F, 0x1EE5F);
   (0x1EE61, 0x1EE62); (0x1EE64, 0x1EE64); (0x1EE67, 0x1EE6A);
   (0x1EE6C, 0x1EE72); (0x1EE74, 0x1EE77); (0x1EE79, 0x1EE7C);
   (0x1EE7E, 0x1EE7E); (0x1EE80, 0x1EE89); (0x1EE8B, 0x1EE9B);
   (0x1EEA1, 0x1EEA3); (0x1EEA5, 0x1EEA9); (0x1EEAB, 0x1EEBB);
   (0x1F100, 0x1F10C); (0x1FBF0, 0x1FBF9); (0x20000, 0x2A6DF);
   (0x2A700, 0x2B738); (0x2B740, 0x2B81D); (0x2B820, 0x2CEA1);
   (0x2CEB0, 0x2EBE0); (0x2F800, 0x2FA1D); (0x30000, 0x3134A)].

(** The class [\w] of [re] on [str] patterns: [str.isalnum] or the
    underscore. *)
Definition is_word (c : char) : bool :=
  is_digit_ascii c || is_upper_ascii c || is_lower_ascii c || (c =? 95)
  || (negb (is_ascii c) && in_ranges alnum_ranges c).

(** The simple lowercase mapping beyond ASCII: [(lo, hi, step, img)] maps
    [lo], [lo + step], ... up to [hi] to [img], [img + step], ...; a code
    point in no run is its own lowercase. *)
Definition lower_runs : list (N * N * N * N) :=
  [(0xC0, 0xD6, 1, 0xE0); (0xD8, 0xDE, 1, 0xF8); (0x100, 0x12E, 2, 0x101);
   (0x132, 0x136, 2, 0x133); (0x139, 0x147, 2, 0x13A);
   (0x14A, 0x176, 2, 0x14B); (0x178, 0x178, 1, 0xFF);
   (0x179, 0x17D, 2, 0x17A); (0x181, 0x181, 1, 0x253);
   (0x182, 0x184, 2, 0x183); (0x186, 0x186, 1, 0x254);
   (0x187, 0x187, 1, 0x188); (0x189, 0x18A, 1, 0x256);
   (0x18B, 0x18B, 1, 0x18C); (0x18E, 0x18E, 1, 0x1DD);
   (0x18F, 0x18F, 1, 0x259); (0x190, 0x190, 1, 0x25B);
   (0x191, 0x191, 1, 0x192); (0x193, 0x193, 1, 0x260);
   (0x194, 0x194, 1, 0x263); (0x196, 0x196, 1, 0x269);
   (0x197, 0x197, 1, 0x268); (0x198, 0x198, 1, 0x199);
   (0x19C, 0x19C, 1, 0x26F); (0x19D, 0x19D, 1, 0x272);
   (0x19F, 0x19F, 1, 0x275); (0x1A0, 0x1A4, 2, 0x1A1);
   (0x1A6, 0x1A6, 1, 0x280); (0x1A7, 0x1A7, 1, 0x1A8);
   (0x1A9, 0x1A9, 1, 0x283); (0x1AC, 0x1AC, 1, 0x1AD);
   (0x1AE, 0x1AE, 1, 0x288); (0x1AF, 0x1AF, 1, 0x1B0);
   (0x1B1, 0x1B2, 1, 0x28A); (0x1B3, 0x1B5, 2, 0x1B4);
   (0x1B7, 0x1B7, 1, 0x292); (0x1B8, 0x1B8, 1, 0x1B9);
   (0x1BC, 0x1BC, 1, 0x1BD); (0x1C4, 0x1C4, 1, 0x1C6);
   (0x1C5, 0x1C5, 1, 0x1C6); (0x1C7, 0x1C7, 1, 0x1C9);
   (0x1C8, 0x1C8, 1, 0x1C9); (0x1CA, 0x1CA, 1, 0x1CC);
   (0x1CB, 0x1DB, 2, 0x1CC); (0x1DE, 0x1EE, 2, 0x1DF);
   (0x1F1, 0x1F1, 1, 0x1F3); (0x1F2, 0x1F4, 2, 0x1F3);
   (0x1F6, 0x1F6, 1, 0x195); (0x1F7, 0x1F7, 1, 0x1BF);
   (0x1F8, 0x21E, 2, 0x1F9); (0x220, 0x220, 1, 0x19E);
   (0x222, 0x232, 2, 0x223); (0x23A, 0x23A, 1, 0x2C65);
   (0x23B, 0x23B, 1, 0x23C); (0x23D, 0x23D, 1, 0x19A);
   (0x23E, 0x23E, 1, 0x2C66); (0x241, 0x241, 1, 0x242);
   (0x243, 0x243, 1, 0x180); (0x244, 0x244, 1, 0x289);
   (0x245, 0x245, 1, 0x28C); (0x246, 0x24E, 2, 0x247);
   (0x370, 0x372, 2, 0x371); (0x376, 0x376, 1, 0x377);
   (0x37F, 0x37F, 1, 0x3F3); (0x386, 0x386, 1, 0x3AC);
   (0x388, 0x38A, 1, 0x3AD); (0x38C, 0x38C, 1, 0x3CC);
   (0x38E, 0x38F, 1, 0x3CD); (0x391, 0x3A1, 1, 0x3B1);
   (0x3A3, 0x3AB, 1, 0x3C3); (0x3CF, 0x3CF, 1, 0x3D7);
   (0x3D8, 0x3EE, 2, 0x3D9); (0x3F4, 0x3F4, 1, 0x3B8);
   (0x3F7, 0x3F7, 1, 0x3F8); (0x3F9, 0x3F9, 1, 0x3F2);
   (0x3FA, 0x3FA, 1, 0x3FB); (0x3FD, 0x3FF, 1, 0x37B);
   (0x400, 0x40F, 1, 0x450); (0x410, 0x42F, 1, 0x430);
   (0x460, 0x480, 2, 0x461); (0x48A, 0x4BE, 2, 0x48B);
   (0x4C0, 0x4C0, 1, 0x4CF); (0x4C1, 0x4CD, 2, 0x4C2);
   (0x4D0, 0x52E, 2, 0x4D1); (0x531, 0x556, 1, 0x561);
   (0x10A0, 0x10C5, 1, 0x2D00); (0x10C7, 0x10C7, 1, 0x2D27);
   (0x10CD, 0x10CD, 1, 0x2D2D); (0x13A0, 0x13EF, 1, 0xAB70);
   (0x13F0, 0x13F5, 1, 0x13F8); (0x1C90, 0x1CBA, 1, 0x10D0);
   (0x1CBD, 0x1CBF, 1, 0x10FD); (0x1E00, 0x1E94, 2, 0x1E01);
   (0x1E9E, 0x1E9E, 1, 0xDF); (0x1EA0, 0x1EFE, 2, 0x1EA1);
   (0x1F08, 0x1F0F, 1, 0x1F00); (0x1F18, 0x1F1D, 1, 0x1F10);
   (0x1F28, 0x1F2F, 1, 0x1F20); (0x1F38, 0x1F3F, 1, 0x1F30);
   (0x1F48, 0x1F4D, 1, 0x1F40); (0x1F59, 0x1F5F, 2, 0x1F51);
   (0x1F68, 0x1F6F, 1, 0x1F60); (0x1F88, 0x1F8F, 1, 0x1F80);
   (0x1F98, 0x1F9F, 1, 0x1F90); (0x1FA8, 0x1FAF, 1, 0x1FA0);
   (0x1FB8, 0x1FB9, 1, 0x1FB0); (0x1FBA, 0x1FBB, 1, 0x1F70);
   (0x1FBC, 0x1FBC, 1, 0x1FB3); (0x1FC8, 0x1FCB, 1, 0x1F72);
   (0x1FCC, 0x1FCC, 1, 0x1FC3); (0x1FD8, 0x1FD9, 1, 0x1FD0);
   (0x1FDA, 0x1FDB, 1, 0x1F76); (0x1FE8, 0x1FE9, 1, 0x1FE0);
   (0x1FEA, 0x1FEB, 1, 0x1F7A); (0x1FEC, 0x1FEC, 1, 0x1FE5);
   (0x1FF8, 0x1FF9, 1, 0x1F78); (0x1FFA, 0x1FFB, 1, 0x1F7C);
   (0x1FFC, 0x1FFC, 1, 0x1FF3); (0x2126, 0x2126, 1, 0x3C9);
   (0x212A, 0x212A, 1, 0x6B); (0x212B, 0x212B, 1, 0xE5);
   (0x2132, 0x2132, 1, 0x214E); (0x2160, 0x216F, 1, 0x2170);
   (0x2183, 0x2183, 1, 0x2184); (0x24B6, 0x24CF, 1, 0x24D0);
   (0x2C00, 0x2C2F, 1, 0x2C30); (0x2C60, 0x2C60, 1, 0x2C61);
   (0x2C62, 0x2C62, 1, 0x26B); (0x2C63, 0x2C63, 1, 0x1D7D);
   (0x2C64, 0x2C64, 1, 0x27D); (0x2C67, 0x2C6B, 2, 0x2C68);
   (0x2C6D, 0x2C6D, 1, 0x251); (0x2C6E, 0x2C6E, 1, 0x271);
   (0x2C6F, 0x2C6F, 1, 0x250); (0x2C70, 0x2C70, 1, 0x252);
   (0x2C72, 0x2C72, 1, 0x2C73); (0x2C75, 0x2C75, 1, 0x2C76);
   (0x2C7E, 0x2C7F, 1, 0x23F); (0x2C80, 0x2CE2, 2, 0x2C81);
   (0x2CEB, 0x2CED, 2, 0x2CEC); (0x2CF2, 0x2CF2, 1, 0x2CF3);
   (0xA640, 0xA66C, 2, 0xA641); (0xA680, 0xA69A, 2, 0xA681);
   (0xA722, 0xA72E, 2, 0xA723); (0xA732, 0xA76E, 2, 0xA733);
   (0xA779, 0xA77B, 2, 0xA77A); (0xA77D, 0xA77D, 1, 0x1D79);
   (0xA77E, 0xA786, 2, 0xA77F); (0xA78B, 0xA78B, 1, 0xA78C);
   (0xA78D, 0xA78D, 1, 0x265); (0xA790, 0xA792, 2, 0xA791);
   (0xA796, 0xA7A8, 2, 0xA797); (0xA7AA, 0xA7AA, 1, 0x266);
   (0xA7AB, 0xA7AB, 1, 0x25C); (0xA7AC, 0xA7AC, 1, 0x261);
   (0xA7AD, 0xA7AD, 1, 0x26C); (0xA7AE, 0xA7AE, 1, 0x26A);
   (0xA7B0, 0xA7B0, 1, 0x29E); (0xA7B1, 0xA7B1, 1, 0x287);
   (0xA7B2, 0xA7B2, 1, 0x29D); (0xA7B3, 0xA7B3, 1, 0xAB53);
   (0xA7B4, 0xA7C2, 2, 0xA7B5); (0xA7C4, 0xA7C4, 1, 0xA794);
   (0xA7C5, 0xA7C5, 1, 0x282); (0xA7C6, 0xA7C6, 1, 0x1D8E);
   (0xA7C7, 0xA7C9, 2, 0xA7C8); (0xA7D0, 0xA7D0, 1, 0xA7D1);
   (0xA7D6, 0xA7D8, 2, 0xA7D7); (0xA7F5, 0xA7F5, 1, 0xA7F6);
   (0xFF21, 0xFF3A, 1, 0xFF41); (0x10400, 0x10427, 1, 0x10428);
   (0x104B0, 0x104D3, 1, 0x104D8); (0x10570, 0x1057A, 1, 0x10597);
   (0x1057C, 0x1058A, 1, 0x105A3); (0x1058C, 0x10592, 1, 0x105B3);
   (0x10594, 0x10595, 1, 0x105BB); (0x10C80, 0x10CB2, 1, 0x10CC0);
   (0x118A0, 0x118BF, 1, 0x118C0); (0x16E40, 0x16E5F, 1, 0x16E60);
   (0x1E900, 0x1E921, 1, 0x1E922)].

Definition in_run (c : char) (r : N * N * N * N) : bool :=
  let '(lo, hi, step, _) := r in
  (lo <=? c) && (c <=? hi) && ((c - lo) mod step =? 0).

Definition to_lower (c : char) : char :=
  match find (in_run c) lower_runs with
  | Some (lo, _, _, img) => img + (c - lo)
  | None => c
  end.

(** The full lowercase mapping of one character: U+0130 (capital I with dot
    above) is the one code point with a lowercase of two characters, "i" and
    the combining dot above U+0307. *)
Definition lower_char (c : char) : str :=
  if is_upper_ascii c then [c + 32]
  else if is_ascii c then [c]
  else if c =? 0x130 then [0x69; 0x307]
  else [to_lower c].

(** The property Case_Ignorable. *)
Definition case_ignorable_ranges : list (N * N) :=
  [(0x27, 0x27); (0x2E, 0x2E); (0x3A, 0x3A); (0x5E, 0x5E); (0x60, 0x60);
   (0xA8, 0xA8); (0xAD, 0xAD); (0xAF, 0xAF); (0xB4, 0xB4); (0xB7, 0xB8);
   (0x2B0, 0x36F); (0x374, 0x375); (0x37A, 0x37A); (0x384, 0x385);
   (0x387, 0x387); (0x483, 0x489); (0x559, 0x559); (0x55F, 0x55F);
   (0x591, 0x5BD); (0x5BF, 0x5BF); (0x5C1, 0x5C2); (0x5C4, 0x5C5);
   (0x5C7, 0x5C7); (0x5F4, 0x5F4); (0x600, 0x605); (0x610, 0x61A);
   (0x61C, 0x61C); (0x640, 0x640); (0x64B, 0x65F); (0x670, 0x670);
   (0x6D6, 0x6DD); (0x6DF, 0x6E8); (0x6EA, 0x6ED); (0x70F, 0x70F);
   (0x711, 0x711); (0x730, 0x74A); (0x7A6, 0x7B0); (0x7EB, 0x7F5);
   (0x7FA, 0x7FA); (0x7FD, 0x7FD); (0x816, 0x82D); (0x859, 0x85B);
   (0x888, 0x888); (0x890, 0x891); (0x898, 0x89F); (0x8C9, 0x902);
   (0x93A, 0x93A); (0x93C, 0x93C); (0x941, 0x948); (0x94D, 0x94D);
   (0x951, 0x957); (0x962, 0x963); (0x971, 0x971); (0x981, 0x981);
   (0x9BC, 0x9BC); (0x9C1, 0x9C4); (0x9CD, 0x9CD); (0x9E2, 0x9E3);
   (0x9FE, 0x9FE); (0xA01, 0xA02); (0xA3C, 0xA3C); (0xA41, 0xA42);
   (0xA47, 0xA48); (0xA4B, 0xA4D); (0xA51, 0xA51); (0xA70, 0xA71);
   (0xA75, 0xA75); (0xA81, 0xA82); (0xABC, 0xABC); (0xAC1, 0xAC5);
   (0xAC7, 0xAC8); (0xACD, 0xACD); (0xAE2, 0xAE3); (0xAFA, 0xAFF);
   (0xB01, 0xB01); (0xB3C, 0xB3C); (0xB3F, 0xB3F); (0xB41, 0xB44);
   (0xB4D, 0xB4D); (0xB55, 0xB56); (0xB62, 0xB63); (0xB82, 0xB82);
   (0xBC0, 0xBC0); (0xBCD, 0xBCD); (0xC00, 0xC00); (0xC04, 0xC04);
   (0xC3C, 0xC3C); (0xC3E, 0xC40); (0xC46, 0xC48); (0xC4A, 0xC4D);
   (0xC55, 0xC56); (0xC62, 0xC63); (0xC81, 0xC81); (0xCBC, 0xCBC);
   (0xCBF, 0xCBF); (0xCC6, 0xCC6); (0xCCC, 0xCCD); (0xCE2, 0xCE3);
   (0xD00, 0xD01); (0xD3B, 0xD3C); (0xD41, 0xD44); (0xD4D, 0xD4D);
   (0xD62, 0xD63); (0xD81, 0xD81); (0xDCA, 0xDCA); (0xDD2, 0xDD4);
   (0xDD6, 0xDD6); (0xE31, 0xE31); (0xE34, 0xE3A); (0xE46, 0xE4E);
   (0xEB1, 0xEB1); (0xEB4, 0xEBC); (0xEC6, 0xEC6); (0xEC8, 0xECD);
   (0xF18, 0xF19); (0xF35, 0xF35); (0xF37, 0xF37); (0xF39, 0xF39);
   (0xF71, 0xF7E); (0xF80, 0xF84); (0xF86, 0xF87); (0xF8D, 0xF97);
   (0xF99, 0xFBC); (0xFC6, 0xFC6); (0x102D, 0x1030); (0x1032, 0x1037);
   (0x1039, 0x103A); (0x103D, 0x103E); (0x1058, 0x1059); (0x105E, 0x1060);
   (0x1071, 0x1074); (0x1082, 0x1082); (0x1085, 0x1086); (0x108D, 0x108D);
   (0x109D, 0x109D); (0x10FC, 0x10FC); (0x135D, 0x135F); (0x1712, 0x1714);
   (0x1732, 0x1733); (0x1752, 0x1753); (0x1772, 0x1773); (0x17B4, 0x17B5);
   (0x17B7, 0x17BD); (0x17C6, 0x17C6); (0x17C9, 0x17D3); (0x17D7, 0x17D7);
   (0x17DD, 0x17DD); (0x180B, 0x180F); (0x1843, 0x1843); (0x1885, 0x1886);
   (0x18A9, 0x18A9); (0x1920, 0x1922); (0x1927, 0x1928); (0x1932, 0x1932);
   (0x1939, 0x193B); (0x1A17, 0x1A18); (0x1A1B, 0x1A1B); (0x1A56, 0x1A56);
   (0x1A58, 0x1A5E); (0x1A60, 0x1A60); (0x1A62, 0x1A62); (0x1A65, 0x1A6C);
   (0x1A73, 0x1A7C); (0x1A7F, 0x1A7F); (0x1AA7, 0x1AA7); (0x1AB0, 0x1ACE);
   (0x1B00, 0x1B03); (0x1B34, 0x1B34); (0x1B36, 0x1B3A); (0x1B3C, 0x1B3C);
   (0x1B42, 0x1B42); (0x1B6B, 0x1B73); (0x1B80, 0x1B81); (0x1BA2, 0x1BA5);
   (0x1BA8, 0x1BA9); (0x1BAB, 0x1BAD); (0x1BE6, 0x1BE6); (0x1BE8, 0x1BE9);
   (0x1BED, 0x1BED); (0x1BEF, 0x1BF1); (0x1C2C, 0x1C33); (0x1C36, 0x1C37);
   (0x1C78, 0x1C7D); (0x1CD0, 0x1CD2); (0x1CD4, 0x1CE0); (0x1CE2, 0x1CE8);
   (0x1CED, 0x1CED); (0x1CF4, 0x1CF4); (0x1CF8, 0x1CF9); (0x1D2C, 0x1D6A);
   (0x1D78, 0x1D78); (0x1D9B, 0x1DFF); (0x1FBD, 0x1FBD); (0x1FBF, 0x1FC1);
   (0x1FCD, 0x1FCF); (0x1FDD, 0x1FDF); (0x1FED, 0x1FEF); (0x1FFD, 0x1FFE);
   (0x200B, 0x200F); (0x2018, 0x2019); (0x2024, 0x2024); (0x2027, 0x2027);
   (0x202A, 0x202E); (0x2060, 0x2064); (0x2066, 0x206F); (0x2071, 0x2071);
   (0x207F, 0x207F); (0x2090, 0x209C); (0x20D0, 0x20F0); (0x2C7C, 0x2C7D);
   (0x2CEF, 0x2CF1); (0x2D6F, 0x2D6F); (0x2D7F, 0x2D7F); (0x2DE0, 0x2DFF);
   (0x2E2F, 0x2E2F); (0x3005, 0x3005); (0x302A, 0x302D); (0x3031, 0x3035);
   (0x303B, 0x303B); (0x3099, 0x309E); (0x30FC, 0x30FE); (0xA015, 0xA015);
   (0xA4F8, 0xA4FD); (0xA60C, 0xA60C); (0xA66F, 0xA672); (0xA674, 0xA67D);
   (0xA67F, 0xA67F); (0xA69C, 0xA69F); (0xA6F0, 0xA6F1); (0xA700, 0xA721);
   (0xA770, 0xA770); (0xA788, 0xA78A); (0xA7F2, 0xA7F4); (0xA7F8, 0xA7F9);
   (0xA802, 0xA802); (0xA806, 0xA806); (0xA80B, 0xA80B); (0xA825, 0xA826);
   (0xA82C, 0xA82C); (0xA8C4, 0xA8C5); (0xA8E0, 0xA8F1); (0xA8FF, 0xA8FF);
   (0xA926, 0xA92D); (0xA947, 0xA951); (0xA980, 0xA982); (0xA9B3, 0xA9B3);
   (0xA9B6, 0xA9B9); (0xA9BC, 0xA9BD); (0xA9CF, 0xA9CF); (0xA9E5, 0xA9E6);
   (0xAA29, 0xAA2E); (0xAA31, 0xAA32); (0xAA35, 0xAA36); (0xAA43, 0xAA43);
   (0xAA4C, 0xAA4C); (0xAA70, 0xAA70); (0xAA7C, 0xAA7C); (0xAAB0, 0xAAB0);
   (0xAAB2, 0xAAB4); (0xAAB7, 0xAAB8); (0xAABE, 0xAABF); (0xAAC1, 0xAAC1);
   (0xAADD, 0xAADD); (0xAAEC, 0xAAED); (0xAAF3, 0xAAF4); (0xAAF6, 0xAAF6);
   (0xAB5B, 0xAB5F); (0xAB69, 0xAB6B); (0xABE5, 0xABE5); (0xABE8, 0xABE8);
   (0xABED, 0xABED); (0xFB1E, 0xFB1E); (0xFBB2, 0xFBC2); (0xFE00, 0xFE0F);
   (0xFE13, 0xFE13); (0xFE20, 0xFE2F); (0xFE52, 0xFE52); (0xFE55, 0xFE55);
   (0xFEFF, 0xFEFF); (0xFF07, 0xFF07); (0xFF0E, 0xFF0E); (0xFF1A, 0xFF1A);
   (0xFF3E, 0xFF3E); (0xFF40, 0xFF40); (0xFF70, 0xFF70); (0xFF9E, 0xFF9F);
   (0xFFE3, 0xFFE3); (0xFFF9, 0xFFFB); (0x101FD, 0x101FD);
   (0x102E0, 0x102E0); (0x10376, 0x1037A); (0x10780, 0x10785);
   (0x10787, 0x107B0); (0x107B2, 0x107BA); (0x10A01, 0x10A03);
   (0x10A05, 0x10A06); (0x10A0C, 0x10A0F); (0x10A38, 0x10A3A);
   (0x10A3F, 0x10A3F); (0x10AE5, 0x10AE6); (0x10D24, 0x10D27);
   (0x10EAB, 0x10EAC); (0x10F46, 0x10F50); (0x10F82, 0x10F85);
   (0x11001, 0x11001); (0x11038, 0x11046); (0x11070, 0x11070);
   (0x11073, 0x11074); (0x1107F, 0x11081); (0x110B3, 0x110B6);
   (0x110B9, 0x110BA); (0x110BD, 0x110BD); (0x110C2, 0x110C2);
   (0x110CD, 0x110CD); (0x11100, 0x11102); (0x11127, 0x1112B);
   (0x1112D, 0x11134); (0x11173, 0x11173); (0x11180, 0x11181);
   (0x111B6, 0x111BE); (0x111C9, 0x111CC); (0x111CF, 0x111CF);
   (0x1122F, 0x11231); (0x11234, 0x11234); (0x11236, 0x11237);
   (0x1123E, 0x1123E); (0x112DF, 0x112DF); (0x112E3, 0x112EA);
   (0x11300, 0x11301); (0x1133B, 0x1133C); (0x11340, 0x11340);
   (0x11366, 0x1136C); (0x11370, 0x11374); (0x11438, 0x1143F);
   (0x11442, 0x11444); (0x11446, 0x11446); (0x1145E, 0x1145E);
   (0x114B3, 0x114B8); (0x114BA, 0x114BA); (0x114BF, 0x114C0);
   (0x114C2, 0x114C3); (0x115B2, 0x115B5); (0x115BC, 0x115BD);
   (0x115BF, 0x115C0); (0x115DC, 0x115DD); (0x11633, 0x1163A);
   (0x1163D, 0x1163D); (0x1163F, 0x11640); (0x116AB, 0x116AB);
   (0x116AD, 0x116AD); (0x116B0, 0x116B5); (0x116B7, 0x116B7);
   (0x1171D, 0x1171F); (0x11722, 0x11725); (0x11727, 0x1172B);
   (0x1182F, 0x11837); (0x11839, 0x1183A); (0x1193B, 0x1193C);
   (0x1193E, 0x1193E); (0x11943, 0x11943); (0x119D4, 0x119D7);
   (0x119DA, 0x119DB); (0x119E0, 0x119E0); (0x11A01, 0x11A0A);
   (0x11A33, 0x11A38); (0x11A3B, 0x11A3E); (0x11A47, 0x11A47);
   (0x11A51, 0x11A56); (0x11A59, 0x11A5B); (0x11A8A, 0x11A96);
   (0x11A98, 0x11A99); (0x11C30, 0x11C36); (0x11C38, 0x11C3D);
   (0x11C3F, 0x11C3F); (0x11C92, 0x11CA7); (0x11CAA, 0x11CB0);
   (0x11CB2, 0x11CB3); (0x11CB5, 0x11CB6); (0x11D31, 0x11D36);
   (0x11D3A, 0x11D3A); (0x11D3C, 0x11D3D); (0x11D3F, 0x11D45);
   (0x11D47, 0x11D47); (0x11D90, 0x11D91); (0x11D95, 0x11D95);
   (0x11D97, 0x11D97); (0x11EF3, 0x11EF4); (0x13430, 0x13438);
   (0x16AF0, 0x16AF4); (0x16B30, 0x16B36); (0x16B40, 0x16B43);
   (0x16F4F, 0x16F4F); (0x16F8F, 0x16F9F); (0x16FE0, 0x16FE1);
   (0x16FE3, 0x16FE4); (0x1AFF0, 0x1AFF3); (0x1AFF5, 0x1AFFB);
   (0x1AFFD, 0x1AFFE); (0x1BC9D, 0x1BC9E); (0x1BCA0, 0x1BCA3);
   (0x1CF00, 0x1CF2D); (0x1CF30, 0x1CF46); (0x1D167, 0x1D169);
   (0x1D173, 0x1D182); (0x1D185, 0x1D18B); (0x1D1AA, 0x1D1AD);
   (0x1D242, 0x1D244); (0x1DA00, 0x1DA36); (0x1DA3B, 0x1DA6C);
   (0x1DA75, 0x1DA75); (0x1DA84, 0x1DA84); (0x1DA9B, 0x1DA9F);
   (0x1DAA1, 0x1DAAF); (0x1E000, 0x1E006); (0x1E008, 0x1E018);
   (0x1E01B, 0x1E021); (0x1E023, 0x1E024); (0x1E026, 0x1E02A);
   (0x1E130, 0x1E13D); (0x1E2AE, 0x1E2AE); (0x1E2EC, 0x1E2EF);
   (0x1E8D0, 0x1E8D6); (0x1E944, 0x1E94B); (0x1F3FB, 0x1F3FF);
   (0xE0001, 0xE0001); (0xE0020, 0xE007F); (0xE0100, 0xE01EF)].

(** The property Cased. *)
Definition cased_ranges : list (N * N) :=
  [(0x41, 0x5A); (0x61, 0x7A); (0xAA, 0xAA); (0xB5, 0xB5); (0xBA, 0xBA);
   (0xC0, 0xD6); (0xD8, 0xF6); (0xF8, 0x1BA); (0x1BC, 0x1BF); (0x1C4, 0x293);
   (0x295, 0x2B8); (0x2C0, 0x2C1); (0x2E0, 0x2E4); (0x345, 0x345);
   (0x370, 0x373); (0x376, 0x377); (0x37A, 0x37D); (0x37F, 0x37F);
   (0x386, 0x386); (0x388, 0x38A); (0x38C, 0x38C); (0x38E, 0x3A1);
   (0x3A3, 0x3F5); (0x3F7, 0x481); (0x48A, 0x52F); (0x531, 0x556);
   (0x560, 0x588); (0x10A0, 0x10C5); (0x10C7, 0x10C7); (0x10CD, 0x10CD);
   (0x10D0, 0x10FA); (0x10FD, 0x10FF); (0x13A0, 0x13F5); (0x13F8, 0x13FD);
   (0x1C80, 0x1C88); (0x1C90, 0x1CBA); (0x1CBD, 0x1CBF); (0x1D00, 0x1DBF);
   (0x1E00, 0x1F15); (0x1F18, 0x1F1D); (0x1F20, 0x1F45); (0x1F48, 0x1F4D);
   (0x1F50, 0x1F57); (0x1F59, 0x1F59); (0x1F5B, 0x1F5B); (0x1F5D, 0x1F5D);
   (0x1F5F, 0x1F7D); (0x1F80, 0x1FB4); (0x1FB6, 0x1FBC); (0x1FBE, 0x1FBE);
   (0x1FC2, 0x1FC4); (0x1FC6, 0x1FCC); (0x1FD0, 0x1FD3); (0x1FD6, 0x1FDB);
   (0x1FE0, 0x1FEC); (0x1FF2, 0x1FF4); (0x1FF6, 0x1FFC); (0x2071, 0x2071);
   (0x207F, 0x207F); (0x2090, 0x209C); (0x2102, 0x2102); (0x2107, 0x2107);
   (0x210A, 0x2113); (0x2115, 0x2115); (0x2119, 0x211D); (0x2124, 0x2124);
   (0x2126, 0x2126); (0x2128, 0x2128); (0x212A, 0x212D); (0x212F, 0x2134);
   (0x2139, 0x2139); (0x213C, 0x213F); (0x2145, 0x2149); (0x214E, 0x214E);
   (0x2160, 0x217F); (0x2183, 0x2184); (0x24B6, 0x24E9); (0x2C00, 0x2CE4);
   (0x2CEB, 0x2CEE); (0x2CF2, 0x2CF3); (0x2D00, 0x2D25); (0x2D27, 0x2D27);
   (0x2D2D, 0x2D2D); (0xA640, 0xA66D); (0xA680, 0xA69D); (0xA722, 0xA787);
   (0xA78B, 0xA78E); (0xA790, 0xA7CA); (0xA7D0, 0xA7D1); (0xA7D3, 0xA7D3);
   (0xA7D5, 0xA7D9); (0xA7F5, 0xA7F6); (0xA7F8, 0xA7FA); (0xAB30, 0xAB5A);
   (0xAB5C, 0xAB68); (0xAB70, 0xABBF); (0xFB00, 0xFB06); (0xFB13, 0xFB17);
   (0xFF21, 0xFF3A); (0xFF41, 0xFF5A); (0x10400, 0x1044F);
   (0x104B0, 0x104D3); (0x104D8, 0x104FB); (0x10570, 0x1057A);
   (0x1057C, 0x1058A); (0x1058C, 0x10592); (0x10594, 0x10595);
   (0x10597, 0x105A1); (0x105A3, 0x105B1); (0x105B3, 0x105B9);
   (0x105BB, 0x105BC); (0x10780, 0x10780); (0x10783, 0x10785);
   (0x10787, 0x107B0); (0x107B2, 0x107BA); (0x10C80, 0x10CB2);
   (0x10CC0, 0x10CF2); (0x118A0, 0x118DF); (0x16E40, 0x16E7F);
   (0x1D400, 0x1D454); (0x1D456, 0x1D49C); (0x1D49E, 0x1D49F);
   (0x1D4A2, 0x1D4A2); (0x1D4A5, 0x1D4A6); (0x1D4A9, 0x1D4AC);
   (0x1D4AE, 0x1D4B9); (0x1D4BB, 0x1D4BB); (0x1D4BD, 0x1D4C3);
   (0x1D4C5, 0x1D505); (0x1D507, 0x1D50A); (0x1D50D, 0x1D514);
   (0x1D516, 0x1D51C); (0x1D51E, 0x1D539); (0x1D53B, 0x1D53E);
   (0x1D540, 0x1D544); (0x1D546, 0x1D546); (0x1D54A, 0x1D550);
   (0x1D552, 0x1D6A5); (0x1D6A8, 0x1D6C0); (0x1D6C2, 0x1D6DA);
   (0x1D6DC, 0x1D6FA); (0x1D6FC, 0x1D714); (0x1D716, 0x1D734);
   (0x1D736, 0x1D74E); (0x1D750, 0x1D76E); (0x1D770, 0x1D788);
   (0x1D78A, 0x1D7A8); (0x1D7AA, 0x1D7C2); (0x1D7C4, 0x1D7CB);
   (0x1DF00, 0x1DF09); (0x1DF0B, 0x1DF1E); (0x1E900, 0x1E943);
   (0x1F130, 0x1F149); (0x1F150, 0x1F169); (0x1F170, 0x1F189)].

Definition is_case_ignorable (c : char) : bool :=
  in_ranges case_ignorable_ranges c.

Definition is_cased (c : char) : bool := in_ranges cased_ranges c.

(** The first character of [t] that is not case-ignorable is cased. *)
Fixpoint cased_next (t : str) : bool :=
  match t with
  | [] => false
  | c :: t' => if is_case_ignorable c then cased_next t' else is_cased c
  end.

(** The capital sigma U+03A3 is in final position when a cased character
    comes before it and none after it, case-ignorable characters skipped;
    [before] is the text before the sigma, nearest character first. *)
Definition final_sigma (before after : str) : bool :=
  cased_next before && negb (cased_next after).

(** [str.lower()]: character by character, except that a capital sigma in
    final position becomes U+03C2 and any other U+03C3. *)
Fixpoint lower_from (before t : str) : str :=
  match t with
  | [] => []
  | c :: t' =>
      (if c =? 0x3A3
       then [if final_sigma before t' then 0x3C2 else 0x3C3]
       else lower_char c)
      ++ lower_from (c :: before) t'
  end.

Definition lower (t : str) : str := lower_from [] t.

(** [str.strip()] *)
Fixpoint lstrip (t : str) : str :=
  match t with
  | c :: t' => if isspace c then lstrip t' else t
  | [] => []
  end.

Fixpoint rstrip (t : str) : str :=
  match t with
  | [] => []
  | c :: t' =>
      match rstrip t' with
      | [] => if isspace c then [] else [c]
      | r => c :: r
      end
  end.

Definition strip (t : str) : str := rstrip (lstrip t).

(** Truth value of a string: [if t:] *)
Definition truthy (t : str) : bool :=
  match t with [] => false | _ :: _ => true end.

(** [t.startswith(p)] *)
Fixpoint starts_with (p t : str) : bool :=
  match p, t with
  | [], _ => true
  | a :: p', b :: t' => (a =? b) && starts_with p' t'
  | _ :: _, [] => false
  end.

(** [p in t] on strings *)
Fixpoint contains (p t : str) : bool :=
  starts_with p t ||
  match t with
  | [] => false
  | _ :: t' => contains p t'
  end.

Definition text_eqb (a b : str) : bool :=
  if list_eq_dec N.eq_dec a b then true else false.

(** [t.split(sep, maxsplit)] for a one-character separator *)
Fixpoint split_on (sep : char) (maxsplit : nat) (t : str) : list str :=
  match t with
  | [] => [[]]
  | c :: t' =>
      match maxsplit with
      | O => [t]
      | S m =>
          if c =? sep then [] :: split_on sep m t'
          else match split_on sep maxsplit t' with
               | w :: ws => (c :: w) :: ws
               | [] => [[c]]
               end
      end
  end.

(** [t.split()]: split on runs of whitespace, no empty token.  [cur] is the
    token being read, last character first. *)
Fixpoint tokens (cur : str) (t : str) : list str :=
  match t with
  | [] => match cur with [] => [] | _ :: _ => [rev cur] end
  | c :: t' =>
      if isspace c
      then match cur with
           | [] => tokens [] t'
           | _ :: _ => rev cur :: tokens [] t'
           end
      else tokens (c :: cur) t'
  end.

Definition split_ws (t : str) : list str := tokens [] t.

(** ** Regular expressions

    The fragment of [re] that the wakeword pattern uses, matched the way the
    backtracking engine does: greedy repetition, the optional group tried
    first, the continuation [k] deciding whether the rest of the pattern
    matches. *)

Inductive regex :=
| Eps
| Cls (p : char -> bool)          (* one character of a class *)
| Seq (r1 r2 : regex)
| Opt (r : regex)                 (* (r)? *)
| Star (p : char -> bool).        (* [class]*, greedy *)

Fixpoint star_match (p : char -> bool) (s : str)
         (k : str -> option str) : option str :=
  match s with
  | c :: s' =>
      if p c
      then match star_match p s' k with
           | Some r => Some r
           | None => k s
           end
      else k s
  | [] => k []
  end.

Fixpoint rmatch (r : regex) (s : str) (k : str -> option str)
  : option str :=
  match r with
  | Eps => k s
  | Cls p =>
      match s with
      | c :: s' => if p c then k s' else None
      | [] => None
      end
  | Seq r1 r2 => rmatch r1 s (fun s' => rmatch r2 s' k)
  | Opt r1 =>
      match rmatch r1 s k with
      | Some out => Some out
      | None => k s
      end
  | Star p => star_match p s k
  end.

(** [re.sub('^' + r, '', s)]: without [re.MULTILINE] the anchor holds at
    position 0 only, so at most the matched prefix is removed. *)
Definition sub_prefix (r : regex) (s : str) : str :=
  match rmatch r s (fun rest => Some rest) with
  | Some rest => rest
  | None => s
  end.

(** A literal letter under [re.I].  For the letters of the wakeword, the
    characters that match are the two ASCII cases, and in addition U+0130 and
    U+0131 for [i] and U+017F for [s]. *)
Definition lit_i (l : char) (c : char) : bool :=
  (c =? l) || (c =? l - 32)
  || ((l =? 105) && ((c =? 0x130) || (c =? 0x131)))
  || ((l =? 115) && (c =? 0x17F)).

Fixpoint word_i (w : str) : regex :=
  match w with
  | [] => Eps
  | l :: w' => Seq (Cls (lit_i l)) (word_i w')
  end.

Definition plus (p : char -> bool) : regex := Seq (Cls p) (Star p).

Definition is_comma (c : char) : bool := c =? 44.
Definition is_sep (c : char) : bool :=
  (c =? 44) || (c =? 58) || isspace c || (c =? 45).

(** ** Configuration *)

Definition WAKEWORD : str := txt "hey jarvis".
Definition WIKI_SENTENCES : N := 2.

(** ** Wakeword helpers *)

(** [re.sub(r"[^\w\s]", "", t).lower().strip()] *)
Definition normalize_text (t : str) : str :=
  strip (lower (filter (fun c => is_word c || isspace c) t)).

Definition has_wakeword (t : str) : bool :=
  if negb (truthy t) then false
  else
    let norm := normalize_text t in
    starts_with WAKEWORD norm || starts_with (txt "jarvis") norm.

(** The pattern [\s*(hey[,]*\s+)?jarvis[,:\s-]*] with [re.I], after its
    anchor. *)
Definition wake_re : regex :=
  Seq (Star isspace)
      (Seq (Opt (Seq (word_i (txt "hey")) (Seq (Star is_comma) (plus isspace))))
           (Seq (word_i (txt "jarvis")) (Star is_sep))).

Definition strip_wakeword (t : str) : str :=
  if negb (truthy t) then t
  else
    let norm := strip t in
    let stripped := strip (sub_prefix wake_re norm) in
    if truthy stripped then stripped else [].

(** ** Effects

    Collaborators (the wikipedia, googlesearch, requests and bs4 packages,
    the browser, the operating system, the microphone, the GUI) are an
    environment of oracles; what the program does to them is recorded as a
    sequence of events.  A computation may return or raise. *)

Inductive exn_class :=
| WaitTimeoutError | UnknownValueError | RequestError | IndexError
| OtherException.

(** An instance of (a subclass of) [Exception], with its [str(e)]. *)
Record exn := mk_exn { exn_cls : exn_class; exn_str : str }.

Inductive outcome (A : Type) :=
| Ret (a : A)
| Raise (e : exn).
Arguments Ret {A} a.
Arguments Raise {A} e.

Inductive event :=
| Log (msg : str)                       (* self.log_message(msg); the clock prefix is left out *)
| Speak (msg : str)                     (* speak(msg) *)
| BrowserOpen (url : str)               (* webbrowser.open(url) *)
| WikiSetLang (lang : str)              (* wikipedia.set_lang(lang) *)
| WikiSummary (q : str) (sentences : N) (* wikipedia.summary(q, sentences=..) *)
| GoogleSearch (q : str) (num : N)      (* google_search(q, num_results=..) *)
| HttpGet (url : str) (timeout : N)     (* requests.get(url, timeout=..) *)
| CallOpenFolder (path : str)           (* entry of open_folder *)
| CallOpenApplication (name : str)      (* entry of open_application *)
| CallSystemShutdown (confirm : bool)    (* entry of system_shutdown *)
| CallSystemRestart (confirm : bool)     (* entry of system_restart *)
| Popen (argv : list str) (shell : bool)
| StartFile (path : str)                (* os.startfile *)
| ScreenGrab                             (* ImageGrab.grab() *)
| AskSaveAs (ext : str)                 (* filedialog.asksaveasfilename *)
| ImageSave (path : str)
| ShowWarning (title msg : str)         (* messagebox.showwarning *)
| CameraRead
| ImWrite (path : str)
| CallListen (timeout phrase_time_limit : N) (* entry of listen *)
| Sleep (ms : N)                         (* time.sleep, in milliseconds *)
| ReadListening (b : bool)               (* a read of self.listening *)
| WakeLabel (t : str)                   (* self.wake_label.config(text=t) *)
| EntryDelete.                           (* self.entry.delete(0, "end") *)

(** What BeautifulSoup finds in a page: [soup.title.string] (absent when
    there is no title or it has no single string) and the text of the first
    [p] element. *)
Record page := mk_page { title_string : option str; first_p : option str }.

Record response := mk_response { status_code : N; soup : outcome page }.

(** One use of the microphone by [listen]: entering it and calibrating may
    raise; then listening and recognition give a text or raise. *)
Record capture := mk_capture { ambient : option exn; heard : outcome str }.

Record Env := mk_env {
  google_search_available : bool;          (* google_search is not None *)
  wikipedia_summary : str -> outcome str;
  google_search : str -> list str * option exn; (* URLs yielded, then a raise or the end *)
  requests_get : str -> outcome response;
  requote_uri : str -> str;
  platform_system : str;
  expanduser : str -> str;
  path_exists : str -> bool;
  os_popen : list str -> option exn;
  os_startfile : str -> option exn;
  image_grab : option exn;
  image_save : str -> option exn;
  ask_save_as : str -> str;              (* the chosen path, empty when cancelled *)
  camera_opened : bool;                    (* self.cap and self.cap.isOpened() *)
  camera_read_ok : bool;
  mic_present : bool;                      (* mic is not None *)
  mic_script : nat -> capture;             (* the n-th use of the microphone *)
  listening_flag : nat -> bool             (* self.listening at its n-th read *)
}.

(** The events so far (latest first) and how many times the microphone and
    the listening flag have been used. *)
Record World := mk_world {
  events : list event;
  listen_calls : nat;
  flag_reads : nat
}.

Definition w0 : World := mk_world [] 0 0.

(** The events of a world in the order they happened. *)
Definition trace (w : World) : list event := rev (events w).

Definition M (A : Type) : Type := World -> outcome A * World.

Definition ret {A} (a : A) : M A := fun w => (Ret a, w).

Definition raise {A} (e : exn) : M A := fun w => (Raise e, w).

Definition bind {A B} (m : M A) (k : A -> M B) : M B :=
  fun w =>
    match m w with
    | (Ret a, w') => k a w'
    | (Raise e, w') => (Raise e, w')
    end.

(** [try: m  except Exception as e: h e] *)
Definition try_catch {A} (m : M A) (h : exn -> M A) : M A :=
  fun w =>
    match m w with
    | (Ret a, w') => (Ret a, w')
    | (Raise e, w') => h e w'
    end.

Definition emit (e : event) : M unit :=
  fun w => (Ret tt, mk_world (e :: events w) (listen_calls w) (flag_reads w)).

Definition lift {A} (o : outcome A) : M A := fun w => (o, w).

Definition check (o : option exn) : M unit :=
  match o with
  | Some e => raise e
  | None => ret tt
  end.

Declare Scope monad_scope.
Delimit Scope monad_scope with monad.
Notation "x <- m ;; k" := (bind m (fun x => k))
  (at level 61, m at next level, right associativity) : monad_scope.
Notation "m ;; k" := (bind m (fun _ => k))
  (at level 61, right associativity) : monad_scope.
Local Open Scope monad_scope.

(** The events a computation adds to the empty world, in order. *)
Definition run {A} (m : M A) : list event := trace (snd (m w0)).

(** Its result from the empty world. *)
Definition result {A} (m : M A) : outcome A := fst (m w0).

Definition nl : str := [10].

Arguments txt : simpl never.
Arguments strip : simpl never.
Arguments lower : simpl never.

Section Program.

Variable E : Env.

Definition log_message (msg : str) : M unit := emit (Log msg).
Definition speak (msg : str) : M unit := emit (Speak msg).
Definition webbrowser_open (url : str) : M unit := emit (BrowserOpen url).
Definition popen (argv : list str) (shell : bool) : M unit :=
  emit (Popen argv shell) ;; check (os_popen E argv).
Definition startfile (path : str) : M unit :=
  emit (StartFile path) ;; check (os_startfile E path).

(** ** Listening *)

Definition caught_by_listen (e : exn) : bool :=
  match exn_cls e with
  | WaitTimeoutError | UnknownValueError | RequestError => true
  | _ => false
  end.

Definition next_capture : M capture :=
  fun w => (Ret (mic_script E (listen_calls w)),
            mk_world (events w) (S (listen_calls w)) (flag_reads w)).

Definition listen (timeout phrase_time_limit : N) : M (option str) :=
  emit (CallListen timeout phrase_time_limit) ;;
  if negb (mic_present E) then ret None
  else
    c <- next_capture ;;
    check (ambient c) ;;
    match heard c with
    | Ret t => ret (Some t)
    | Raise e => if caught_by_listen e then ret None else raise e
    end.

(** ** Search helpers *)

Definition search_wikipedia (query : str) : M (option str) :=
  try_catch
    (emit (WikiSetLang (txt "en")) ;;
     emit (WikiSummary query WIKI_SENTENCES) ;;
     summary <- lift (wikipedia_summary E query) ;;
     ret (Some summary))
    (fun _ => ret None).

Definition search_url (query : str) : str :=
  txt "https://www.google.com/search?q=" ++ requote_uri E query.

(** [google_search(q, num_results=5)] consumed to its end. *)
Definition google_urls (query : str) : M (list str) :=
  emit (GoogleSearch query 5) ;;
  match snd (google_search E query) with
  | Some e => raise e
  | None => ret (fst (google_search E query))
  end.

(** [soup.title.string.strip() if soup.title and soup.title.string else url] *)
Definition page_title (url : str) (pg : page) : str :=
  match title_string pg with
  | Some s => if truthy s then strip s else url
  | None => url
  end.

(** [p.get_text().strip() if p else ""] for [p = soup.find("p")] *)
Definition page_snippet (pg : page) : str :=
  match first_p pg with
  | Some p => strip p
  | None => []
  end.

(** One candidate of the loop of [google_first_snippet]: [Some] is a
    [return], [None] a [continue]. *)
Definition fetch_candidate (url : str) : M (option str) :=
  try_catch
    (emit (HttpGet url 6) ;;
     resp <- lift (requests_get E url) ;;
     if negb (status_code resp =? 200) then ret None
     else
       pg <- lift (soup resp) ;;
       let title := page_title url pg in
       let snippet := page_snippet pg in
       if truthy snippet
       then ret (Some (title ++ nl ++ nl ++ snippet ++ nl ++ nl ++ txt "Source: " ++ url))
       else ret (Some (title ++ nl ++ nl ++ txt "Source: " ++ url)))
    (fun _ => ret None).

Fixpoint fetch_loop (urls : list str) : M (option str) :=
  match urls with
  | [] => ret None
  | url :: rest =>
      r <- fetch_candidate url ;;
      match r with
      | Some ans => ret (Some ans)
      | None => fetch_loop rest
      end
  end.

(** The first part of [google_first_snippet]: [None] is its [return None]. *)
Definition discover (query : str) : M (option (list str)) :=
  try_catch
    (if google_search_available E
     then urls <- google_urls query ;; ret (Some urls)
     else webbrowser_open (search_url query) ;; ret None)
    (fun _ => webbrowser_open (search_url query) ;; ret None).

Definition google_first_snippet (query : str) : M (option str) :=
  d <- discover query ;;
  match d with
  | None => ret None
  | Some urls => fetch_loop urls
  end.

(** ** OS control helpers *)

Definition system_name : str := lower (platform_system E).

Definition is_system (name : string) : bool := text_eqb system_name (txt name).

(** The [for candidate in ...: try: Popen(candidate); return True
    except Exception: continue] of [open_application]; [false] when no
    candidate started. *)
Fixpoint try_candidates (cands : list (list str)) : M bool :=
  match cands with
  | [] => ret false
  | c :: rest =>
      ok <- try_catch (popen c false ;; ret true) (fun _ => ret false) ;;
      if ok then ret true else try_candidates rest
  end.

Definition open_application (app_name : str) : M bool :=
  emit (CallOpenApplication app_name) ;;
  let app_name_lower := lower app_name in
  if contains (txt "notepad") app_name_lower || contains (txt "text") app_name_lower
  then
    if is_system "windows" then popen [txt "notepad"] false ;; ret true
    else
      started <- try_candidates [[txt "gedit"]; [txt "xed"]; [txt "kate"]] ;;
      if started then ret true
      else popen [txt "xdg-open"; expanduser E (txt "~")] false ;; ret true
  else if contains (txt "chrome") app_name_lower
          || contains (txt "google chrome") app_name_lower
  then
    try_catch
      ((if is_system "windows" then popen [txt "start"; txt "chrome"] true
        else if is_system "darwin"
             then popen [txt "open"; txt "-a"; txt "Google Chrome"] false
             else popen [txt "google-chrome"] false) ;;
       ret true)
      (fun _ => webbrowser_open (txt "https://www.google.com") ;; ret true)
  else if contains (txt "browser") app_name_lower
          || contains (txt "firefox") app_name_lower
  then webbrowser_open (txt "https://www.google.com") ;; ret true
  else
    try_catch
      ((if is_system "windows" then startfile app_name
        else if is_system "darwin"
             then popen [txt "open"; txt "-a"; app_name] false
             else popen [app_name] false) ;;
       ret true)
      (fun _ => ret false).

Definition open_folder (path0 : str) : M (bool * str) :=
  emit (CallOpenFolder path0) ;;
  try_catch
    (let path := expanduser E path0 in
     if negb (path_exists E path) then ret (false, txt "Path does not exist")
     else
       (if is_system "windows" then startfile path
        else if is_system "darwin" then popen [txt "open"; path] false
             else popen [txt "xdg-open"; path] false) ;;
       ret (true, txt "Opened"))
    (fun e => ret (false, exn_str e)).

Definition system_shutdown (confirm : bool) : M (bool * str) :=
  emit (CallSystemShutdown confirm) ;;
  if negb confirm then ret (false, txt "Confirmation required")
  else
    try_catch
      ((if is_system "windows"
        then popen [txt "shutdown"; txt "/s"; txt "/t"; txt "10"] false
        else if is_system "darwin" || is_system "linux"
             then popen [txt "shutdown"; txt "-h"; txt "now"] false
             else ret tt) ;;
       ret (true, txt "Shutdown initiated"))
      (fun e => ret (false, exn_str e)).

Definition system_restart (confirm : bool) : M (bool * str) :=
  emit (CallSystemRestart confirm) ;;
  if negb confirm then ret (false, txt "Confirmation required")
  else
    try_catch
      ((if is_system "windows"
        then popen [txt "shutdown"; txt "/r"; txt "/t"; txt "10"] false
        else if is_system "darwin" || is_system "linux"
             then popen [txt "shutdown"; txt "-r"; txt "now"] false
             else ret tt) ;;
       ret (true, txt "Restart initiated"))
      (fun e => ret (false, exn_str e)).

(** ** JarvisApp *)

Definition capture_photo : M unit :=
  if negb (camera_opened E)
  then emit (ShowWarning (txt "Capture") (txt "Camera not running."))
  else
    emit CameraRead ;;
    if negb (camera_read_ok E)
    then emit (ShowWarning (txt "Capture") (txt "Unable to capture photo."))
    else
      emit (AskSaveAs (txt ".jpg")) ;;
      let path := ask_save_as E (txt ".jpg") in
      if negb (truthy path) then ret tt
      else
        emit (ImWrite path) ;;
        log_message (txt "Photo saved to " ++ path) ;;
        speak (txt "Photo saved.").

(** The bodies of the branches of [process_command], in its order. *)

(** [parts[2] if len(parts) >= 3 else os.path.expanduser("~")] for
    [parts = text.split(" ", 2)] *)
Definition folder_path (text : str) : str :=
  let parts := split_on 32 2 text in
  if (3 <=? List.length parts)%nat then nth 2 parts []
  else expanduser E (txt "~").

Definition do_open_folder (path : str) : M unit :=
  r <- open_folder path ;;
  let (ok, msg) := r in
  if ok
  then log_message (txt "Opened folder: " ++ path) ;; speak (txt "Opened folder.")
  else log_message (txt "Failed to open folder: " ++ msg) ;;
       speak (txt "I could not open that folder.").

(** [text.split(" ", 1)[1]] *)
Definition after_first_space (text : str) : M str :=
  match nth_error (split_on 32 1 text) 1 with
  | Some t => ret t
  | None => raise (mk_exn IndexError (txt "list index out of range"))
  end.

Definition do_open_target (target : str) : M unit :=
  if starts_with (txt "http") target
  then webbrowser_open target ;; speak (txt "Opening browser.")
  else
    ok <- open_application target ;;
    if ok
    then log_message (txt "Opened application: " ++ target) ;;
         speak (txt "Opening " ++ target)
    else log_message (txt "Failed to open application: " ++ target) ;;
         speak (txt "I could not open that application.").

Definition confirmed (text_lower : str) : bool :=
  contains (txt "confirm") text_lower || contains (txt "yes") text_lower.

Definition do_shutdown (confirmation : bool) : M unit :=
  if confirmation
  then
    r <- system_shutdown true ;;
    log_message (snd r) ;;
    speak (txt "Shutting down. Goodbye.")
  else
    log_message (txt "Shutdown requested - confirmation required. Say 'shutdown confirm' to proceed.") ;;
    speak (txt "Shutdown requested. Say shutdown confirm to proceed.").

Definition do_restart (confirmation : bool) : M unit :=
  if confirmation
  then
    r <- system_restart true ;;
    log_message (snd r) ;;
    speak (txt "Restarting now.")
  else
    log_message (txt "Restart requested - confirmation required. Say 'restart confirm' to proceed.") ;;
    speak (txt "Restart requested. Say restart confirm to proceed.").

Definition do_screenshot : M unit :=
  try_catch
    (emit ScreenGrab ;;
     check (image_grab E) ;;
     emit (AskSaveAs (txt ".png")) ;;
     let path := ask_save_as E (txt ".png") in
     if truthy path
     then
       emit (ImageSave path) ;;
       check (image_save E path) ;;
       log_message (txt "Screenshot saved to " ++ path) ;;
       speak (txt "Screenshot saved.")
     else log_message (txt "Screenshot cancelled."))
    (fun e =>
       log_message (txt "Screenshot failed: " ++ exn_str e) ;;
       speak (txt "I could not take a screenshot.")).

Definition opt_truthy (o : option str) : bool :=
  match o with
  | Some t => truthy t
  | None => false
  end.

Definition opt_text (o : option str) : str :=
  match o with
  | Some t => t
  | None => []
  end.

Definition do_wikipedia (q : str) : M unit :=
  log_message (txt "Searching Wikipedia for: " ++ q) ;;
  speak (txt "Searching Wikipedia for " ++ q) ;;
  ans <- search_wikipedia q ;;
  if opt_truthy ans
  then log_message (txt "Wikipedia: " ++ opt_text ans) ;; speak (opt_text ans)
  else
    log_message (txt "No Wikipedia result.") ;;
    speak (txt "I could not find a wikipedia entry. I'll search the web.") ;;
    web_ans <- google_first_snippet q ;;
    if opt_truthy web_ans
    then log_message (opt_text web_ans) ;; speak (opt_text web_ans)
    else speak (txt "I couldn't find an answer.").

Definition question_words : list str :=
  [txt "who"; txt "what"; txt "when"; txt "where"; txt "why"; txt "how";
   txt "which"].

(** [any(w in text_lower.split() for w in (...))] *)
Definition is_question (text_lower : str) : bool :=
  existsb (fun w => existsb (text_eqb w) (split_ws text_lower)) question_words.

Definition do_question (text : str) : M unit :=
  log_message (txt "Question detected: " ++ text) ;;
  speak (txt "Let me look that up.") ;;
  ans <- search_wikipedia text ;;
  if opt_truthy ans
  then log_message (txt "Wikipedia: " ++ opt_text ans) ;; speak (opt_text ans)
  else
    web_ans <- google_first_snippet text ;;
    if opt_truthy web_ans
    then log_message (opt_text web_ans) ;; speak (opt_text web_ans)
    else
      webbrowser_open (search_url text) ;;
      speak (txt "I opened the browser with search results.").

(** The [if google_search: try: ... except Exception: pass] of the last
    branch: [true] when it returned from the function. *)
Definition open_first_result (text : str) : M bool :=
  if google_search_available E
  then
    try_catch
      (urls <- google_urls text ;;
       match urls with
       | u :: _ =>
           webbrowser_open u ;;
           log_message (txt "Opened " ++ u) ;;
           speak (txt "I opened the first result in your browser.") ;;
           ret true
       | [] => ret false
       end)
      (fun _ => ret false)
  else ret false.

Definition do_web_search (text : str) : M unit :=
  log_message (txt "No direct action matched. Searching web for: " ++ text) ;;
  speak (txt "Searching the web for " ++ text) ;;
  done <- open_first_result text ;;
  if done then ret tt
  else
    webbrowser_open (search_url text) ;;
    speak (txt "I opened the browser with search results.").

Definition process_command (text0 : str) : M unit :=
  let text := strip text0 in
  if negb (truthy text) then ret tt
  else
    let text_lower := strip (lower text) in
    if starts_with (txt "open folder") text_lower
       || starts_with (txt "open directory") text_lower
    then do_open_folder (folder_path text)
    else if starts_with (txt "open ") text_lower
            || starts_with (txt "launch ") text_lower
    then target <- after_first_space text ;; do_open_target target
    else if contains (txt "shutdown") text_lower
    then do_shutdown (confirmed text_lower)
    else if contains (txt "restart") text_lower
            || contains (txt "reboot") text_lower
    then do_restart (confirmed text_lower)
    else if contains (txt "screenshot") text_lower
            || contains (txt "screen shot") text_lower
    then do_screenshot
    else if contains (txt "capture") text_lower
            && (contains (txt "photo") text_lower
                || contains (txt "picture") text_lower)
    then capture_photo
    else if starts_with (txt "wikipedia ") text_lower
            || starts_with (txt "wiki ") text_lower
    then q <- after_first_space text ;; do_wikipedia q
    else if is_question text_lower
    then do_question text
    else do_web_search text.

(** [on_command], given what [self.entry.get()] returns. *)
Definition on_command (entry : str) : M unit :=
  let t := strip entry in
  if negb (truthy t) then ret tt
  else
    emit EntryDelete ;;
    let t' := if has_wakeword t
              then (if truthy (strip_wakeword t) then strip_wakeword t else t)
              else t in
    log_message (txt "Command: " ++ t') ;;
    process_command t'.

Definition awaiting_label : str :=
  txt "Listening (awaiting: " ++ [34] ++ WAKEWORD ++ [34] ++ txt ")".

(** One iteration of the [while] of [_listening_loop], after its test. *)
Definition loop_body : M unit :=
  t <- listen 6 6 ;;
  if opt_truthy t
  then
    let t := opt_text t in
    log_message (txt "Voice raw: " ++ t) ;;
    if has_wakeword t
    then
      let command_text := strip_wakeword t in
      if negb (truthy command_text)
      then
        log_message (txt "Wakeword detected but no command followed.") ;;
        speak (txt "Yes?") ;;
        emit (Sleep 600) ;;
        follow <- listen 3 4 ;;
        if opt_truthy follow
        then
          log_message (txt "Follow-up voice: " ++ opt_text follow) ;;
          process_command (opt_text follow)
        else ret tt
      else
        log_message (txt "Wakeword detected. Command: " ++ command_text) ;;
        emit (WakeLabel (txt "Processing command...")) ;;
        speak (txt "Processing your command.") ;;
        process_command command_text ;;
        emit (WakeLabel awaiting_label)
    else log_message (txt "No wakeword detected in speech; ignoring.")
  else emit (Sleep 500).

Definition read_listening : M bool :=
  fun w =>
    let b := listening_flag E (flag_reads w) in
    (Ret b,
     mk_world (ReadListening b :: events w) (listen_calls w) (S (flag_reads w))).

Inductive loop_status :=
| Stopped        (* the test of the while found the flag cleared *)
| StillRunning.  (* the loop is at the top of a further iteration *)

(** [_listening_loop], followed for at most [fuel] iterations. *)
Fixpoint _listening_loop (fuel : nat) : M loop_status :=
  match fuel with
  | O => ret StillRunning
  | S fuel' =>
      b <- read_listening ;;
      if b then loop_body ;; _listening_loop fuel'
      else ret Stopped
  end.

(** ** The classification table of the specification

    The specification describes the dispatcher as an ordered table of
    (predicate, intent) pairs over the lowercased command text, the first
    matching entry winning and a last entry matching everything.  [classify]
    is that description; [process_command] above is the code. *)

Inductive Intent :=
| OpenFolder (path : str)
| OpenAppOrUrl (target : str)
| Shutdown (confirmation : bool)
| Restart (confirmation : bool)
| Screenshot
| CapturePhoto
| KnowledgeQuery (explicit : bool) (query : str)
| GenericSearch (query : str).

(** The remainder after the first space. *)
Definition remainder (text : str) : str := nth 1 (split_on 32 1 text) [].

(** An entry: its predicate on the lowercased text, and the intent it builds
    from the text and the lowercased text. *)
Definition rule : Type := (str -> bool) * (str -> str -> Intent).

Definition rules : list rule :=
  [ (fun l => starts_with (txt "open folder") l
              || starts_with (txt "open directory") l,
     fun t _ => OpenFolder (folder_path t));
    (fun l => starts_with (txt "open ") l || starts_with (txt "launch ") l,
     fun t _ => OpenAppOrUrl (remainder t));
    (fun l => contains (txt "shutdown") l,
     fun _ l => Shutdown (confirmed l));
    (fun l => contains (txt "restart") l || contains (txt "reboot") l,
     fun _ l => Restart (confirmed l));
    (fun l => contains (txt "screenshot") l || contains (txt "screen shot") l,
     fun _ _ => Screenshot);
    (fun l => contains (txt "capture") l
              && (contains (txt "photo") l || contains (txt "picture") l),
     fun _ _ => CapturePhoto);
    (fun l => starts_with (txt "wikipedia ") l || starts_with (txt "wiki ") l,
     fun t _ => KnowledgeQuery true (remainder t));
    (fun l => is_question l,
     fun t _ => KnowledgeQuery false t) ].

Fixpoint first_match (rs : list rule) (t l : str) : Intent :=
  match rs with
  | [] => GenericSearch t
  | (applies, build) :: rs' =>
      if applies l then build t l else first_match rs' t l
  end.

Definition command_lower (text : str) : str := strip (lower (strip text)).

Definition classify (text : str) : Intent :=
  first_match rules (strip text) (command_lower text).

(** The handler of each intent. *)
Definition handle (i : Intent) : M unit :=
  match i with
  | OpenFolder path => do_open_folder path
  | OpenAppOrUrl target => do_open_target target
  | Shutdown c => do_shutdown c
  | Restart c => do_restart c
  | Screenshot => do_screenshot
  | CapturePhoto => capture_photo
  | KnowledgeQuery true q => do_wikipedia q
  | KnowledgeQuery false q => do_question q
  | GenericSearch q => do_web_search q
  end.

End Program.

(** ** JarvisApp: the buttons

    The flags and widgets that the callbacks of the buttons change, and what
    the callbacks do besides.  Tk runs the callbacks one after the other;
    the threads they start are recorded, not followed. *)

Definition CAMERA_INDEX : N := 0.

Record Controls := mk_controls {
  camera_running : bool;      (* self.camera_running *)
  start_cam_enabled : bool;   (* start_cam_btn is in state "normal" *)
  stop_cam_enabled : bool;    (* stop_cam_btn is in state "normal" *)
  listening : bool;           (* self.listening *)
  listen_btn_text : str;
  wake_label_text : str
}.

Inductive thread_target := CameraLoop | ListeningLoop.

Inductive ui_event :=
| UiOpenCamera (index : N)            (* cv2.VideoCapture(index) *)
| UiLog (msg : str)
| UiShowError (title msg : str)       (* messagebox.showerror *)
| UiStartThread (target : thread_target)
| UiSpeak (msg : str).

(** The controls as [__init__] leaves them. *)
Definition initial_controls : Controls :=
  mk_controls false true false false (txt "Start Listening")
              (txt "Not listening").

(** [start_camera], given whether the capture device opens. *)
Definition start_camera (opened : bool) (c : Controls)
  : Controls * list ui_event :=
  if camera_running c then (c, [])
  else if negb opened
  then (c, [UiOpenCamera CAMERA_INDEX; UiLog (txt "Unable to open camera.");
            UiShowError (txt "Camera Error") (txt "Unable to open camera.")])
  else (mk_controls true false true (listening c) (listen_btn_text c)
                    (wake_label_text c),
        [UiOpenCamera CAMERA_INDEX; UiStartThread CameraLoop;
         UiLog (txt "Camera started.")]).

Definition stop_camera (c : Controls) : Controls * list ui_event :=
  if negb (camera_running c) then (c, [])
  else (mk_controls false true false (listening c) (listen_btn_text c)
                    (wake_label_text c), []).

Definition toggle_listening (c : Controls) : Controls * list ui_event :=
  if negb (listening c)
  then (mk_controls (camera_running c) (start_cam_enabled c)
                    (stop_cam_enabled c) true (txt "Stop Listening")
                    awaiting_label,
        [UiStartThread ListeningLoop; UiLog (txt "Listening started.");
         UiSpeak (txt "Listening. Say " ++ WAKEWORD
                  ++ txt " followed by your command.")])
  else (mk_controls (camera_running c) (start_cam_enabled c)
                    (stop_cam_enabled c) false (txt "Start Listening")
                    (txt "Not listening"),
        [UiLog (txt "Listening stopped."); UiSpeak (txt "Stopped listening.")]).

(** A press of one of the three buttons. *)
Inductive press :=
| PressStartCamera (opened : bool)
| PressStopCamera
| PressListen.

Definition on_press (p : press) (c : Controls) : Controls * list ui_event :=
  match p with
  | PressStartCamera opened => start_camera opened c
  | PressStopCamera => stop_camera c
  | PressListen => toggle_listening c
  end.

(** The presses of a session, in order. *)
Fixpoint on_presses (ps : list press) (c : Controls)
  : Controls * list ui_event :=
  match ps with
  | [] => (c, [])
  | p :: ps' =>
      let (c1, l1) := on_press p c in
      let (c2, l2) := on_presses ps' c1 in
      (c2, l1 ++ l2)
  end.

(** ** Sample environments *)

Definition no_such_page : exn := mk_exn OtherException (txt "PageError").
Definition no_connection : exn := mk_exn OtherException (txt "ConnectionError").

(** A Linux desktop without camera or microphone, on which the listening
    flag is cleared before its fourth read; the lookup collaborators are
    given. *)
Definition desktop (available : bool) (wiki : str -> outcome str)
           (search : str -> list str * option exn)
           (get : str -> outcome response) : Env :=
  {| google_search_available := available;
     wikipedia_summary := wiki;
     google_search := search;
     requests_get := get;
     requote_uri := fun q => q;
     platform_system := txt "Linux";
     expanduser := fun p => if text_eqb p (txt "~") then txt "/home/user" else p;
     path_exists := fun _ => true;
     os_popen := fun _ => None;
     os_startfile := fun _ => None;
     image_grab := None;
     image_save := fun _ => None;
     ask_save_as := fun _ => [];
     camera_opened := false;
     camera_read_ok := false;
     mic_present := false;
     mic_script := fun _ => mk_capture None (Raise (mk_exn WaitTimeoutError []));
     listening_flag := fun n => (n <? 3)%nat |}.

(** Every lookup fails: wikipedia raises, the search yields no URL. *)
Definition env_offline : Env :=
  desktop true (fun _ => Raise no_such_page) (fun _ => ([], None))
          (fun _ => Raise no_connection).

(** The googlesearch package is not installed. *)
Definition env_no_search : Env :=
  desktop false (fun _ => Raise no_such_page) (fun _ => ([], None))
          (fun _ => Raise no_connection).

(** The search yields two pages, the first with a title and no paragraph,
    the second with a paragraph. *)
Definition page_one : page := mk_page (Some (txt " Turing ")) None.
Definition page_two : page :=
  mk_page (Some (txt "Alan Turing"))
          (Some (txt "Alan Turing was a mathematician.")).

Definition env_two_pages : Env :=
  desktop true (fun _ => Raise no_such_page)
          (fun _ => ([txt "http://one"; txt "http://two"], None))
          (fun u => if text_eqb u (txt "http://one")
                    then Ret (mk_response 200 (Ret page_one))
                    else Ret (mk_response 200 (Ret page_two))).

(** Wikipedia answers. *)
Definition env_wiki : Env :=
  desktop true (fun _ => Ret (txt "Alan Turing was a mathematician."))
          (fun _ => ([], None)) (fun _ => Raise no_connection).

(** A Linux desktop on which no program can be started. *)
Definition no_such_file : exn := mk_exn OtherException (txt "FileNotFoundError").

Definition env_no_programs : Env :=
  {| google_search_available := true;
     wikipedia_summary := fun _ => Raise no_such_page;
     google_search := fun _ => ([], None);
     requests_get := fun _ => Raise no_connection;
     requote_uri := fun q => q;
     platform_system := txt "Linux";
     expanduser := fun p => if text_eqb p (txt "~") then txt "/home/user" else p;
     path_exists := fun _ => true;
     os_popen := fun _ => Some no_such_file;
     os_startfile := fun _ => Some no_such_file;
     image_grab := Some no_such_file;
     image_save := fun _ => None;
     ask_save_as := fun _ => [];
     camera_opened := false;
     camera_read_ok := false;
     mic_present := true;
     mic_script := fun _ => mk_capture (Some no_such_file) (Ret []);
     listening_flag := fun _ => true |}.

(** A Linux desktop without gedit. *)
Definition env_no_gedit : Env :=
  {| google_search_available := true;
     wikipedia_summary := fun _ => Raise no_such_page;
     google_search := fun _ => ([], None);
     requests_get := fun _ => Raise no_connection;
     requote_uri := fun q => q;
     platform_system := txt "Linux";
     expanduser := fun p => if text_eqb p (txt "~") then txt "/home/user" else p;
     path_exists := fun _ => true;
     os_popen := fun argv => if text_eqb (hd [] argv) (txt "gedit")
                             then Some no_such_file else None;
     os_startfile := fun _ => None;
     image_grab := None;
     image_save := fun _ => None;
     ask_save_as := fun _ => [];
     camera_opened := false;
     camera_read_ok := false;
     mic_present := false;
     mic_script := fun _ => mk_capture None (Raise (mk_exn WaitTimeoutError []));
     listening_flag := fun _ => true |}.

(** A desktop of another system, with a camera and a chosen file name. *)
Definition env_freebsd : Env :=
  {| google_search_available := true;
     wikipedia_summary := fun _ => Raise no_such_page;
     google_search := fun _ => ([], None);
     requests_get := fun _ => Raise no_connection;
     requote_uri := fun q => q;
     platform_system := txt "FreeBSD";
     expanduser := fun p => p;
     path_exists := fun _ => true;
     os_popen := fun _ => None;
     os_startfile := fun _ => None;
     image_grab := None;
     image_save := fun _ => None;
     ask_save_as := fun ext => txt "/tmp/shot" ++ ext;
     camera_opened := true;
     camera_read_ok := true;
     mic_present := true;
     mic_script := fun _ => mk_capture None (Ret (txt "good morning"));
     listening_flag := fun _ => true |}.

(** A desktop with a microphone that hears a command, then the wakeword
    alone, then a question, then the wakeword alone, then nothing. *)
Definition env_spoken : Env :=
  {| google_search_available := true;
     wikipedia_summary := fun _ => Ret (txt "Alan Turing was a mathematician.");
     google_search := fun _ => ([], None);
     requests_get := fun _ => Raise no_connection;
     requote_uri := fun q => q;
     platform_system := txt "Linux";
     expanduser := fun p => p;
     path_exists := fun _ => true;
     os_popen := fun _ => None;
     os_startfile := fun _ => None;
     image_grab := None;
     image_save := fun _ => None;
     ask_save_as := fun _ => [];
     camera_opened := false;
     camera_read_ok := false;
     mic_present := true;
     mic_script := fun n =>
       match n with
       | 0%nat => mk_capture None (Ret (txt "Hey Jarvis, wiki turing"))
       | 1%nat => mk_capture None (Ret (txt "hey jarvis"))
       | 2%nat => mk_capture None (Ret (txt "jarvis who was turing"))
       | 3%nat => mk_capture None (Ret (txt "Jarvis"))
       | _ => mk_capture None (Raise (mk_exn WaitTimeoutError []))
       end;
     listening_flag := fun _ => true |}.

(** * The vocabulary of the properties *)

(** The characters that [normalize_text] keeps. *)
Definition kept (c : char) : bool := is_word c || isspace c.

(** A kept character that is its own lowercase in every context. *)
Definition settled (c : char) : bool :=
  kept c && negb (c =? 0x3A3) && text_eqb (lower_char c) [c].

(** The lowercase forms of the capital sigma. *)
Definition is_small_sigma (c : char) : bool := (c =? 0x3C3) || (c =? 0x3C2).

(** The code points from [lo] to [hi]. *)
Definition N_range (lo hi : N) : list N :=
  map (fun k => lo + N.of_nat k) (seq 0 (N.to_nat (hi + 1 - lo))).

(** The code points that a run of the lowercase table maps, and all those
    that the table maps. *)
Definition run_members (r : N * N * N * N) : list N :=
  let '(lo, hi, _, _) := r in filter (fun c => in_run c r) (N_range lo hi).

Definition lower_domain : list N := flat_map run_members lower_runs.

(** The whitespace characters. *)
Definition spaces : list N :=
  [9; 10; 11; 12; 13; 28; 29; 30; 31; 32; 0x85; 0xA0; 0x1680;
   0x2000; 0x2001; 0x2002; 0x2003; 0x2004; 0x2005; 0x2006; 0x2007; 0x2008;
   0x2009; 0x200A; 0x2028; 0x2029; 0x202F; 0x205F; 0x3000].

(** The world [w] after the events [l], latest first. *)
Definition push (l : list event) (w : World) : World :=
  mk_world (l ++ events w) (listen_calls w) (flag_reads w).

(** [uniform m]: from every world [m] returns what it returns from the empty
    world and adds the same events; it uses neither the microphone nor the
    listening flag. *)
Definition uniform {A} (m : M A) : Prop :=
  forall w, m w = (fst (m w0), push (events (snd (m w0))) w).

(** [only Q m]: [m] is uniform and every event it adds satisfies [Q]. *)
Definition only {A} (Q : event -> Prop) (m : M A) : Prop :=
  uniform m /\ Forall Q (run m).

(** [nofail m]: [m] returns, from every world. *)
Definition nofail {A} (m : M A) : Prop :=
  forall w, exists a w', m w = (Ret a, w').

(** The collaborator an event goes to. *)
Inductive kind :=
| KLog | KSpeak | KBrowser | KWiki | KSearch | KHttp
| KFolderCall | KAppCall | KShutdownCall | KRestartCall | KProcess
| KScreen | KDialog | KCamera | KMic | KSleep | KFlag | KLabel | KEntry.

Definition kind_of (e : event) : kind :=
  match e with
  | Log _ => KLog
  | Speak _ => KSpeak
  | BrowserOpen _ => KBrowser
  | WikiSetLang _ | WikiSummary _ _ => KWiki
  | GoogleSearch _ _ => KSearch
  | HttpGet _ _ => KHttp
  | CallOpenFolder _ => KFolderCall
  | CallOpenApplication _ => KAppCall
  | CallSystemShutdown _ => KShutdownCall
  | CallSystemRestart _ => KRestartCall
  | Popen _ _ | StartFile _ => KProcess
  | ScreenGrab | ImageSave _ => KScreen
  | AskSaveAs _ | ShowWarning _ _ => KDialog
  | CameraRead | ImWrite _ => KCamera
  | CallListen _ _ => KMic
  | Sleep _ => KSleep
  | ReadListening _ => KFlag
  | WakeLabel _ => KLabel
  | EntryDelete => KEntry
  end.

(** [emits ks m]: the effect signature of [m]; it is uniform and performs
    events of the kinds [ks] only. *)
Definition emits {A} (ks : list kind) (m : M A) : Prop :=
  only (fun e => In (kind_of e) ks) m.

(** Every kind but the calls of [system_shutdown] and [system_restart]. *)
Definition harmless : list kind :=
  [KLog; KSpeak; KBrowser; KWiki; KSearch; KHttp; KFolderCall; KAppCall;
   KProcess; KScreen; KDialog; KCamera].

(** What a request is allowed to reach: [system_shutdown] and
    [system_restart] are entered with [confirm=True] only, and only for a
    text that names the action and carries the confirmation. *)
Definition gate_ok (l : str) (e : event) : Prop :=
  match e with
  | CallSystemShutdown c =>
      c = true /\ contains (txt "shutdown") l = true /\ confirmed l = true
  | CallSystemRestart c =>
      c = true
      /\ (contains (txt "restart") l || contains (txt "reboot") l) = true
      /\ confirmed l = true
  | _ => True
  end.

(** The command line of a power function on the platform of [E]: [win] on
    Windows, [unix] on macOS and Linux, none elsewhere. *)
Definition power_argv (E : Env) (win unix : list str) : option (list str) :=
  if is_system E "windows" then Some win
  else if is_system E "darwin" || is_system E "linux" then Some unix
  else None.

Definition shutdown_argv (E : Env) : option (list str) :=
  power_argv E [txt "shutdown"; txt "/s"; txt "/t"; txt "10"]
             [txt "shutdown"; txt "-h"; txt "now"].

Definition restart_argv (E : Env) : option (list str) :=
  power_argv E [txt "shutdown"; txt "/r"; txt "/t"; txt "10"]
             [txt "shutdown"; txt "-r"; txt "now"].

(** The process that a power function starts. *)
Definition power_started (argv : option (list str)) : list event :=
  match argv with
  | Some a => [Popen a false]
  | None => []
  end.

(** What a confirmed power function returns: [(True, done)], or
    [(False, str(e))] when starting its command raises [e]. *)
Definition power_report (E : Env) (argv : option (list str)) (done : str)
  : bool * str :=
  match argv with
  | Some a =>
      match os_popen E a with
      | Some e => (false, exn_str e)
      | None => (true, done)
      end
  | None => (true, done)
  end.

(** A candidate the loop of [google_first_snippet] passes over: its fetch
    raises, its status is not 200, or its parse raises. *)
Definition skipped (E : Env) (url : str) : bool :=
  match requests_get E url with
  | Raise _ => true
  | Ret resp =>
      negb (status_code resp =? 200)
      || match soup resp with
         | Raise _ => true
         | Ret _ => false
         end
  end.

(** What a fetched page is returned as. *)
Definition answer (url : str) (pg : page) : str :=
  if truthy (page_snippet pg)
  then page_title url pg ++ nl ++ nl ++ page_snippet pg ++ nl ++ nl
       ++ txt "Source: " ++ url
  else page_title url pg ++ nl ++ nl ++ txt "Source: " ++ url.

(** What the dispatcher logs and says around the two stages, for a query
    that starts with "wikipedia " or "wiki " ([explicit]) and for a
    question. *)
Definition announce (explicit : bool) (q : str) : list event :=
  if explicit
  then [Log (txt "Searching Wikipedia for: " ++ q);
        Speak (txt "Searching Wikipedia for " ++ q)]
  else [Log (txt "Question detected: " ++ q);
        Speak (txt "Let me look that up.")].

(** Between a structured lookup that found nothing and the web lookup. *)
Definition bridge (explicit : bool) : list event :=
  if explicit
  then [Log (txt "No Wikipedia result.");
        Speak (txt "I could not find a wikipedia entry. I'll search the web.")]
  else [].

(** After two lookups that found nothing. *)
Definition not_found (E : Env) (explicit : bool) (q : str) : list event :=
  if explicit
  then [Speak (txt "I couldn't find an answer.")]
  else [BrowserOpen (search_url E q);
        Speak (txt "I opened the browser with search results.")].

(** The events of [search_wikipedia]. *)
Definition wiki_call (q : str) : list event :=
  [WikiSetLang (txt "en"); WikiSummary q WIKI_SENTENCES].

(** The kinds of event of a dispatch. *)
Definition dispatch_kinds : list kind := KShutdownCall :: KRestartCall :: harmless.

(** [steps ks m]: [m] only adds events, of the kinds [ks], and does not read
    the listening flag; it may use the microphone. *)
Definition steps {A} (ks : list kind) (m : M A) : Prop :=
  forall w, exists l,
    events (snd (m w)) = l ++ events w
    /\ flag_reads (snd (m w)) = flag_reads w
    /\ Forall (fun e => In (kind_of e) ks) l.

(** A use of the microphone that makes [listen] return [None]. *)
Definition captures_none (c : capture) : bool :=
  match ambient c with
  | Some _ => false
  | None =>
      match heard c with
      | Raise e => caught_by_listen e
      | Ret _ => false
      end
  end.

(** An iteration of the listening loop that hears nothing. *)
Definition cycle : list event :=
  [ReadListening true; CallListen 6 6; Sleep 500].

(** Every kind but the read of the listening flag. *)
Definition body_kinds : list kind :=
  KMic :: KSleep :: KLabel :: dispatch_kinds.

(** The world after [n] iterations that heard nothing. *)
Fixpoint after_silence (E : Env) (n : nat) (w : World) : World :=
  match n with
  | O => w
  | S n' =>
      after_silence E n'
        (mk_world (rev cycle ++ events w)
                  (if mic_present E then S (listen_calls w) else listen_calls w)
                  (S (flag_reads w)))
  end.

(** The characters a pattern can consume. *)
Fixpoint re_chars (r : regex) (c : char) : bool :=
  match r with
  | Eps => false
  | Cls p => p c
  | Seq r1 r2 => re_chars r1 c || re_chars r2 c
  | Opt r1 => re_chars r1 c
  | Star p => p c
  end.

(** The letters of the wakeword with the characters that [re.I] lets match
    them, and the separators of the pattern. *)
Definition wake_letters : str :=
  txt "heyjarvisHEYJARVIS,:-" ++ [0x130; 0x131; 0x17F].

(** The characters of a text that the wakeword pattern matches whole. *)
Definition wake_char (c : char) : bool :=
  isspace c || existsb (N.eqb c) wake_letters.

(** Their lowercase forms. *)
Definition wake_lower (c : char) : bool :=
  isspace c || existsb (N.eqb c) (txt "heyjarvis,:-" ++ [0x307; 0x131; 0x17F]).

(** The entry of one of the two power functions. *)
Definition is_power_call (e : event) : bool :=
  match e with
  | CallSystemShutdown _ | CallSystemRestart _ => true
  | _ => false
  end.

Definition is_browser_open (e : event) : bool :=
  match e with
  | BrowserOpen _ => true
  | _ => false
  end.

(** The names that [open_application] takes for a text editor. *)
Definition names_editor (app_name : str) : bool :=
  contains (txt "notepad") (lower app_name)
  || contains (txt "text") (lower app_name).

(** The first URL that the search of the last branch yields, when the
    package is there and the search runs to its end. *)
Definition first_result (E : Env) (q : str) : option str :=
  if google_search_available E
  then match google_search E q with
       | (u :: _, None) => Some u
       | _ => None
       end
  else None.

(** The page that the last branch of [process_command] opens. *)
Definition page_opened (E : Env) (q : str) : str :=
  match first_result E q with
  | Some u => u
  | None => search_url E q
  end.

(** The command that [on_command] dispatches for a trimmed entry. *)
Definition typed_command (t : str) : str :=
  if has_wakeword t
  then (if truthy (strip_wakeword t) then strip_wakeword t else t)
  else t.

(** The programs that [open_application] tries for a text editor on a
    system other than Windows, the last one on the home directory. *)
Definition editor_candidates (E : Env) : list (list str) :=
  [[txt "gedit"]; [txt "xed"]; [txt "kate"];
   [txt "xdg-open"; expanduser E (txt "~")]].

(** The candidates up to and with the first that starts. *)
Fixpoint tried (E : Env) (cands : list (list str)) : list (list str) :=
  match cands with
  | [] => []
  | c :: rest =>
      c :: match os_popen E c with
           | Some _ => tried E rest
           | None => []
           end
  end.

Definition starts (E : Env) (argv : list str) : bool :=
  match os_popen E argv with
  | Some _ => false
  | None => true
  end.

(** The command line with which [open_application] starts Chrome, and its
    [shell] argument. *)
Definition chrome_command (E : Env) : list str * bool :=
  if is_system E "windows" then ([txt "start"; txt "chrome"], true)
  else if is_system E "darwin"
       then ([txt "open"; txt "-a"; txt "Google Chrome"], false)
       else ([txt "google-chrome"], false).

(** Starting a program by its name: the call made, and what it raises. *)
Definition direct_launch (E : Env) (name : str) : event :=
  if is_system E "windows" then StartFile name
  else if is_system E "darwin" then Popen [txt "open"; txt "-a"; name] false
       else Popen [name] false.

Definition direct_raises (E : Env) (name : str) : option exn :=
  if is_system E "windows" then os_startfile E name
  else if is_system E "darwin" then os_popen E [txt "open"; txt "-a"; name]
       else os_popen E [name].

(** The buttons say what the flags are. *)
Definition consistent (c : Controls) : Prop :=
  start_cam_enabled c = negb (camera_running c)
  /\ stop_cam_enabled c = camera_running c
  /\ listen_btn_text c
     = (if listening c then txt "Stop Listening" else txt "Start Listening").

(** * Properties *)

(** ** Text *)

Lemma lstrip_idem (t : str) : lstrip (lstrip t) = lstrip t.
Proof.
  induction t as [|c t IH]; simpl; auto.
  destruct (isspace c) eqn:Hc; auto.
  simpl. now rewrite Hc.
Qed.

Lemma rstrip_idem (t : str) : rstrip (rstrip t) = rstrip t.
Proof.
  induction t as [|c t IH]; simpl; auto.
  destruct (rstrip t) as [|d r] eqn:Hr.
  - destruct (isspace c) eqn:Hc; simpl; auto. now rewrite Hc.
  - change (rstrip (c :: d :: r)) with
      (match rstrip (d :: r) with
       | [] => if isspace c then [] else [c]
       | x => c :: x
       end).
    now rewrite IH.
Qed.

(** Removing trailing whitespace keeps a first character that is not
    whitespace. *)
Lemma lstrip_rstrip (t : str) : lstrip t = t -> lstrip (rstrip t) = rstrip t.
Proof.
  destruct t as [|c t]; simpl; auto.
  destruct (isspace c) eqn:Hc.
  - intros H. exfalso.
    assert (Hlen : (List.length (lstrip t) <= List.length t)%nat).
    { clear. induction t as [|d t IH]; simpl; auto.
      destruct (isspace d); simpl; lia. }
    rewrite H in Hlen. simpl in Hlen. lia.
  - intros _. destruct (rstrip t); simpl; now rewrite Hc.
Qed.

Lemma strip_idem (t : str) : strip (strip t) = strip t.
Proof.
  unfold strip.
  rewrite (lstrip_rstrip (lstrip t)) by apply lstrip_idem.
  apply rstrip_idem.
Qed.

Lemma lstrip_In (c : char) (t : str) : In c (lstrip t) -> In c t.
Proof.
  induction t as [|d t IH]; simpl; auto.
  destruct (isspace d); simpl; auto.
Qed.

Lemma rstrip_In (c : char) (t : str) : In c (rstrip t) -> In c t.
Proof.
  induction t as [|d t IH]; simpl; auto.
  destruct (rstrip t) as [|e r].
  - destruct (isspace d); simpl; tauto.
  - intros [H|H]; auto.
Qed.

Lemma strip_In (c : char) (t : str) : In c (strip t) -> In c t.
Proof. intros H. apply lstrip_In, rstrip_In, H. Qed.




Lemma forallb_strip (f : char -> bool) (t : str) :
  forallb f t = true -> forallb f (strip t) = true.
Proof.
  rewrite !forallb_forall. intros H c Hc. apply H, strip_In, Hc.
Qed.

Lemma starts_with_In (p t : str) (c : char) :
  starts_with p t = true -> In c p -> In c t.
Proof.
  revert t. induction p as [|a p IH]; intros [|b t]; simpl; try easy.
  rewrite andb_true_iff, N.eqb_eq. intros [-> H] [->|Hc]; eauto.
Qed.

Lemma contains_In (p t : str) (c : char) :
  contains p t = true -> In c p -> In c t.
Proof.
  induction t as [|b t IH]; simpl.
  - rewrite orb_false_r. apply starts_with_In.
  - rewrite orb_true_iff. intros [H|H] Hc.
    + eapply (starts_with_In p (b :: t)); eauto.
    + right. auto.
Qed.

(** A text made of characters of a set has no prefix, substring or token
    with a character outside the set. *)
Lemma starts_with_outside (f : char -> bool) (p t : str) :
  forallb f t = true -> forallb f p = false -> starts_with p t = false.
Proof.
  intros Ht Hp. destruct (starts_with p t) eqn:H; auto.
  assert (forallb f p = true); [|congruence].
  rewrite forallb_forall in *. intros c Hc.
  apply Ht. eapply starts_with_In; eauto.
Qed.

Lemma contains_outside (f : char -> bool) (p t : str) :
  forallb f t = true -> forallb f p = false -> contains p t = false.
Proof.
  intros Ht Hp. destruct (contains p t) eqn:H; auto.
  assert (forallb f p = true); [|congruence].
  rewrite forallb_forall in *. intros c Hc.
  apply Ht. eapply contains_In; eauto.
Qed.

Lemma tokens_In (cur t tok : str) (c : char) :
  In tok (tokens cur t) -> In c tok -> In c cur \/ In c t.
Proof.
  revert cur. induction t as [|d t IH]; intros cur; cbn [tokens].
  - destruct cur as [|x cur']; [easy|].
    intros [<-|[]] Hc. left. apply in_rev, Hc.
  - destruct (isspace d).
    + destruct cur as [|x cur'].
      * intros H Hc. destruct (IH _ H Hc); [easy|right; now right].
      * intros [<-|H] Hc.
        -- left. apply in_rev, Hc.
        -- destruct (IH _ H Hc); [easy|right; now right].
    + intros H Hc. destruct (IH _ H Hc) as [[->|?]|?]; auto.
      * right; now left.
      * right; now right.
Qed.

Lemma text_eqb_eq (a b : str) : text_eqb a b = true <-> a = b.
Proof. unfold text_eqb. destruct (list_eq_dec N.eq_dec a b); split; easy. Qed.

Lemma token_outside (f : char -> bool) (w t : str) :
  forallb f t = true -> forallb f w = false ->
  existsb (text_eqb w) (split_ws t) = false.
Proof.
  intros Ht Hw. destruct (existsb _ _) eqn:H; auto.
  apply existsb_exists in H as (tok & Hin & Heq).
  apply text_eqb_eq in Heq. subst tok.
  assert (forallb f w = true); [|congruence].
  rewrite forallb_forall in *. intros c Hc.
  destruct (tokens_In [] t w c Hin Hc); [easy|auto].
Qed.

(** ** The character tables *)

Lemma N_range_In (lo hi c : N) : lo <= c <= hi -> In c (N_range lo hi).
Proof.
  intros H. unfold N_range. apply in_map_iff.
  exists (N.to_nat (c - lo)). split.
  - rewrite N2Nat.id. lia.
  - apply in_seq. lia.
Qed.

(** A character is its own lowercase unless the table maps it. *)
Lemma to_lower_cases (c : char) : to_lower c = c \/ In c lower_domain.
Proof.
  unfold to_lower.
  destruct (find (in_run c) lower_runs) as [[[[lo hi] step] img]|] eqn:Hf;
    [right|now left].
  apply find_some in Hf as [Hin Hr].
  unfold lower_domain. apply in_flat_map. eexists. split; [exact Hin|].
  unfold run_members. apply filter_In. split; [|exact Hr].
  unfold in_run in Hr. rewrite !andb_true_iff, !N.leb_le in Hr.
  apply N_range_In. lia.
Qed.

Lemma isspace_spaces (c : char) : isspace c = true -> In c spaces.
Proof.
  unfold isspace.
  rewrite !orb_true_iff, !andb_true_iff, !N.leb_le, !N.eqb_eq. intros H.
  assert (Hc : c = 9 \/ c = 10 \/ c = 11 \/ c = 12 \/ c = 13 \/ c = 28
               \/ c = 29 \/ c = 30 \/ c = 31 \/ c = 32 \/ c = 0x85
               \/ c = 0xA0 \/ c = 0x1680 \/ c = 0x2000 \/ c = 0x2001
               \/ c = 0x2002 \/ c = 0x2003 \/ c = 0x2004 \/ c = 0x2005
               \/ c = 0x2006 \/ c = 0x2007 \/ c = 0x2008 \/ c = 0x2009
               \/ c = 0x200A \/ c = 0x2028 \/ c = 0x2029 \/ c = 0x202F
               \/ c = 0x205F \/ c = 0x3000) by lia.
  unfold spaces.
  repeat (destruct Hc as [->|Hc]; [simpl; tauto|]). subst c. simpl. tauto.
Qed.

(** Whitespace is caseless, and neither cased nor case-ignorable. *)
Lemma spaces_plain :
  forallb (fun c => text_eqb (lower_char c) [c] && negb (c =? 0x3A3)
                    && negb (is_case_ignorable c) && negb (is_cased c))
          spaces = true.
Proof. vm_compute. reflexivity. Qed.

(** The lowercase of a kept character that the table maps is settled. *)
Lemma lower_domain_settled :
  forallb (fun c => negb (kept c) || settled (to_lower c)) lower_domain = true.
Proof. vm_compute. reflexivity. Qed.

(** No character has the space, U+0130 or U+0307 as its simple lowercase. *)
Lemma lower_domain_images :
  forallb (fun c => negb (existsb (N.eqb (to_lower c)) [32; 0x130; 0x307]))
          lower_domain = true.
Proof. vm_compute. reflexivity. Qed.

Lemma isspace_plain (c : char) :
  isspace c = true ->
  lower_char c = [c] /\ (c =? 0x3A3) = false
  /\ is_case_ignorable c = false /\ is_cased c = false.
Proof.
  intros H. apply isspace_spaces in H.
  pose proof spaces_plain as F. rewrite forallb_forall in F.
  specialize (F c H). rewrite !andb_true_iff, !negb_true_iff in F.
  rewrite text_eqb_eq in F. tauto.
Qed.

Lemma isspace_lower_char (c : char) : isspace c = true -> lower_char c = [c].
Proof. intros H. now apply isspace_plain. Qed.

Lemma lower_char_cases (c d : char) :
  In d (lower_char c) ->
  (is_upper_ascii c = true /\ d = c + 32)
  \/ (c = 0x130 /\ (d = 0x69 \/ d = 0x307))
  \/ d = c
  \/ (In c lower_domain /\ d = to_lower c).
Proof.
  unfold lower_char.
  destruct (is_upper_ascii c); [intros [<-|[]]; auto|].
  destruct (is_ascii c); [intros [<-|[]]; auto|].
  destruct (N.eqb_spec c 0x130) as [->|_].
  - intros [<-|[<-|[]]]; auto.
  - intros [<-|[]].
    destruct (to_lower_cases c) as [->|H]; auto.
Qed.

Lemma lower_char_image (c d : char) :
  In d (lower_char c) -> In d [32; 0x130; 0x307] ->
  d = c \/ (c = 0x130 /\ d = 0x307).
Proof.
  intros H Hd. apply lower_char_cases in H as [[Hu ->]|[[-> H]|[->|[Hi ->]]]].
  - unfold is_upper_ascii in Hu. rewrite andb_true_iff, !N.leb_le in Hu.
    simpl in Hd. lia.
  - destruct H as [->| ->]; [simpl in Hd; lia|auto].
  - auto.
  - pose proof lower_domain_images as F. rewrite forallb_forall in F.
    specialize (F c Hi). apply negb_true_iff in F.
    assert (existsb (N.eqb (to_lower c)) [32; 0x130; 0x307] = true);
      [|congruence].
    apply existsb_exists. exists (to_lower c). split; [exact Hd|].
    apply N.eqb_refl.
Qed.

Lemma lower_char_space (d : char) : In 32 (lower_char d) -> d = 32.
Proof.
  intros H.
  assert (H1 : In 32 [32; 0x130; 0x307]) by (simpl; auto).
  destruct (lower_char_image _ _ H H1) as [H2|[_ H2]];
    [auto | discriminate H2].
Qed.

Lemma text_eqb_refl (t : str) : text_eqb t t = true.
Proof. now apply text_eqb_eq. Qed.

Lemma lower_char_settled (c : char) :
  (c =? 0x130) = false -> (c =? 0x3A3) = false -> kept c = true ->
  forallb settled (lower_char c) = true.
Proof.
  intros Hi Hs Hk. unfold lower_char.
  destruct (is_upper_ascii c) eqn:Hu.
  - unfold is_upper_ascii in Hu. rewrite andb_true_iff, !N.leb_le in Hu.
    cbn [forallb]. rewrite andb_true_r. unfold settled, kept, is_word.
    replace (is_lower_ascii (c + 32)) with true
      by (symmetry; unfold is_lower_ascii; rewrite andb_true_iff, !N.leb_le; lia).
    replace (c + 32 =? 0x3A3) with false by (symmetry; rewrite N.eqb_neq; lia).
    unfold lower_char.
    replace (is_upper_ascii (c + 32)) with false
      by (symmetry; unfold is_upper_ascii; rewrite andb_false_iff, !N.leb_gt; lia).
    replace (is_ascii (c + 32)) with true
      by (symmetry; unfold is_ascii; rewrite N.ltb_lt; lia).
    rewrite text_eqb_refl. now rewrite !orb_true_r.
  - destruct (is_ascii c) eqn:Ha.
    + cbn [forallb]. rewrite andb_true_r. unfold settled, lower_char.
      now rewrite Hk, Hs, Hu, Ha, text_eqb_refl.
    + rewrite Hi. cbn [forallb]. rewrite andb_true_r.
      destruct (to_lower_cases c) as [He|Hd].
      * rewrite He. unfold settled, lower_char.
        now rewrite Hk, Hs, Hu, Ha, Hi, He, text_eqb_refl.
      * pose proof lower_domain_settled as F. rewrite forallb_forall in F.
        specialize (F c Hd). now rewrite Hk in F.
Qed.

(** ** Lowercasing a text *)

Lemma lower_from_In (c : char) (before t : str) :
  In c (lower_from before t) ->
  exists d, In d t
            /\ (In c (lower_char d) \/ (d = 0x3A3 /\ is_small_sigma c = true)).
Proof.
  revert before. induction t as [|d t IH]; intros before; cbn [lower_from].
  - intros [].
  - rewrite in_app_iff. intros [H|H].
    + exists d. split; [now left|].
      destruct (N.eqb_spec d 0x3A3) as [->|_]; [right|now left].
      split; [reflexivity|]. destruct H as [<-|[]].
      now destruct (final_sigma before t).
    + destruct (IH _ H) as (x & Hx & Hc). exists x. split; [now right|auto].
Qed.

Lemma lower_In (c : char) (t : str) :
  In c (lower t) ->
  exists d, In d t
            /\ (In c (lower_char d) \/ (d = 0x3A3 /\ is_small_sigma c = true)).
Proof. apply lower_from_In. Qed.


(** A text without capital sigma is lowercased character by character. *)
Lemma lower_from_flat (before t : str) :
  ~ In 0x3A3 t -> lower_from before t = flat_map lower_char t.
Proof.
  revert before. induction t as [|c t IH]; intros before H; [reflexivity|].
  cbn [lower_from flat_map].
  destruct (N.eqb_spec c 0x3A3) as [->|_]; [destruct H; now left|].
  f_equal. apply IH. intros Hin. apply H. now right.
Qed.

Lemma lower_flat (t : str) : ~ In 0x3A3 t -> lower t = flat_map lower_char t.
Proof. apply lower_from_flat. Qed.

Lemma split_on_second (t : str) :
  In 32 t -> nth_error (split_on 32 1 t) 1 = Some (nth 1 (split_on 32 1 t) []).
Proof.
  induction t as [|c t IH]; simpl; [easy|].
  destruct (c =? 32) eqn:Hc.
  - intros _. destruct t; reflexivity.
  - apply N.eqb_neq in Hc. intros [H|H]; [congruence|].
    specialize (IH H).
    destruct (split_on 32 1 t) as [|w [|x ws]]; simpl in *; congruence.
Qed.

(** ** Wakeword helpers *)

Lemma settled_inv (c : char) :
  settled c = true ->
  kept c = true /\ (c =? 0x3A3) = false /\ lower_char c = [c].
Proof.
  unfold settled. rewrite !andb_true_iff, negb_true_iff, text_eqb_eq. tauto.
Qed.

Lemma lower_from_settled (before t : str) :
  forallb settled t = true -> lower_from before t = t.
Proof.
  revert before. induction t as [|c t IH]; intros before; [reflexivity|].
  cbn [forallb lower_from]. rewrite andb_true_iff. intros [Hc Ht].
  apply settled_inv in Hc as (_ & -> & ->). cbn [app]. f_equal. auto.
Qed.

Lemma lower_settled (t : str) : forallb settled t = true -> lower t = t.
Proof. apply lower_from_settled. Qed.

Lemma filter_settled (t : str) :
  forallb settled t = true ->
  filter (fun c => is_word c || isspace c) t = t.
Proof.
  induction t as [|c t IH]; simpl; auto.
  rewrite andb_true_iff. intros [Hc Ht].
  apply settled_inv in Hc as (Hk & _). unfold kept in Hk. rewrite Hk.
  f_equal. auto.
Qed.

Lemma normalize_settled (t : str) :
  forallb settled t = true -> normalize_text t = strip t.
Proof.
  intros H. unfold normalize_text.
  rewrite filter_settled by assumption. now rewrite lower_settled.
Qed.

Lemma small_sigma_settled (c : char) :
  is_small_sigma c = true -> settled c = true.
Proof.
  unfold is_small_sigma. rewrite orb_true_iff, !N.eqb_eq.
  intros [->| ->]; vm_compute; reflexivity.
Qed.

(** What is left of a text without U+0130 after the filter is lowercased to
    settled characters. *)
Lemma lower_from_kept (before x : str) :
  ~ In 0x130 x ->
  forallb settled
          (lower_from before (filter (fun c => is_word c || isspace c) x))
  = true.
Proof.
  revert before. induction x as [|c x IH]; intros before H; [reflexivity|].
  cbn [filter].
  assert (Hx : ~ In 0x130 x) by (intros Hin; apply H; now right).
  destruct (is_word c || isspace c) eqn:Hk; [|now apply IH].
  cbn [lower_from]. rewrite forallb_app, IH by assumption.
  rewrite andb_true_r.
  destruct (N.eqb_spec c 0x3A3) as [->|Hs].
  - cbn [forallb]. rewrite andb_true_r. apply small_sigma_settled.
    now destruct (final_sigma before _).
  - apply lower_char_settled; [| now apply N.eqb_neq | exact Hk].
    apply N.eqb_neq. intros ->. apply H. now left.
Qed.

Lemma normalize_text_settled (x : str) :
  ~ In 0x130 x -> forallb settled (normalize_text x) = true.
Proof.
  intros Hx. unfold normalize_text. apply forallb_strip.
  now apply lower_from_kept.
Qed.

(** ** Effects: computations that only add events *)

Lemma push_push (l1 l2 : list event) (w : World) :
  push l2 (push l1 w) = push (l2 ++ l1) w.
Proof. unfold push. simpl. now rewrite app_assoc. Qed.

Lemma uniform_ret {A} (a : A) : uniform (ret a).
Proof. intros [ev lc fr]. reflexivity. Qed.

Lemma uniform_raise {A} (e : exn) : uniform (@raise A e).
Proof. intros [ev lc fr]. reflexivity. Qed.

Lemma uniform_emit (e : event) : uniform (emit e).
Proof. intros [ev lc fr]. reflexivity. Qed.

Lemma uniform_lift {A} (o : outcome A) : uniform (lift o).
Proof. intros [ev lc fr]. reflexivity. Qed.

Lemma uniform_check (o : option exn) : uniform (check o).
Proof. destruct o; [apply uniform_raise | apply uniform_ret]. Qed.

Lemma uniform_bind {A B} (m : M A) (k : A -> M B) :
  uniform m -> (forall a, uniform (k a)) -> uniform (bind m k).
Proof.
  intros Hm Hk w. unfold bind.
  pose proof (Hm w) as Hw.
  destruct (m w0) as [r w1]. simpl in Hw. rewrite Hw.
  destruct r as [a|e]; simpl; [|reflexivity].
  rewrite (Hk a (push (events w1) w)), (Hk a w1).
  simpl. now rewrite push_push.
Qed.

Lemma uniform_try_catch {A} (m : M A) (h : exn -> M A) :
  uniform m -> (forall e, uniform (h e)) -> uniform (try_catch m h).
Proof.
  intros Hm Hh w. unfold try_catch.
  pose proof (Hm w) as Hw.
  destruct (m w0) as [r w1]. simpl in Hw. rewrite Hw.
  destruct r as [a|e]; simpl; [reflexivity|].
  rewrite (Hh e (push (events w1) w)), (Hh e w1).
  simpl. now rewrite push_push.
Qed.

Create HintDb uniform.
#[export] Hint Resolve uniform_ret uniform_raise uniform_emit uniform_lift
  uniform_check : uniform.

(** Decompose a computation built from the combinators. *)
Ltac uniform_step :=
  lazymatch goal with
  | |- uniform (bind _ _) => apply uniform_bind; [|intros]
  | |- uniform (try_catch _ _) => apply uniform_try_catch; [|intros]
  | |- uniform (if ?b then _ else _) => destruct b
  | |- uniform (match ?x with _ => _ end) => destruct x
  | |- uniform (let (_, _) := ?x in _) => destruct x
  | |- forall _, _ => intros
  | |- _ => solve [auto with uniform]
  end.

Ltac uniform_tac := repeat uniform_step.

Section Uniform.

Variable E : Env.

Lemma uniform_popen argv shell : uniform (popen E argv shell).
Proof. unfold popen. uniform_tac. Qed.

Lemma uniform_startfile path : uniform (startfile E path).
Proof. unfold startfile. uniform_tac. Qed.

Hint Resolve uniform_popen uniform_startfile : uniform.

Lemma uniform_search_wikipedia q : uniform (search_wikipedia E q).
Proof. unfold search_wikipedia. uniform_tac. Qed.

Lemma uniform_google_urls q : uniform (google_urls E q).
Proof. unfold google_urls. uniform_tac. Qed.

Hint Resolve uniform_google_urls : uniform.

Lemma uniform_fetch_candidate url : uniform (fetch_candidate E url).
Proof. unfold fetch_candidate. uniform_tac. Qed.

Lemma uniform_fetch_loop urls : uniform (fetch_loop E urls).
Proof.
  induction urls as [|u urls IH]; simpl.
  - apply uniform_ret.
  - apply uniform_bind; [apply uniform_fetch_candidate|].
    intros [ans|]; [apply uniform_ret | exact IH].
Qed.

Lemma uniform_discover q : uniform (discover E q).
Proof. unfold discover, webbrowser_open. uniform_tac. Qed.

Lemma uniform_google_first_snippet q : uniform (google_first_snippet E q).
Proof.
  unfold google_first_snippet.
  apply uniform_bind; [apply uniform_discover|].
  intros [urls|]; [apply uniform_fetch_loop | apply uniform_ret].
Qed.

Hint Resolve uniform_search_wikipedia uniform_google_first_snippet : uniform.

Lemma uniform_try_candidates cands : uniform (try_candidates E cands).
Proof.
  induction cands as [|c cands IH]; simpl.
  - apply uniform_ret.
  - apply uniform_bind; [uniform_tac|].
    intros [|]; [apply uniform_ret | exact IH].
Qed.

Hint Resolve uniform_try_candidates : uniform.

Lemma uniform_open_application name : uniform (open_application E name).
Proof. unfold open_application, webbrowser_open. uniform_tac. Qed.

Lemma uniform_open_folder path : uniform (open_folder E path).
Proof. unfold open_folder. uniform_tac. Qed.

Lemma uniform_system_shutdown c : uniform (system_shutdown E c).
Proof. unfold system_shutdown. uniform_tac. Qed.

Lemma uniform_system_restart c : uniform (system_restart E c).
Proof. unfold system_restart. uniform_tac. Qed.

Hint Resolve uniform_open_application uniform_open_folder
  uniform_system_shutdown uniform_system_restart : uniform.

Lemma uniform_capture_photo : uniform (capture_photo E).
Proof. unfold capture_photo, log_message, speak. uniform_tac. Qed.

Lemma uniform_handle i : uniform (handle E i).
Proof.
  destruct i as [path|target|c|c| | |[|] q|q]; simpl.
  - unfold do_open_folder, log_message, speak. uniform_tac.
  - unfold do_open_target, webbrowser_open, log_message, speak. uniform_tac.
  - unfold do_shutdown, log_message, speak. uniform_tac.
  - unfold do_restart, log_message, speak. uniform_tac.
  - unfold do_screenshot, log_message, speak. uniform_tac.
  - apply uniform_capture_photo.
  - unfold do_wikipedia, log_message, speak. uniform_tac.
  - unfold do_question, webbrowser_open, log_message, speak. uniform_tac.
  - unfold do_web_search, open_first_result, webbrowser_open, log_message, speak.
    uniform_tac.
Qed.

End Uniform.

(** ** Effects: traces and results of uniform computations *)

Lemma result_bind {A B} (m : M A) (k : A -> M B) :
  (forall a, uniform (k a)) ->
  result (bind m k) =
  match result m with
  | Ret a => result (k a)
  | Raise e => Raise e
  end.
Proof.
  intros Hk. unfold result, bind.
  destruct (m w0) as [[a|e] w1]; simpl; [|reflexivity].
  now rewrite (Hk a w1).
Qed.

Lemma run_bind {A B} (m : M A) (k : A -> M B) :
  (forall a, uniform (k a)) ->
  run (bind m k) =
  match result m with
  | Ret a => run m ++ run (k a)
  | Raise _ => run m
  end.
Proof.
  intros Hk. unfold run, result, trace, bind.
  destruct (m w0) as [[a|e] w1]; simpl; [|reflexivity].
  rewrite (Hk a w1). simpl. now rewrite rev_app_distr.
Qed.

Lemma run_try_catch {A} (m : M A) (h : exn -> M A) :
  (forall e, uniform (h e)) ->
  run (try_catch m h) =
  match result m with
  | Ret _ => run m
  | Raise e => run m ++ run (h e)
  end.
Proof.
  intros Hh. unfold run, result, trace, try_catch.
  destruct (m w0) as [[a|e] w1]; simpl; [reflexivity|].
  rewrite (Hh e w1). simpl. now rewrite rev_app_distr.
Qed.

Lemma only_ret {A} Q (a : A) : only Q (ret a).
Proof. split; [apply uniform_ret | constructor]. Qed.

Lemma only_raise {A} Q (e : exn) : only Q (@raise A e).
Proof. split; [apply uniform_raise | constructor]. Qed.

Lemma only_lift {A} Q (o : outcome A) : only Q (lift o).
Proof. split; [apply uniform_lift | constructor]. Qed.

Lemma only_check Q (o : option exn) : only Q (check o).
Proof. destruct o; [apply only_raise | apply only_ret]. Qed.

Lemma only_emit (Q : event -> Prop) (e : event) : Q e -> only Q (emit e).
Proof. split; [apply uniform_emit | repeat constructor; assumption]. Qed.

Lemma only_bind {A B} Q (m : M A) (k : A -> M B) :
  only Q m -> (forall a, only Q (k a)) -> only Q (bind m k).
Proof.
  intros [Um Qm] Hk. split.
  - apply uniform_bind; [assumption | intros a; apply Hk].
  - rewrite run_bind by (intros a; apply Hk).
    destruct (result m); [|assumption].
    apply Forall_app. split; [assumption | apply Hk].
Qed.

Lemma only_try_catch {A} Q (m : M A) (h : exn -> M A) :
  only Q m -> (forall e, only Q (h e)) -> only Q (try_catch m h).
Proof.
  intros [Um Qm] Hh. split.
  - apply uniform_try_catch; [assumption | intros e; apply Hh].
  - rewrite run_try_catch by (intros e; apply Hh).
    destruct (result m); [assumption|].
    apply Forall_app. split; [assumption | apply Hh].
Qed.

Lemma only_weaken {A} (Q Q' : event -> Prop) (m : M A) :
  (forall e, Q e -> Q' e) -> only Q m -> only Q' m.
Proof.
  intros H [U F]. split; [assumption|].
  eapply Forall_impl; eauto.
Qed.

Lemma nofail_ret {A} (a : A) : nofail (ret a).
Proof. intros w. now exists a, w. Qed.

Lemma nofail_emit (e : event) : nofail (emit e).
Proof. intros w. eexists _, _. reflexivity. Qed.

Lemma nofail_bind {A B} (m : M A) (k : A -> M B) :
  nofail m -> (forall a, nofail (k a)) -> nofail (bind m k).
Proof.
  intros Hm Hk w. unfold bind.
  destruct (Hm w) as (a & w' & ->). apply Hk.
Qed.

Lemma nofail_try_catch {A} (m : M A) (h : exn -> M A) :
  (forall e, nofail (h e)) -> nofail (try_catch m h).
Proof.
  intros Hh w. unfold try_catch.
  destruct (m w) as [[a|e] w'].
  - now exists a, w'.
  - apply Hh.
Qed.

Ltac nofail_step :=
  lazymatch goal with
  | |- nofail (bind _ _) => apply nofail_bind; [|intros]
  | |- nofail (try_catch _ _) => apply nofail_try_catch; intros
  | |- nofail (emit _) => apply nofail_emit
  | |- nofail (ret _) => apply nofail_ret
  | |- nofail (if ?b then _ else _) => destruct b
  | |- nofail (match ?x with _ => _ end) => destruct x
  | |- forall _, _ => intros
  end.

Ltac nofail_tac := repeat nofail_step.

(** ** The dispatcher follows the classification table *)

Section Dispatch.

Variable E : Env.

Lemma blank_classify (text : str) :
  truthy (strip text) = false -> classify E text = GenericSearch [].
Proof.
  unfold classify, command_lower. destruct (strip text); [|discriminate].
  reflexivity.
Qed.

Lemma blank_process_command (text : str) (w : World) :
  truthy (strip text) = false -> process_command E text w = (Ret tt, w).
Proof. unfold process_command. now intros ->. Qed.

(** A command whose lowercased form starts with a prefix that has a space
    has a remainder after its first space. *)
Lemma space_after_prefix (p text : str) :
  starts_with p (command_lower text) = true -> In 32 p ->
  after_first_space (strip text) = ret (remainder (strip text)).
Proof.
  intros Hp Hs.
  assert (Hin : In 32 (strip text)).
  { pose proof (starts_with_In _ _ _ Hp Hs) as H.
    apply strip_In, lower_In in H. destruct H as (d & Hd & [Hl|[_ Hl]]).
    - apply lower_char_space in Hl. now subst d.
    - discriminate Hl. }
  unfold after_first_space, remainder.
  now rewrite (split_on_second _ Hin).
Qed.

Lemma process_command_classify (text : str) (w : World) :
  truthy (strip text) = true ->
  process_command E text w = handle E (classify E text) w.
Proof.
  intros Ht. unfold process_command, classify. rewrite Ht. simpl negb.
  fold (command_lower text). cbv iota.
  unfold rules, first_match. cbv beta iota.
  destruct (starts_with (txt "open folder") (command_lower text)
            || starts_with (txt "open directory") (command_lower text));
    [reflexivity|].
  destruct (starts_with (txt "open ") (command_lower text)) eqn:Ho.
  { rewrite ?orb_true_l. cbv iota.
    rewrite (space_after_prefix (txt "open ") text Ho) by (vm_compute; tauto).
    reflexivity. }
  destruct (starts_with (txt "launch ") (command_lower text)) eqn:Hl.
  { rewrite ?orb_true_l. cbv iota.
    rewrite (space_after_prefix (txt "launch ") text Hl) by (vm_compute; tauto).
    reflexivity. }
  rewrite ?orb_false_l. cbv iota.
  destruct (contains (txt "shutdown") (command_lower text)); [reflexivity|].
  destruct (contains (txt "restart") (command_lower text)
            || contains (txt "reboot") (command_lower text)); [reflexivity|].
  destruct (contains (txt "screenshot") (command_lower text)
            || contains (txt "screen shot") (command_lower text));
    [reflexivity|].
  destruct (contains (txt "capture") (command_lower text)
            && (contains (txt "photo") (command_lower text)
                || contains (txt "picture") (command_lower text)));
    [reflexivity|].
  destruct (starts_with (txt "wikipedia ") (command_lower text)) eqn:Hw.
  { rewrite ?orb_true_l. cbv iota.
    rewrite (space_after_prefix (txt "wikipedia ") text Hw)
      by (vm_compute; tauto).
    reflexivity. }
  destruct (starts_with (txt "wiki ") (command_lower text)) eqn:Hk.
  { rewrite ?orb_true_l. cbv iota.
    rewrite (space_after_prefix (txt "wiki ") text Hk) by (vm_compute; tauto).
    reflexivity. }
  rewrite ?orb_false_l. cbv iota.
  destruct (is_question (command_lower text)); reflexivity.
Qed.

Lemma uniform_process_command (text : str) : uniform (process_command E text).
Proof.
  intros w. destruct (truthy (strip text)) eqn:Ht.
  - rewrite !process_command_classify by assumption. apply uniform_handle.
  - rewrite !blank_process_command by assumption. now destruct w.
Qed.

Lemma run_process_command (text : str) :
  truthy (strip text) = true ->
  run (process_command E text) = run (handle E (classify E text)).
Proof.
  intros Ht. unfold run. now rewrite process_command_classify.
Qed.

End Dispatch.

(** ** Splitting on spaces *)

Lemma split_on_app (sep : char) (n : nat) (a r : str) :
  ~ In sep a ->
  split_on sep (S n) (a ++ sep :: r) = a :: split_on sep n r.
Proof.
  induction a as [|c a IH]; simpl; intros Ha.
  - now rewrite N.eqb_refl.
  - destruct (N.eqb_spec c sep) as [->|Hc]; [tauto|].
    rewrite IH by tauto. reflexivity.
Qed.

Lemma split_on_zero (sep : char) (t : str) : split_on sep 0 t = [t].
Proof. destruct t; reflexivity. Qed.

Lemma split_on_length (sep : char) (n : nat) (t : str) :
  (List.length (split_on sep n t) <= 1 + count_occ N.eq_dec t sep)%nat.
Proof.
  revert n. induction t as [|c t IH]; intros n; simpl; [lia|].
  destruct n as [|n]; simpl; [lia|].
  destruct (N.eqb_spec c sep) as [->|Hc].
  - destruct (N.eq_dec sep sep); [|congruence].
    simpl. specialize (IH n). lia.
  - destruct (N.eq_dec c sep); [congruence|].
    specialize (IH (S n)).
    destruct (split_on sep (S n) t); simpl in *; lia.
Qed.

Section FolderPath.

Variable E : Env.

Lemma folder_path_third (a b c : str) :
  ~ In 32 a -> ~ In 32 b -> folder_path E (a ++ 32 :: b ++ 32 :: c) = c.
Proof.
  intros Ha Hb. unfold folder_path.
  rewrite split_on_app, split_on_app, split_on_zero by assumption.
  reflexivity.
Qed.

Lemma folder_path_default (t : str) :
(count_occ N.eq_dec t 32%N < 2)%nat ->
  folder_path E t = expanduser E (txt "~").
Proof.
  intros Ht. unfold folder_path.
  pose proof (split_on_length 32 2 t) as Hlen.
  destruct (Nat.leb_spec 3 (List.length (split_on 32 2 t))); [lia|reflexivity].
Qed.

End FolderPath.

(** ** Claims on the wakeword helpers *)

(** C6: [has_wakeword] is true exactly when the normalized text starts with
    "hey jarvis" or with "jarvis".  It holds of "Hey Jarvis, open chrome",
    whose stripped form is "open chrome"; the bare "jarvis" strips to the
    empty string; "What's the weather" has no wakeword; and the test is on
    the prefix only, so "jarvisx" passes it. *)
Theorem has_wakeword_prefix :
  (forall t : str,
      has_wakeword t = true <->
      starts_with (txt "hey jarvis") (normalize_text t) = true
      \/ starts_with (txt "jarvis") (normalize_text t) = true)
  /\ has_wakeword (txt "Hey Jarvis, open chrome") = true
  /\ strip_wakeword (txt "Hey Jarvis, open chrome") = txt "open chrome"
  /\ strip_wakeword (txt "jarvis") = []
  /\ has_wakeword (txt "What's the weather") = false
  /\ has_wakeword (txt "jarvisx") = true.
Proof.
  split; [|repeat split; vm_compute; reflexivity].
  intros [|c t].
  - split; [discriminate|]. vm_compute. intros [H|H]; discriminate.
  - unfold has_wakeword. cbn [truthy negb]. cbv zeta.
    now rewrite orb_true_iff.
Qed.








(** ** Effect signatures *)

Lemma emits_ret {A} ks (a : A) : emits ks (ret a).
Proof. apply only_ret. Qed.

Lemma emits_raise {A} ks (e : exn) : emits ks (@raise A e).
Proof. apply only_raise. Qed.

Lemma emits_lift {A} ks (o : outcome A) : emits ks (lift o).
Proof. apply only_lift. Qed.

Lemma emits_check ks (o : option exn) : emits ks (check o).
Proof. apply only_check. Qed.

Lemma emits_emit ks (e : event) : In (kind_of e) ks -> emits ks (emit e).
Proof. intros H. apply (only_emit (fun e => In (kind_of e) ks) e H). Qed.

Lemma emits_bind {A B} ks (m : M A) (k : A -> M B) :
  emits ks m -> (forall a, emits ks (k a)) -> emits ks (bind m k).
Proof. apply only_bind. Qed.

Lemma emits_try_catch {A} ks (m : M A) (h : exn -> M A) :
  emits ks m -> (forall e, emits ks (h e)) -> emits ks (try_catch m h).
Proof. apply only_try_catch. Qed.

Lemma emits_mono {A} ks ks' (m : M A) :
  emits ks m -> (forall k, In k ks -> In k ks') -> emits ks' m.
Proof.
  intros H Hi. eapply only_weaken; [|exact H].
  intros e. apply Hi.
Qed.

Lemma emits_run {A} ks (m : M A) :
  emits ks m -> Forall (fun e => In (kind_of e) ks) (run m).
Proof. now intros [_ F]. Qed.

Create HintDb emits.

Ltac emits_step :=
  lazymatch goal with
  | |- emits _ (bind _ _) => apply emits_bind; [|intros]
  | |- emits _ (try_catch _ _) => apply emits_try_catch; [|intros]
  | |- emits _ (emit _) => apply emits_emit; simpl; tauto
  | |- emits _ (ret _) => apply emits_ret
  | |- emits _ (raise _) => apply emits_raise
  | |- emits _ (lift _) => apply emits_lift
  | |- emits _ (check _) => apply emits_check
  | |- emits _ (if ?b then _ else _) => destruct b
  | |- emits _ (match ?x with _ => _ end) => destruct x
  | |- emits _ (let (_, _) := ?x in _) => destruct x
  | |- forall _, _ => intros
  | |- emits _ _ => solve [eauto with emits]
  end.

Ltac emits_tac := repeat emits_step.

(** Use a signature already proved, inside a larger one. *)
Ltac emits_by L := eapply emits_mono; [apply L | simpl; tauto].

Section Signatures.

Variable E : Env.

Lemma emits_popen argv shell : emits [KProcess] (popen E argv shell).
Proof. unfold popen. emits_tac. Qed.

Lemma emits_startfile path : emits [KProcess] (startfile E path).
Proof. unfold startfile. emits_tac. Qed.

Hint Extern 1 (emits _ (popen _ _ _)) => emits_by emits_popen : emits.
Hint Extern 1 (emits _ (startfile _ _)) => emits_by emits_startfile : emits.

Lemma emits_search_wikipedia q : emits [KWiki] (search_wikipedia E q).
Proof. unfold search_wikipedia. emits_tac. Qed.

Lemma emits_google_urls q : emits [KSearch] (google_urls E q).
Proof. unfold google_urls. emits_tac. Qed.

Lemma emits_fetch_candidate url : emits [KHttp] (fetch_candidate E url).
Proof. unfold fetch_candidate. emits_tac. Qed.

Lemma emits_fetch_loop urls : emits [KHttp] (fetch_loop E urls).
Proof.
  induction urls as [|u urls IH]; simpl.
  - apply emits_ret.
  - apply emits_bind; [apply emits_fetch_candidate|].
    intros [ans|]; [apply emits_ret | exact IH].
Qed.

Hint Extern 1 (emits _ (google_urls _ _)) => emits_by emits_google_urls : emits.
Hint Extern 1 (emits _ (fetch_loop _ _)) => emits_by emits_fetch_loop : emits.

Lemma emits_google_first_snippet q :
  emits [KSearch; KHttp; KBrowser] (google_first_snippet E q).
Proof.
  unfold google_first_snippet, discover, webbrowser_open. emits_tac.
Qed.

Hint Extern 1 (emits _ (search_wikipedia _ _)) =>
  emits_by emits_search_wikipedia : emits.
Hint Extern 1 (emits _ (google_first_snippet _ _)) =>
  emits_by emits_google_first_snippet : emits.

Lemma emits_try_candidates cands : emits [KProcess] (try_candidates E cands).
Proof.
  induction cands as [|c cands IH]; simpl.
  - apply emits_ret.
  - apply emits_bind; [emits_tac|].
    intros [|]; [apply emits_ret | exact IH].
Qed.

Hint Extern 1 (emits _ (try_candidates _ _)) =>
  emits_by emits_try_candidates : emits.

Lemma emits_open_application name :
  emits [KAppCall; KProcess; KBrowser] (open_application E name).
Proof. unfold open_application, webbrowser_open. emits_tac. Qed.

Lemma emits_open_folder path :
  emits [KFolderCall; KProcess] (open_folder E path).
Proof. unfold open_folder. emits_tac. Qed.

Hint Extern 1 (emits _ (open_application _ _)) =>
  emits_by emits_open_application : emits.
Hint Extern 1 (emits _ (open_folder _ _)) => emits_by emits_open_folder : emits.

Lemma emits_do_open_folder path :
  emits [KFolderCall; KProcess; KLog; KSpeak] (do_open_folder E path).
Proof. unfold do_open_folder, log_message, speak. emits_tac. Qed.

Lemma emits_do_open_target target :
  emits [KAppCall; KProcess; KBrowser; KLog; KSpeak] (do_open_target E target).
Proof.
  unfold do_open_target, webbrowser_open, log_message, speak. emits_tac.
Qed.

Lemma emits_do_screenshot :
  emits [KScreen; KDialog; KLog; KSpeak] (do_screenshot E).
Proof. unfold do_screenshot, log_message, speak. emits_tac. Qed.

Lemma emits_capture_photo :
  emits [KDialog; KCamera; KLog; KSpeak] (capture_photo E).
Proof. unfold capture_photo, log_message, speak. emits_tac. Qed.

Lemma emits_do_wikipedia q :
  emits [KWiki; KSearch; KHttp; KBrowser; KLog; KSpeak] (do_wikipedia E q).
Proof. unfold do_wikipedia, log_message, speak. emits_tac. Qed.

Lemma emits_do_question q :
  emits [KWiki; KSearch; KHttp; KBrowser; KLog; KSpeak] (do_question E q).
Proof.
  unfold do_question, webbrowser_open, log_message, speak. emits_tac.
Qed.

Lemma emits_do_web_search q :
  emits [KSearch; KBrowser; KLog; KSpeak] (do_web_search E q).
Proof.
  unfold do_web_search, open_first_result, webbrowser_open, log_message, speak.
  emits_tac.
Qed.

Lemma emits_do_shutdown_denied : emits [KLog; KSpeak] (do_shutdown E false).
Proof. unfold do_shutdown, log_message, speak. emits_tac. Qed.

Lemma emits_do_restart_denied : emits [KLog; KSpeak] (do_restart E false).
Proof. unfold do_restart, log_message, speak. emits_tac. Qed.

(** Only a confirmed [Shutdown] or [Restart] intent reaches the two
    functions. *)
Lemma emits_handle_harmless (i : Intent) :
  i <> Shutdown true -> i <> Restart true -> emits harmless (handle E i).
Proof.
  intros Hs Hr. unfold harmless.
  destruct i as [path|target|[|]|[|]| | |[|] q|q]; simpl;
    try congruence.
  - emits_by emits_do_open_folder.
  - emits_by emits_do_open_target.
  - emits_by emits_do_shutdown_denied.
  - emits_by emits_do_restart_denied.
  - emits_by emits_do_screenshot.
  - emits_by emits_capture_photo.
  - emits_by emits_do_wikipedia.
  - emits_by emits_do_question.
  - emits_by emits_do_web_search.
Qed.

End Signatures.

(** ** The confirmation gate *)

Lemma starts_with_app (p q l : str) :
  starts_with (p ++ q) l = true -> starts_with p l = true.
Proof.
  revert l. induction p as [|a p IH]; intros [|b l]; simpl; auto.
  rewrite !andb_true_iff. intros [? ?]. auto.
Qed.

Lemma command_lower_blank (text : str) :
  truthy (strip text) = false -> command_lower text = [].
Proof.
  unfold command_lower. destruct (strip text); [reflexivity|discriminate].
Qed.

Lemma contains_nonblank (p text : str) :
  contains p (command_lower text) = true -> truthy p = true ->
  truthy (strip text) = true.
Proof.
  intros Hc Hp. destruct (truthy (strip text)) eqn:Ht; [reflexivity|].
  rewrite (command_lower_blank _ Ht) in Hc.
  destruct p; discriminate.
Qed.

Lemma gate_ok_harmless (l : str) (e : event) :
  In (kind_of e) harmless -> gate_ok l e.
Proof.
  destruct e; simpl; try (intros _; exact I);
    intros H; repeat (destruct H as [H|H]; [discriminate|]); destruct H.
Qed.

Section Gate.

Variable E : Env.

Lemma classify_not_open (text : str) :
  starts_with (txt "open ") (command_lower text) = false ->
  starts_with (txt "launch ") (command_lower text) = false ->
  classify E text
  = first_match (skipn 2 (rules E)) (strip text) (command_lower text).
Proof.
  intros Ho Hl. unfold classify, rules, first_match. cbv beta iota.
  destruct (starts_with (txt "open folder") (command_lower text)) eqn:H1.
  { apply (starts_with_app (txt "open ") (txt "folder")) in H1. congruence. }
  destruct (starts_with (txt "open directory") (command_lower text)) eqn:H2.
  { apply (starts_with_app (txt "open ") (txt "directory")) in H2.
    congruence. }
  rewrite Ho, Hl. reflexivity.
Qed.

Lemma classify_shutdown_inv (text : str) (c : bool) :
  classify E text = Shutdown c ->
  contains (txt "shutdown") (command_lower text) = true
  /\ c = confirmed (command_lower text).
Proof.
  unfold classify, rules, first_match. cbv beta iota.
  repeat match goal with
         | |- context [if ?b then _ else _] => destruct b eqn:?
         end; intros H; try discriminate H.
  inversion H. auto.
Qed.

Lemma classify_restart_inv (text : str) (c : bool) :
  classify E text = Restart c ->
  (contains (txt "restart") (command_lower text)
   || contains (txt "reboot") (command_lower text)) = true
  /\ c = confirmed (command_lower text).
Proof.
  unfold classify, rules, first_match. cbv beta iota.
  repeat match goal with
         | |- context [if ?b then _ else _] => destruct b eqn:?
         end; intros H; try discriminate H.
  inversion H. auto.
Qed.

Lemma run_do_shutdown :
  exists os msg,
    run (do_shutdown E true)
    = CallSystemShutdown true
        :: os ++ [Log msg; Speak (txt "Shutting down. Goodbye.")]
    /\ (os = [] \/ exists argv, os = [Popen argv false]).
Proof.
  unfold run, trace, do_shutdown, system_shutdown, popen, log_message, speak,
    bind, try_catch, emit, check, ret, raise.
  cbn [negb].
  destruct (is_system E "windows"); [|destruct (is_system E "darwin" || is_system E "linux")];
    cbn -[txt];
    repeat match goal with
           | |- context [os_popen E ?a] => destruct (os_popen E a); cbn -[txt]
           end;
    first [ exists []; eexists; split; [reflexivity | left; reflexivity]
          | eexists [_]; eexists; split;
            [reflexivity | right; eexists; reflexivity] ].
Qed.

Lemma run_do_restart :
  exists os msg,
    run (do_restart E true)
    = CallSystemRestart true :: os ++ [Log msg; Speak (txt "Restarting now.")]
    /\ (os = [] \/ exists argv, os = [Popen argv false]).
Proof.
  unfold run, trace, do_restart, system_restart, popen, log_message, speak,
    bind, try_catch, emit, check, ret, raise.
  cbn [negb].
  destruct (is_system E "windows"); [|destruct (is_system E "darwin" || is_system E "linux")];
    cbn -[txt];
    repeat match goal with
           | |- context [os_popen E ?a] => destruct (os_popen E a); cbn -[txt]
           end;
    first [ exists []; eexists; split; [reflexivity | left; reflexivity]
          | eexists [_]; eexists; split;
            [reflexivity | right; eexists; reflexivity] ].
Qed.

Lemma system_shutdown_exact :
  result (system_shutdown E true)
  = Ret (power_report E (shutdown_argv E) (txt "Shutdown initiated"))
  /\ run (system_shutdown E true)
     = CallSystemShutdown true :: power_started (shutdown_argv E).
Proof.
  unfold result, run, trace, system_shutdown, popen, bind, try_catch, emit,
    check, ret, raise, power_report, power_started, shutdown_argv, power_argv.
  cbn [negb].
  destruct (is_system E "windows");
    [|destruct (is_system E "darwin" || is_system E "linux")];
    cbn -[txt];
    repeat match goal with
           | |- context [os_popen E ?a] => destruct (os_popen E a); cbn -[txt]
           end;
    split; reflexivity.
Qed.

Lemma system_restart_exact :
  result (system_restart E true)
  = Ret (power_report E (restart_argv E) (txt "Restart initiated"))
  /\ run (system_restart E true)
     = CallSystemRestart true :: power_started (restart_argv E).
Proof.
  unfold result, run, trace, system_restart, popen, bind, try_catch, emit,
    check, ret, raise, power_report, power_started, restart_argv, power_argv.
  cbn [negb].
  destruct (is_system E "windows");
    [|destruct (is_system E "darwin" || is_system E "linux")];
    cbn -[txt];
    repeat match goal with
           | |- context [os_popen E ?a] => destruct (os_popen E a); cbn -[txt]
           end;
    split; reflexivity.
Qed.

(** The confirmed branches log what the power function returned. *)
Lemma run_do_shutdown_exact :
  run (do_shutdown E true)
  = run (system_shutdown E true)
    ++ [Log (snd (power_report E (shutdown_argv E) (txt "Shutdown initiated")));
        Speak (txt "Shutting down. Goodbye.")].
Proof.
  unfold run, trace, do_shutdown, system_shutdown, popen, log_message, speak,
    bind, try_catch, emit, check, ret, raise, power_report, shutdown_argv,
    power_argv.
  cbn [negb].
  destruct (is_system E "windows");
    [|destruct (is_system E "darwin" || is_system E "linux")];
    cbn -[txt];
    repeat match goal with
           | |- context [os_popen E ?a] => destruct (os_popen E a); cbn -[txt]
           end;
    reflexivity.
Qed.

Lemma run_do_restart_exact :
  run (do_restart E true)
  = run (system_restart E true)
    ++ [Log (snd (power_report E (restart_argv E) (txt "Restart initiated")));
        Speak (txt "Restarting now.")].
Proof.
  unfold run, trace, do_restart, system_restart, popen, log_message, speak,
    bind, try_catch, emit, check, ret, raise, power_report, restart_argv,
    power_argv.
  cbn [negb].
  destruct (is_system E "windows");
    [|destruct (is_system E "darwin" || is_system E "linux")];
    cbn -[txt];
    repeat match goal with
           | |- context [os_popen E ?a] => destruct (os_popen E a); cbn -[txt]
           end;
    reflexivity.
Qed.

Lemma gate_ok_tail (l : str) (os : list event) (msg fb : str) :
  os = [] \/ (exists argv, os = [Popen argv false]) ->
  Forall (gate_ok l) (os ++ [Log msg; Speak fb]).
Proof.
  intros [->|[argv ->]]; repeat constructor.
Qed.

Lemma process_command_gate (text : str) :
  Forall (gate_ok (command_lower text)) (run (process_command E text)).
Proof.
  destruct (truthy (strip text)) eqn:Ht.
  2:{ unfold run. rewrite blank_process_command by assumption. constructor. }
  rewrite run_process_command by assumption.
  destruct (classify E text) as [path|target|[|]|[|]| | |b q|q] eqn:Hc.
  3:{ apply classify_shutdown_inv in Hc as [Hs Hy].
      change (handle E (Shutdown true)) with (do_shutdown E true).
      destruct run_do_shutdown as (os & msg & -> & Hos).
      constructor; [simpl; auto|]. now apply gate_ok_tail. }
  4:{ apply classify_restart_inv in Hc as [Hs Hy].
      change (handle E (Restart true)) with (do_restart E true).
      destruct run_do_restart as (os & msg & -> & Hos).
      constructor; [simpl; auto|]. now apply gate_ok_tail. }
  all: eapply Forall_impl;
    [intros e; apply gate_ok_harmless
    | apply (emits_run harmless), emits_handle_harmless; discriminate].
Qed.

End Gate.

(** ** Claims on the dispatcher *)

(** C1, as amended: whatever the command, [system_shutdown] and
    [system_restart] are entered with [confirm=True] only, and only when the
    lowercased text names the action and contains "confirm" or "yes".  For a
    command that does not start with "open " or "launch " and whose
    lowercased form contains "shutdown": with "confirm" or "yes" in it
    [system_shutdown(confirm=True)] is called, which starts the shutdown
    command of the platform, then the message that [system_shutdown]
    returned is logged ("Shutdown initiated", or the text of the exception
    when the command could not be started) and the farewell spoken; without,
    nothing but the confirmation request is emitted.  The same holds with
    [system_restart] for a command that contains "restart" or "reboot" and
    not "shutdown". *)
Theorem confirmation_gate (E : Env) (text : str) :
  Forall (gate_ok (command_lower text)) (run (process_command E text))
  /\ (starts_with (txt "open ") (command_lower text) = false ->
      starts_with (txt "launch ") (command_lower text) = false ->
      (contains (txt "shutdown") (command_lower text) = true ->
       if confirmed (command_lower text)
       then result (system_shutdown E true)
            = Ret (power_report E (shutdown_argv E) (txt "Shutdown initiated"))
            /\ run (system_shutdown E true)
               = CallSystemShutdown true :: power_started (shutdown_argv E)
            /\ run (process_command E text)
               = run (system_shutdown E true)
                 ++ [Log (snd (power_report E (shutdown_argv E)
                                            (txt "Shutdown initiated")));
                     Speak (txt "Shutting down. Goodbye.")]
       else run (process_command E text)
            = [Log (txt "Shutdown requested - confirmation required. Say 'shutdown confirm' to proceed.");
               Speak (txt "Shutdown requested. Say shutdown confirm to proceed.")])
      /\ (contains (txt "shutdown") (command_lower text) = false ->
          (contains (txt "restart") (command_lower text)
           || contains (txt "reboot") (command_lower text)) = true ->
          if confirmed (command_lower text)
          then result (system_restart E true)
               = Ret (power_report E (restart_argv E) (txt "Restart initiated"))
               /\ run (system_restart E true)
                  = CallSystemRestart true :: power_started (restart_argv E)
               /\ run (process_command E text)
                  = run (system_restart E true)
                    ++ [Log (snd (power_report E (restart_argv E)
                                               (txt "Restart initiated")));
                        Speak (txt "Restarting now.")]
          else run (process_command E text)
               = [Log (txt "Restart requested - confirmation required. Say 'restart confirm' to proceed.");
                  Speak (txt "Restart requested. Say restart confirm to proceed.")])).
Proof.
  split; [apply process_command_gate|].
  intros Ho Hl. pose proof (classify_not_open E text Ho Hl) as Hc.
  unfold rules, skipn, first_match in Hc. cbv beta iota in Hc. split.
  - intros Hs. rewrite Hs in Hc.
    rewrite run_process_command
      by (apply (contains_nonblank (txt "shutdown")); [assumption|reflexivity]).
    rewrite Hc. destruct (confirmed (command_lower text)).
    + destruct (system_shutdown_exact E) as [Hr Ht].
      split; [exact Hr|]. split; [exact Ht|]. apply run_do_shutdown_exact.
    + reflexivity.
  - intros Hs Hr. rewrite Hs, Hr in Hc.
    assert (Ht : truthy (strip text) = true).
    { apply orb_true_iff in Hr as [Hr|Hr].
      - apply (contains_nonblank (txt "restart")); [assumption|reflexivity].
      - apply (contains_nonblank (txt "reboot")); [assumption|reflexivity]. }
    rewrite run_process_command by assumption.
    rewrite Hc. destruct (confirmed (command_lower text)).
    + destruct (system_restart_exact E) as [Hr' Ht'].
      split; [exact Hr'|]. split; [exact Ht'|]. apply run_do_restart_exact.
    + reflexivity.
Qed.

Lemma confirmation_gate_witness :
  run (process_command env_offline (txt "shutdown confirm"))
  = run (system_shutdown env_offline true)
    ++ [Log (snd (power_report env_offline (shutdown_argv env_offline)
                               (txt "Shutdown initiated")));
        Speak (txt "Shutting down. Goodbye.")]
  /\ run (process_command env_no_programs (txt "Restart, yes"))
     = [CallSystemRestart true;
        Popen [txt "shutdown"; txt "-r"; txt "now"] false;
        Log (txt "FileNotFoundError"); Speak (txt "Restarting now.")]
  /\ run (process_command env_offline (txt "Please REBOOT"))
     = [Log (txt "Restart requested - confirmation required. Say 'restart confirm' to proceed.");
        Speak (txt "Restart requested. Say restart confirm to proceed.")].
Proof.
  split; [|split].
  - destruct (confirmation_gate env_offline (txt "shutdown confirm"))
      as [_ H].
    destruct (H eq_refl eq_refl) as [Hs _].
    destruct (Hs eq_refl) as (_ & _ & Hp). exact Hp.
  - destruct (confirmation_gate env_no_programs (txt "Restart, yes"))
      as [_ H].
    destruct (H eq_refl eq_refl) as [_ Hr].
    destruct (Hr eq_refl eq_refl) as (_ & _ & Hp). exact Hp.
  - destruct (confirmation_gate env_offline (txt "Please REBOOT")) as [_ H].
    destruct (H eq_refl eq_refl) as [_ Hr]. exact (Hr eq_refl eq_refl).
Defined.

(** C1 fails as stated: the two "open" branches come first, so a command
    that starts with "open " is handed to [open_application] even when it
    contains "shutdown" and "confirm"; and a command that contains "reboot"
    together with "shutdown" is a shutdown request. *)
Lemma open_prefix_precedes_gate :
  contains (txt "shutdown") (command_lower (txt "open shutdown confirm")) = true
  /\ confirmed (command_lower (txt "open shutdown confirm")) = true
  /\ run (process_command env_offline (txt "open shutdown confirm"))
     = [CallOpenApplication (txt "shutdown confirm");
        Popen [txt "shutdown confirm"] false;
        Log (txt "Opened application: shutdown confirm");
        Speak (txt "Opening shutdown confirm")]
  /\ ~ In (CallSystemShutdown true)
          (run (process_command env_offline (txt "open shutdown confirm")))
  /\ contains (txt "reboot") (command_lower (txt "reboot not shutdown yes")) = true
  /\ ~ In (CallSystemRestart true)
          (run (process_command env_offline (txt "reboot not shutdown yes"))).
Proof.
  repeat split; try (vm_compute; reflexivity);
    vm_compute; intros H;
    repeat (destruct H as [H|H]; [discriminate H|]); exact H.
Qed.

(** C5, as amended: for every command that is not blank the dispatcher does
    what the classification table says, the first matching entry deciding
    and exactly one handler running.  "open folder downloads" is an
    [OpenFolder] with path "downloads": [open_folder] is called on it, no
    application and no URL is opened.  The path is what follows the second
    space of the command, and [expanduser("~")] when the command has fewer
    than two spaces. *)
Theorem dispatch_first_match (E : Env) :
  (forall text w,
      truthy (strip text) = true ->
      process_command E text w = handle E (classify E text) w)
  /\ classify E (txt "open folder downloads") = OpenFolder (txt "downloads")
  /\ (exists rest,
         run (process_command E (txt "open folder downloads"))
         = CallOpenFolder (txt "downloads") :: rest
         /\ Forall (fun e => In (kind_of e) [KProcess; KLog; KSpeak]) rest)
  /\ (forall a b c,
         ~ In 32 a -> ~ In 32 b -> folder_path E (a ++ 32 :: b ++ 32 :: c) = c)
  /\ (forall t,
         (count_occ N.eq_dec t 32%N < 2)%nat ->
         folder_path E t = expanduser E (txt "~")).
Proof.
  split; [|split; [|split; [|split]]].
  - intros text w Ht. now apply process_command_classify.
  - reflexivity.
  - rewrite run_process_command by reflexivity.
    change (classify E (txt "open folder downloads"))
      with (OpenFolder (txt "downloads")).
    change (handle E (OpenFolder (txt "downloads")))
      with (do_open_folder E (txt "downloads")).
    unfold do_open_folder, open_folder.
    rewrite run_bind, result_bind, run_bind.
    2-4: unfold log_message, speak; intros; uniform_tac;
      auto using uniform_popen, uniform_startfile.
    change (result (emit (CallOpenFolder (txt "downloads")))) with (Ret tt).
    cbv iota.
    change (run (emit (CallOpenFolder (txt "downloads"))))
      with [CallOpenFolder (txt "downloads")].
    match goal with
    | |- context [run ?m] =>
        assert (Hm : emits [KProcess; KLog; KSpeak] m)
    end.
    { unfold popen, startfile. emits_tac. }
    destruct (result _) as [[ok msg]|e].
    + eexists. split; [reflexivity|].
      apply Forall_app. split; [apply (emits_run _ _ Hm)|].
      apply (emits_run [KProcess; KLog; KSpeak]).
      unfold log_message, speak. emits_tac.
    + eexists. split; [reflexivity|]. apply (emits_run _ _ Hm).
  - apply folder_path_third.
  - apply folder_path_default.
Qed.

Lemma dispatch_first_match_witness :
  truthy (strip (txt "wiki turing")) = true
  /\ process_command env_offline (txt "wiki turing") w0
     = handle env_offline (classify env_offline (txt "wiki turing")) w0
  /\ folder_path env_offline (txt "open folder my docs") = txt "my docs"
  /\ folder_path env_offline (txt "open folder") = txt "/home/user".
Proof.
  split; [reflexivity|].
  destruct (dispatch_first_match env_offline) as (H1 & _ & _ & H4 & H5).
  split; [apply H1; reflexivity|]. split.
  - apply (H4 (txt "open") (txt "folder") (txt "my docs"));
      vm_compute; intros H;
      repeat (destruct H as [H|H]; [discriminate H|]); exact H.
  - apply (H5 (txt "open folder")). vm_compute. repeat constructor.
Defined.

(** C5 fails as stated on two points: a blank command returns before any
    branch, where the table's last entry would search the web; and the path
    of [OpenFolder] is the rest of the command after its second space, here
    "my docs", not its third whitespace-delimited token "my". *)
Lemma blank_command_and_folder_path :
  run (process_command env_offline (txt "  ")) = []
  /\ run (handle env_offline (classify env_offline (txt "  "))) <> []
  /\ run (process_command env_offline (txt "open folder my docs"))
     = [CallOpenFolder (txt "my docs");
        Popen [txt "xdg-open"; txt "my docs"] false;
        Log (txt "Opened folder: my docs"); Speak (txt "Opened folder.")]
  /\ nth 2 (split_ws (txt "open folder my docs")) [] = txt "my".
Proof. repeat split; vm_compute; congruence. Qed.

(** ** The lookup stages *)

Section Lookups.

Variable E : Env.

Lemma search_wikipedia_spec (q : str) (w : World) :
  search_wikipedia E q w
  = (Ret (match wikipedia_summary E q with
          | Ret s => Some s
          | Raise _ => None
          end),
     push [WikiSummary q WIKI_SENTENCES; WikiSetLang (txt "en")] w).
Proof.
  unfold search_wikipedia, try_catch, bind, emit, lift, ret, push. simpl.
  destruct (wikipedia_summary E q); reflexivity.
Qed.

Lemma fetch_candidate_skipped (url : str) (w : World) :
  skipped E url = true ->
  fetch_candidate E url w = (Ret None, push [HttpGet url 6] w).
Proof.
  unfold skipped, fetch_candidate, try_catch, bind, emit, lift, ret, push.
  simpl. destruct (requests_get E url) as [resp|e]; [|reflexivity].
  destruct (negb (status_code resp =? 200)); [reflexivity|].
  destruct (soup resp); [discriminate|reflexivity].
Qed.

Lemma fetch_candidate_ok (url : str) (resp : response) (pg : page)
      (w : World) :
  requests_get E url = Ret resp -> status_code resp = 200 ->
  soup resp = Ret pg ->
  fetch_candidate E url w = (Ret (Some (answer url pg)), push [HttpGet url 6] w).
Proof.
  intros Hg Hs Hp.
  unfold fetch_candidate, try_catch, bind, emit, lift, ret, push, answer.
  simpl. rewrite Hg, Hs, Hp. simpl.
  destruct (truthy (page_snippet pg)); reflexivity.
Qed.

Lemma fetch_candidate_cases (url : str) :
  (skipped E url = true)
  \/ (exists resp pg,
         requests_get E url = Ret resp /\ status_code resp = 200
         /\ soup resp = Ret pg).
Proof.
  unfold skipped. destruct (requests_get E url) as [resp|e]; [|now left].
  destruct (N.eqb_spec (status_code resp) 200) as [Hs|Hs]; [|now left].
  destruct (soup resp) as [pg|e] eqn:Hp; [|now left].
  right. now exists resp, pg.
Qed.

Lemma fetch_loop_skip (pre rest : list str) (w : World) :
  forallb (skipped E) pre = true ->
  fetch_loop E (pre ++ rest) w
  = fetch_loop E rest (push (rev (map (fun u => HttpGet u 6) pre)) w).
Proof.
  revert w. induction pre as [|u pre IH]; intros w; simpl.
  - intros _. now destruct w.
  - rewrite andb_true_iff. intros [Hu Hpre].
    unfold bind. rewrite fetch_candidate_skipped by assumption.
    rewrite IH by assumption. rewrite push_push. reflexivity.
Qed.

Lemma fetch_loop_nofail (urls : list str) : nofail (fetch_loop E urls).
Proof.
  induction urls as [|u urls IH]; intros w; simpl.
  - now exists None, w.
  - unfold bind.
    destruct (fetch_candidate_cases u) as [Hs|(resp & pg & Hg & Hs & Hp)].
    + rewrite fetch_candidate_skipped by assumption. apply IH.
    + rewrite (fetch_candidate_ok u resp pg) by assumption.
      eexists _, _. reflexivity.
Qed.

(** The URL discovery of [google_first_snippet]. *)
Lemma discover_unavailable (q : str) (w : World) :
  google_search_available E = false ->
  discover E q w = (Ret None, push [BrowserOpen (search_url E q)] w).
Proof.
  intros Ha. unfold discover. rewrite Ha. reflexivity.
Qed.

Lemma discover_raises (q : str) (e : exn) (w : World) :
  google_search_available E = true -> snd (google_search E q) = Some e ->
  discover E q w
  = (Ret None, push [BrowserOpen (search_url E q); GoogleSearch q 5] w).
Proof.
  intros Ha He. unfold discover, google_urls. rewrite Ha.
  unfold try_catch, bind, emit, webbrowser_open, ret, raise, push. simpl.
  rewrite He. reflexivity.
Qed.

Lemma discover_urls (q : str) (w : World) :
  google_search_available E = true -> snd (google_search E q) = None ->
  discover E q w
  = (Ret (Some (fst (google_search E q))), push [GoogleSearch q 5] w).
Proof.
  intros Ha He. unfold discover, google_urls. rewrite Ha.
  unfold try_catch, bind, emit, webbrowser_open, ret, raise, push. simpl.
  rewrite He. reflexivity.
Qed.

Lemma google_first_snippet_nofail (q : str) : nofail (google_first_snippet E q).
Proof.
  intros w. unfold google_first_snippet, bind.
  destruct (google_search_available E) eqn:Ha.
  - destruct (snd (google_search E q)) as [e|] eqn:He.
    + rewrite (discover_raises q e) by assumption. eexists _, _. reflexivity.
    + rewrite discover_urls by assumption. apply fetch_loop_nofail.
  - rewrite discover_unavailable by assumption. eexists _, _. reflexivity.
Qed.

Lemma search_wikipedia_nofail (q : str) : nofail (search_wikipedia E q).
Proof. intros w. rewrite search_wikipedia_spec. eexists _, _. reflexivity. Qed.

Lemma answer_truthy (url : str) (pg : page) : truthy (answer url pg) = true.
Proof.
  unfold answer.
  destruct (truthy (page_snippet pg)); destruct (page_title url pg); reflexivity.
Qed.

Lemma fetch_loop_truthy (urls : list str) (w w' : World) (x : str) :
  fetch_loop E urls w = (Ret (Some x), w') -> truthy x = true.
Proof.
  revert w. induction urls as [|u urls IH]; intros w; simpl.
  - discriminate.
  - unfold bind.
    destruct (fetch_candidate_cases u) as [Hs|(resp & pg & Hg & Hs & Hp)].
    + rewrite fetch_candidate_skipped by assumption. apply IH.
    + rewrite (fetch_candidate_ok u resp pg) by assumption.
      intros H. inversion H. apply answer_truthy.
Qed.

Lemma google_first_snippet_truthy (q : str) (x : str) :
  result (google_first_snippet E q) = Ret (Some x) -> truthy x = true.
Proof.
  unfold result, google_first_snippet, bind.
  destruct (google_search_available E) eqn:Ha.
  - destruct (snd (google_search E q)) as [e|] eqn:He.
    + rewrite (discover_raises q e) by assumption. discriminate.
    + rewrite discover_urls by assumption.
      destruct (fetch_loop E _ _) as [r w'] eqn:Hf. simpl.
      intros ->. eapply fetch_loop_truthy; eauto.
  - rewrite discover_unavailable by assumption. discriminate.
Qed.

End Lookups.

(** ** Claims on the lookup stages *)

(** C3, as amended: the web lookup returns [None] when the search package is
    missing or the URL discovery raises.  Otherwise it passes over the
    candidates whose fetch raises, whose status is not 200 (every non-2xx
    status among them) or whose parse raises, and returns for the first
    other candidate its title, its first paragraph when that is not empty,
    and its URL; when every candidate is passed over it returns [None].  The
    number of candidates plays no part. *)
Theorem web_lookup_first_page (E : Env) (q : str) :
  (google_search_available E = false \/ snd (google_search E q) <> None ->
   result (google_first_snippet E q) = Ret None)
  /\ (google_search_available E = true -> snd (google_search E q) = None ->
      (forall pre u post resp pg,
          fst (google_search E q) = pre ++ u :: post ->
          forallb (skipped E) pre = true ->
          requests_get E u = Ret resp -> status_code resp = 200 ->
          soup resp = Ret pg ->
          result (google_first_snippet E q) = Ret (Some (answer u pg)))
      /\ (forallb (skipped E) (fst (google_search E q)) = true ->
          result (google_first_snippet E q) = Ret None))
  /\ (forall u resp,
         requests_get E u = Ret resp ->
         status_code resp < 200 \/ 300 <= status_code resp ->
         skipped E u = true).
Proof.
  split; [|split].
  - intros H. unfold result, google_first_snippet, bind.
    destruct (google_search_available E) eqn:Ha.
    + destruct H as [H|H]; [discriminate|].
      destruct (snd (google_search E q)) as [e|] eqn:He; [|congruence].
      now rewrite (discover_raises E q e).
    + now rewrite discover_unavailable.
  - intros Ha He. unfold result, google_first_snippet, bind.
    rewrite discover_urls by assumption. split.
    + intros pre u post resp pg -> Hpre Hg Hs Hp.
      rewrite fetch_loop_skip by assumption. simpl. unfold bind.
      now rewrite (fetch_candidate_ok E u resp pg).
    + intros Hall.
      rewrite <- (app_nil_r (fst (google_search E q))).
      now rewrite fetch_loop_skip.
  - intros u resp Hg Hs. unfold skipped. rewrite Hg.
    destruct (N.eqb_spec (status_code resp) 200); [lia|reflexivity].
Qed.

Lemma web_lookup_first_page_witness :
  result (google_first_snippet env_no_search (txt "turing")) = Ret None
  /\ result (google_first_snippet env_two_pages (txt "turing"))
     = Ret (Some (answer (txt "http://one") page_one))
  /\ result (google_first_snippet env_offline (txt "turing")) = Ret None.
Proof.
  split; [|split].
  - apply (proj1 (web_lookup_first_page env_no_search (txt "turing"))).
    left. reflexivity.
  - destruct (web_lookup_first_page env_two_pages (txt "turing"))
      as (_ & H & _).
    destruct (H eq_refl eq_refl) as [Hfirst _].
    apply (Hfirst [] (txt "http://one") [txt "http://two"]
                  (mk_response 200 (Ret page_one)) page_one);
      reflexivity.
  - destruct (web_lookup_first_page env_offline (txt "turing"))
      as (_ & H & _).
    destruct (H eq_refl eq_refl) as [_ Hnone]. apply Hnone. reflexivity.
Defined.

(** C3 fails as stated: a page fetched with status 200 is returned even
    when it has no paragraph, as its title and URL, and the candidates after
    it, here one with a paragraph, are not tried. *)
Lemma page_without_paragraph_returned :
  page_snippet page_one = []
  /\ page_snippet page_two <> []
  /\ result (google_first_snippet env_two_pages (txt "turing"))
     = Ret (Some (txt "Turing" ++ nl ++ nl ++ txt "Source: http://one"))
  /\ run (google_first_snippet env_two_pages (txt "turing"))
     = [GoogleSearch (txt "turing") 5; HttpGet (txt "http://one") 6].
Proof. repeat split; vm_compute; congruence. Qed.

(** C8: neither lookup stage raises, whatever its collaborators do.  An
    exception of [wikipedia.summary] or of the URL discovery makes the stage
    return [None]; one of [requests.get] or of the parser makes the loop go
    on to the next candidate; and a knowledge query runs to its end. *)
Theorem lookups_never_raise (E : Env) (q : str) (w : World) :
  (exists r w', search_wikipedia E q w = (Ret r, w'))
  /\ (exists r w', google_first_snippet E q w = (Ret r, w'))
  /\ (forall e,
         wikipedia_summary E q = Raise e ->
         fst (search_wikipedia E q w) = Ret None)
  /\ (forall e,
         google_search_available E = true ->
         snd (google_search E q) = Some e ->
         fst (google_first_snippet E q w) = Ret None)
  /\ (forall url rest,
         skipped E url = true ->
         fst (fetch_loop E (url :: rest) w)
         = fst (fetch_loop E rest (push [HttpGet url 6] w)))
  /\ (forall text explicit,
         classify E text = KnowledgeQuery explicit q ->
         exists w', process_command E text w = (Ret tt, w')).
Proof.
  split; [apply search_wikipedia_nofail|].
  split; [apply google_first_snippet_nofail|].
  split; [|split; [|split]].
  - intros e He. rewrite search_wikipedia_spec, He. reflexivity.
  - intros e Ha He. unfold google_first_snippet, bind.
    now rewrite (discover_raises E q e).
  - intros url rest Hs. simpl. unfold bind.
    now rewrite fetch_candidate_skipped.
  - intros text explicit Hc.
    destruct (truthy (strip text)) eqn:Ht.
    2:{ rewrite blank_classify in Hc by assumption. discriminate. }
    rewrite process_command_classify, Hc by assumption.
    assert (Hn : nofail (handle E (KnowledgeQuery explicit q))).
    { pose proof search_wikipedia_nofail. pose proof google_first_snippet_nofail.
      destruct explicit; simpl;
        unfold do_wikipedia, do_question, log_message, speak, webbrowser_open;
        nofail_tac; auto. }
    destruct (Hn w) as ([] & w' & ->). now exists w'.
Qed.

Lemma lookups_never_raise_witness :
  fst (search_wikipedia env_offline (txt "turing") w0) = Ret None
  /\ (exists w', process_command env_offline (txt "who is turing") w0
                 = (Ret tt, w')).
Proof.
  destruct (lookups_never_raise env_offline (txt "turing") w0)
    as (_ & _ & H & _).
  split; [apply (H no_such_page); reflexivity|].
  destruct (lookups_never_raise env_offline (txt "who is turing") w0)
    as (_ & _ & _ & _ & _ & Hp).
  apply (Hp (txt "who is turing") false). reflexivity.
Defined.

(** ** Knowledge queries *)

Lemma run_emit_bind {A} (e : event) (k : unit -> M A) :
  (forall a, uniform (k a)) -> run (bind (emit e) k) = e :: run (k tt).
Proof. intros Hk. now rewrite run_bind. Qed.

(** Discharge the uniformity of the rest of a handler. *)
Ltac rest_uniform :=
  intros; unfold log_message, speak, webbrowser_open; uniform_tac;
  auto using uniform_search_wikipedia, uniform_google_first_snippet.

Section Knowledge.

Variable E : Env.

Lemma run_search_wikipedia (q : str) :
  run (search_wikipedia E q) = [WikiSetLang (txt "en"); WikiSummary q WIKI_SENTENCES].
Proof. unfold run. now rewrite search_wikipedia_spec. Qed.

(** What a question does, given what the two stages return. *)
Lemma run_do_question (t : str) (ans web : option str) :
  result (search_wikipedia E t) = Ret ans ->
  result (google_first_snippet E t) = Ret web ->
  run (do_question E t)
  = [Log (txt "Question detected: " ++ t); Speak (txt "Let me look that up.");
     WikiSetLang (txt "en"); WikiSummary t WIKI_SENTENCES]
    ++ (if opt_truthy ans
        then [Log (txt "Wikipedia: " ++ opt_text ans); Speak (opt_text ans)]
        else run (google_first_snippet E t)
             ++ (if opt_truthy web
                 then [Log (opt_text web); Speak (opt_text web)]
                 else [BrowserOpen (search_url E t);
                       Speak (txt "I opened the browser with search results.")])).
Proof.
  intros Ha Hw. unfold do_question, log_message, speak.
  rewrite !run_emit_bind by rest_uniform.
  rewrite run_bind by rest_uniform.
  rewrite Ha, run_search_wikipedia. cbn [app]. do 4 f_equal.
  destruct (opt_truthy ans).
  - now rewrite run_emit_bind by rest_uniform.
  - rewrite run_bind by rest_uniform. rewrite Hw. f_equal.
    destruct (opt_truthy web).
    + now rewrite run_emit_bind by rest_uniform.
    + unfold webbrowser_open. now rewrite run_emit_bind by rest_uniform.
Qed.

(** What an explicit wikipedia query does. *)
Lemma run_do_wikipedia (q : str) (ans web : option str) :
  result (search_wikipedia E q) = Ret ans ->
  result (google_first_snippet E q) = Ret web ->
  run (do_wikipedia E q)
  = [Log (txt "Searching Wikipedia for: " ++ q);
     Speak (txt "Searching Wikipedia for " ++ q);
     WikiSetLang (txt "en"); WikiSummary q WIKI_SENTENCES]
    ++ (if opt_truthy ans
        then [Log (txt "Wikipedia: " ++ opt_text ans); Speak (opt_text ans)]
        else [Log (txt "No Wikipedia result.");
              Speak (txt "I could not find a wikipedia entry. I'll search the web.")]
             ++ run (google_first_snippet E q)
             ++ (if opt_truthy web
                 then [Log (opt_text web); Speak (opt_text web)]
                 else [Speak (txt "I couldn't find an answer.")])).
Proof.
  intros Ha Hw. unfold do_wikipedia, log_message, speak.
  rewrite !run_emit_bind by rest_uniform.
  rewrite run_bind by rest_uniform.
  rewrite Ha, run_search_wikipedia. cbn [app]. do 4 f_equal.
  destruct (opt_truthy ans).
  - now rewrite run_emit_bind by rest_uniform.
  - rewrite !run_emit_bind by rest_uniform.
    rewrite run_bind by rest_uniform. rewrite Hw. cbn [app]. do 3 f_equal.
    destruct (opt_truthy web).
    + now rewrite run_emit_bind by rest_uniform.
    + reflexivity.
Qed.

Lemma google_first_snippet_returns (q : str) :
  exists web, result (google_first_snippet E q) = Ret web.
Proof.
  unfold result.
  destruct (google_first_snippet_nofail E q w0) as (r & w' & ->).
  now exists r.
Qed.

Lemma classify_nonblank (text : str) (explicit : bool) (q : str) :
  classify E text = KnowledgeQuery explicit q -> truthy (strip text) = true.
Proof.
  intros Hc. destruct (truthy (strip text)) eqn:Ht; [reflexivity|].
  rewrite blank_classify in Hc by assumption. discriminate.
Qed.

End Knowledge.

Lemma run_knowledge_query (E : Env) (text : str) (explicit : bool) (q : str)
      (ans web : option str) :
  classify E text = KnowledgeQuery explicit q ->
  result (search_wikipedia E q) = Ret ans ->
  result (google_first_snippet E q) = Ret web ->
  run (process_command E text)
  = announce explicit q ++ wiki_call q
    ++ (if opt_truthy ans
        then [Log (txt "Wikipedia: " ++ opt_text ans); Speak (opt_text ans)]
        else bridge explicit ++ run (google_first_snippet E q)
             ++ (if opt_truthy web
                 then [Log (opt_text web); Speak (opt_text web)]
                 else not_found E explicit q)).
Proof.
  intros Hc Ha Hw.
  rewrite run_process_command by (eapply classify_nonblank; eauto).
  rewrite Hc. destruct explicit; simpl handle.
  - rewrite (run_do_wikipedia E q ans web) by assumption. reflexivity.
  - rewrite (run_do_question E q ans web) by assumption. reflexivity.
Qed.

(** C4: in a knowledge query the structured lookup comes first, on the query
    as given.  When it returns a non-empty text, that text is logged as the
    Wikipedia answer and spoken, and the web stage is not called.  When it
    returns [None] the web stage runs next: its text, if any, is the answer;
    if it returns [None] too, nothing was found, which the dispatcher
    reports. *)
Theorem resolver_chain (E : Env) (text : str) (explicit : bool) (q : str) :
  classify E text = KnowledgeQuery explicit q ->
  (forall a,
      result (search_wikipedia E q) = Ret (Some a) -> truthy a = true ->
      run (process_command E text)
      = announce explicit q ++ wiki_call q
        ++ [Log (txt "Wikipedia: " ++ a); Speak a])
  /\ (forall x,
         result (search_wikipedia E q) = Ret None ->
         result (google_first_snippet E q) = Ret (Some x) ->
         run (process_command E text)
         = announce explicit q ++ wiki_call q ++ bridge explicit
           ++ run (google_first_snippet E q) ++ [Log x; Speak x])
  /\ (result (search_wikipedia E q) = Ret None ->
      result (google_first_snippet E q) = Ret None ->
      run (process_command E text)
      = announce explicit q ++ wiki_call q ++ bridge explicit
        ++ run (google_first_snippet E q) ++ not_found E explicit q).
Proof.
  intros Hc. split; [|split].
  - intros a Ha Ht.
    destruct (google_first_snippet_returns E q) as [web Hw].
    rewrite (run_knowledge_query E text explicit q (Some a) web) by assumption.
    simpl. now rewrite Ht.
  - intros x Ha Hw.
    rewrite (run_knowledge_query E text explicit q None (Some x))
      by assumption.
    simpl. now rewrite (google_first_snippet_truthy E q x Hw).
  - intros Ha Hw.
    now rewrite (run_knowledge_query E text explicit q None None)
      by assumption.
Qed.

Lemma resolver_chain_witness :
  run (process_command env_wiki (txt "who was turing"))
  = announce false (txt "who was turing") ++ wiki_call (txt "who was turing")
    ++ [Log (txt "Wikipedia: Alan Turing was a mathematician.");
        Speak (txt "Alan Turing was a mathematician.")]
  /\ run (process_command env_two_pages (txt "wiki turing"))
     = announce true (txt "turing") ++ wiki_call (txt "turing") ++ bridge true
       ++ run (google_first_snippet env_two_pages (txt "turing"))
       ++ [Log (answer (txt "http://one") page_one);
           Speak (answer (txt "http://one") page_one)]
  /\ run (process_command env_offline (txt "who was turing"))
     = announce false (txt "who was turing") ++ wiki_call (txt "who was turing")
       ++ bridge false
       ++ run (google_first_snippet env_offline (txt "who was turing"))
       ++ not_found env_offline false (txt "who was turing").
Proof.
  split; [|split].
  - apply (proj1 (resolver_chain env_wiki (txt "who was turing") false
                                 (txt "who was turing") eq_refl)
                 (txt "Alan Turing was a mathematician."));
      reflexivity.
  - apply (proj1 (proj2 (resolver_chain env_two_pages (txt "wiki turing") true
                                        (txt "turing") eq_refl)));
      reflexivity.
  - apply (proj2 (proj2 (resolver_chain env_offline (txt "who was turing")
                                        false (txt "who was turing") eq_refl)));
      reflexivity.
Defined.

(** C2, as amended: the structured lookup does nothing but call wikipedia.
    The web lookup opens no browser when the search package is there and the
    URL discovery does not raise; when the package is missing or the
    discovery raises, the web lookup itself opens the browser on the search
    page before it returns [None].  When both stages of a question return
    [None], the dispatcher opens the browser on the search page. *)
Theorem lookup_browser_effects (E : Env) (q : str) :
  run (search_wikipedia E q) = wiki_call q
  /\ (google_search_available E = true -> snd (google_search E q) = None ->
      Forall (fun e => In (kind_of e) [KSearch; KHttp])
             (run (google_first_snippet E q)))
  /\ (google_search_available E = false ->
      run (google_first_snippet E q) = [BrowserOpen (search_url E q)]
      /\ result (google_first_snippet E q) = Ret None)
  /\ (forall e,
         google_search_available E = true ->
         snd (google_search E q) = Some e ->
         run (google_first_snippet E q)
         = [GoogleSearch q 5; BrowserOpen (search_url E q)]
         /\ result (google_first_snippet E q) = Ret None)
  /\ (forall text,
         classify E text = KnowledgeQuery false q ->
         result (search_wikipedia E q) = Ret None ->
         result (google_first_snippet E q) = Ret None ->
         exists before,
           run (process_command E text)
           = before ++ [BrowserOpen (search_url E q);
                        Speak (txt "I opened the browser with search results.")]).
Proof.
  split; [apply run_search_wikipedia|]. split; [|split; [|split]].
  - intros Ha He. unfold run, google_first_snippet, bind.
    rewrite discover_urls by assumption.
    destruct (emits_fetch_loop E (fst (google_search E q))) as [U F].
    rewrite U. unfold trace. simpl. rewrite rev_app_distr. simpl.
    constructor; [simpl; tauto|].
    eapply Forall_impl; [|exact F]. simpl. tauto.
  - intros Ha. unfold run, result, google_first_snippet, bind.
    now rewrite discover_unavailable.
  - intros e Ha He. unfold run, result, google_first_snippet, bind.
    now rewrite (discover_raises E q e).
  - intros text Hc Ha Hw.
    rewrite (run_knowledge_query E text false q None None) by assumption.
    exists (announce false q ++ wiki_call q ++ run (google_first_snippet E q)).
    cbn [opt_truthy bridge not_found]. cbv iota.
    rewrite <- !app_assoc. reflexivity.
Qed.

Lemma lookup_browser_effects_witness :
  Forall (fun e => In (kind_of e) [KSearch; KHttp])
         (run (google_first_snippet env_two_pages (txt "turing")))
  /\ run (google_first_snippet env_no_search (txt "turing"))
     = [BrowserOpen (search_url env_no_search (txt "turing"))]
  /\ (exists before,
         run (process_command env_offline (txt "who was turing"))
         = before ++ [BrowserOpen (search_url env_offline (txt "who was turing"));
                      Speak (txt "I opened the browser with search results.")]).
Proof.
  split; [|split].
  - destruct (lookup_browser_effects env_two_pages (txt "turing"))
      as (_ & H & _).
    apply H; reflexivity.
  - destruct (lookup_browser_effects env_no_search (txt "turing"))
      as (_ & _ & H & _).
    apply H. reflexivity.
  - destruct (lookup_browser_effects env_offline (txt "who was turing"))
      as (_ & _ & _ & _ & H).
    apply (H (txt "who was turing")); reflexivity.
Defined.

(** C2 fails as stated: without the search package the web lookup opens the
    browser itself, so that a question whose two stages fail opens it twice,
    once in the web lookup and once in the dispatcher. *)
Lemma web_lookup_opens_browser :
  run (google_first_snippet env_no_search (txt "turing"))
  = [BrowserOpen (txt "https://www.google.com/search?q=turing")]
  /\ run (process_command env_no_search (txt "who was turing"))
     = [Log (txt "Question detected: who was turing");
        Speak (txt "Let me look that up.");
        WikiSetLang (txt "en"); WikiSummary (txt "who was turing") 2;
        BrowserOpen (txt "https://www.google.com/search?q=who was turing");
        BrowserOpen (txt "https://www.google.com/search?q=who was turing");
        Speak (txt "I opened the browser with search results.")].
Proof. split; vm_compute; reflexivity. Qed.

(** ** The listening loop *)

Lemma emits_process_command (E : Env) (text : str) :
  emits dispatch_kinds (process_command E text).
Proof.
  assert (Hh : forall i, emits dispatch_kinds (handle E i)).
  { intros i.
    destruct i as [path|target|[|]|[|]| | |b q|q];
      try (eapply emits_mono;
           [apply emits_handle_harmless; discriminate | simpl; tauto]);
      simpl; unfold dispatch_kinds, harmless, do_shutdown, do_restart,
        system_shutdown, system_restart, popen, log_message, speak;
      emits_tac. }
  split.
  - apply uniform_process_command.
  - destruct (truthy (strip text)) eqn:Ht.
    + rewrite run_process_command by assumption. apply Hh.
    + unfold run. rewrite blank_process_command by assumption. constructor.
Qed.

Lemma steps_ret {A} ks (a : A) : steps ks (ret a).
Proof. intros w. exists []. simpl. auto. Qed.

Lemma steps_emit ks (e : event) : In (kind_of e) ks -> steps ks (emit e).
Proof. intros H w. exists [e]. simpl. auto. Qed.

Lemma steps_bind {A B} ks (m : M A) (k : A -> M B) :
  steps ks m -> (forall a, steps ks (k a)) -> steps ks (bind m k).
Proof.
  intros Hm Hk w. unfold bind.
  destruct (Hm w) as (l1 & He1 & Hf1 & Hq1).
  destruct (m w) as [[a|e] w1]; simpl in *.
  - destruct (Hk a w1) as (l2 & He2 & Hf2 & Hq2).
    exists (l2 ++ l1). rewrite He2, He1, Hf2, Hf1, app_assoc.
    repeat split; auto. apply Forall_app. auto.
  - exists l1. auto.
Qed.

Lemma steps_emits {A} ks (m : M A) : emits ks m -> steps ks m.
Proof.
  intros [U F] w. rewrite (U w). simpl.
  exists (events (snd (m w0))). repeat split.
  unfold run, trace in F. apply Forall_rev in F.
  now rewrite rev_involutive in F.
Qed.

Lemma steps_mono {A} ks ks' (m : M A) :
  steps ks m -> (forall k, In k ks -> In k ks') -> steps ks' m.
Proof.
  intros H Hi w. destruct (H w) as (l & He & Hf & Hq).
  exists l. repeat split; auto.
  eapply Forall_impl; [|exact Hq]. intros e. apply Hi.
Qed.

Section Loop.

Variable E : Env.

Lemma steps_listen timeout limit : steps [KMic] (listen E timeout limit).
Proof.
  intros w. unfold listen, bind, emit, next_capture, check, ret, raise.
  simpl. exists [CallListen timeout limit].
  destruct (mic_present E); simpl; [|auto].
  destruct (ambient (mic_script E (listen_calls w))); simpl; [auto|].
  destruct (heard (mic_script E (listen_calls w))) as [t|e]; simpl; [auto|].
  destruct (caught_by_listen e); simpl; auto.
Qed.

Lemma steps_loop_body : steps body_kinds (loop_body E).
Proof.
  assert (Hp : forall t, steps body_kinds (process_command E t)).
  { intros t. eapply steps_mono; [apply steps_emits, emits_process_command|].
    simpl. tauto. }
  assert (Hl : forall a b, steps body_kinds (listen E a b)).
  { intros a b. eapply steps_mono; [apply steps_listen|]. simpl. tauto. }
  unfold loop_body, log_message, speak.
  repeat first
    [ apply Hl | apply Hp
    | apply steps_bind; [|intros]
    | apply steps_ret
    | apply steps_emit; simpl; tauto
    | progress cbv zeta
    | match goal with
      | |- steps _ (if ?b then _ else _) => destruct b
      end ].
Qed.

(** The microphone, used for the [n]-th time, gives [None]. *)
Lemma listen_none (timeout limit : N) (w : World) :
  mic_present E = false
  \/ captures_none (mic_script E (listen_calls w)) = true ->
  listen E timeout limit w
  = (Ret None,
     mk_world (CallListen timeout limit :: events w)
              (if mic_present E then S (listen_calls w) else listen_calls w)
              (flag_reads w)).
Proof.
  unfold listen, bind, emit, next_capture, check, ret, raise, captures_none.
  simpl. destruct (mic_present E); simpl; [|reflexivity].
  intros [H|H]; [discriminate|].
  destruct (ambient (mic_script E (listen_calls w))); [discriminate|].
  destruct (heard (mic_script E (listen_calls w))) as [t|e]; [discriminate|].
  simpl. now rewrite H.
Qed.

Lemma after_silence_counts (n : nat) (w : World) :
  flag_reads (after_silence E n w) = (flag_reads w + n)%nat
  /\ listen_calls (after_silence E n w)
     = (if mic_present E then listen_calls w + n else listen_calls w)%nat
  /\ trace (after_silence E n w) = trace w ++ List.concat (repeat cycle n).
Proof.
  revert w. induction n as [|n IH]; intros w; cbn [after_silence].
  - simpl. rewrite !Nat.add_0_r, app_nil_r. destruct (mic_present E); auto.
  - destruct (IH (mk_world (rev cycle ++ events w)
                    (if mic_present E then S (listen_calls w)
                     else listen_calls w)
                    (S (flag_reads w)))) as (Hf & Hl & Ht).
    rewrite Hf, Hl, Ht. cbn [flag_reads listen_calls repeat List.concat].
    unfold trace. cbn [events].
    rewrite rev_app_distr, rev_involutive, <- app_assoc.
    destruct (mic_present E); repeat split; lia.
Qed.

Lemma loop_silent (n k : nat) (w : World) :
  (forall i, (i < n)%nat -> listening_flag E (flag_reads w + i) = true) ->
  (mic_present E = false
   \/ forall i, (i < n)%nat ->
                captures_none (mic_script E (listen_calls w + i)) = true) ->
  _listening_loop E (n + k) w = _listening_loop E k (after_silence E n w).
Proof.
  revert w. induction n as [|n IH]; intros w Hflag Hmic; [reflexivity|].
  cbn [Nat.add _listening_loop after_silence].
  unfold bind at 1. unfold read_listening.
  pose proof (Hflag 0%nat ltac:(lia)) as H0. rewrite Nat.add_0_r in H0.
  rewrite H0. unfold bind at 1. unfold loop_body. unfold bind at 1.
  rewrite listen_none.
  2:{ destruct Hmic as [Hm|Hm]; [now left|right].
      specialize (Hm 0%nat ltac:(lia)). now rewrite Nat.add_0_r in Hm. }
  cbn [opt_truthy emit]. cbv beta iota.
  rewrite IH; [reflexivity| |].
  - intros i Hi. simpl. specialize (Hflag (S i) ltac:(lia)).
    now rewrite Nat.add_succ_r in Hflag.
  - destruct Hmic as [Hm|Hm]; [now left|].
    destruct (mic_present E); [right|now left].
    intros i Hi. simpl. specialize (Hm (S i) ltac:(lia)).
    now rewrite Nat.add_succ_r in Hm.
Qed.

End Loop.

(** C9: while the flag reads true and the microphone gives [None], the loop
    does not raise: each iteration reads the flag once, calls [listen(6, 6)],
    sleeps 0.5 s and goes on to the next.  When the flag then reads false the
    loop stops.  The flag is read at the top of an iteration only: an
    iteration, whatever it hears and dispatches, reads nothing of it, so a
    flag cleared in the meantime is seen when that iteration is over. *)
Theorem listening_loop_backoff (E : Env) (n k : nat) :
  (forall i, (i < n)%nat -> listening_flag E i = true) ->
  (mic_present E = false
   \/ forall i, (i < n)%nat -> captures_none (mic_script E i) = true) ->
  (exists w,
      _listening_loop E (n + k) w0 = _listening_loop E k w
      /\ trace w = List.concat (repeat cycle n)
      /\ flag_reads w = n)
  /\ (listening_flag E n = false ->
      exists w,
        _listening_loop E (n + S k) w0 = (Ret Stopped, w)
        /\ trace w = List.concat (repeat cycle n) ++ [ReadListening false])
  /\ (forall w, exists l,
         events (snd (loop_body E w)) = l ++ events w
         /\ flag_reads (snd (loop_body E w)) = flag_reads w
         /\ Forall (fun e => kind_of e <> KFlag) l)
  /\ (forall w w1,
         listening_flag E (flag_reads w) = true ->
         loop_body E (mk_world (ReadListening true :: events w)
                               (listen_calls w) (S (flag_reads w)))
         = (Ret tt, w1) ->
         listening_flag E (S (flag_reads w)) = false ->
         _listening_loop E (S (S k)) w
         = (Ret Stopped,
            mk_world (ReadListening false :: events w1) (listen_calls w1)
                     (S (S (flag_reads w))))).
Proof.
  intros Hflag Hmic.
  pose proof (loop_silent E n) as Hloop.
  destruct (after_silence_counts E n w0) as (Hf & _ & Ht).
  split; [|split; [|split]].
  - exists (after_silence E n w0). split; [|split].
    + apply Hloop; assumption.
    + exact Ht.
    + exact Hf.
  - intros Hstop. rewrite Hloop by assumption.
    cbn [_listening_loop]. unfold bind, read_listening.
    rewrite Hf. cbn [w0 flag_reads Nat.add]. rewrite Hstop.
    eexists. split; [reflexivity|].
    unfold trace in *. cbn [events rev]. now rewrite Ht.
  - intros w. destruct (steps_loop_body E w) as (l & He & Hfr & Hq).
    exists l. repeat split; auto.
    eapply Forall_impl; [|exact Hq].
    intros e Hin Hk. cbv beta in Hin. rewrite Hk in Hin.
    unfold body_kinds, dispatch_kinds, harmless in Hin.
    repeat (destruct Hin as [Hin|Hin]; [discriminate Hin|]). exact Hin.
  - intros w w1 Htrue Hbody Hfalse.
    cbn [_listening_loop]. unfold bind at 1. unfold read_listening at 1.
    rewrite Htrue. unfold bind at 1. rewrite Hbody.
    unfold bind, read_listening.
    destruct (steps_loop_body E (mk_world (ReadListening true :: events w)
                (listen_calls w) (S (flag_reads w)))) as (l & _ & Hfr & _).
    rewrite Hbody in Hfr. simpl in Hfr. rewrite Hfr, Hfalse. reflexivity.
Qed.

Lemma listening_loop_backoff_witness :
  (exists w,
      _listening_loop env_offline (3 + 1) w0 = (Ret Stopped, w)
      /\ trace w = cycle ++ cycle ++ cycle ++ [ReadListening false]).
Proof.
  assert (Hflag : forall i, (i < 3)%nat -> listening_flag env_offline i = true).
  { intros i Hi. apply Nat.ltb_lt. exact Hi. }
  destruct (listening_loop_backoff env_offline 3 0 Hflag (or_introl eq_refl))
    as (_ & Hstop & _).
  apply Hstop. reflexivity.
Defined.

(** ** A typed command that is only the wakeword *)

Lemma forallb_weaken (f g : char -> bool) (t : str) :
  (forall c, f c = true -> g c = true) ->
  forallb f t = true -> forallb g t = true.
Proof. rewrite !forallb_forall. auto. Qed.

Lemma star_match_consumes (p : char -> bool) (s : str)
      (k : str -> option str) (out : str) :
  star_match p s k = Some out ->
  exists pre rest,
    s = pre ++ rest /\ forallb p pre = true /\ k rest = Some out.
Proof.
  induction s as [|c s IH]; simpl.
  - intros H. now exists [], [].
  - destruct (p c) eqn:Hc.
    + destruct (star_match p s k) as [r|] eqn:Hs.
      * intros Hr. destruct (IH Hr) as (pre & rest & -> & Hp & Hk).
        exists (c :: pre), rest. simpl. rewrite Hc, Hp. auto.
      * intros Hk. now exists [], (c :: s).
    + intros Hk. now exists [], (c :: s).
Qed.

(** A match consumes a prefix made of characters of the pattern, and the
    continuation accepts what follows. *)
Lemma rmatch_consumes (r : regex) :
  forall (s : str) (k : str -> option str) (out : str),
    rmatch r s k = Some out ->
    exists pre rest,
      s = pre ++ rest /\ forallb (re_chars r) pre = true /\ k rest = Some out.
Proof.
  induction r as [|p|r1 IH1 r2 IH2|r1 IH1|p]; intros s k out; simpl.
  - intros H. now exists [], s.
  - destruct s as [|c s]; [discriminate|].
    destruct (p c) eqn:Hc; [|discriminate].
    intros H. exists [c], s. simpl. now rewrite Hc.
  - intros H. apply IH1 in H as (pre1 & rest1 & -> & Hp1 & H).
    apply IH2 in H as (pre2 & rest2 & -> & Hp2 & H).
    exists (pre1 ++ pre2), rest2. rewrite app_assoc. repeat split; auto.
    rewrite forallb_app. apply andb_true_iff. split.
    + eapply forallb_weaken; [|exact Hp1]. intros c ->. reflexivity.
    + eapply forallb_weaken; [|exact Hp2]. intros c ->. apply orb_true_r.
  - destruct (rmatch r1 s k) as [o|] eqn:Hr.
    + intros Ho. apply IH1 in Hr as (pre & rest & -> & Hp & Hk).
      exists pre, rest. repeat split; auto. congruence.
    + intros H. now exists [], s.
  - apply star_match_consumes.
Qed.

Lemma rstrip_nil (t : str) : rstrip t = [] -> forallb isspace t = true.
Proof.
  induction t as [|c t IH]; simpl; auto.
  destruct (rstrip t); [|discriminate].
  destruct (isspace c); [|discriminate]. auto.
Qed.

Lemma lstrip_spaces (t : str) :
  forallb isspace (lstrip t) = true -> forallb isspace t = true.
Proof.
  induction t as [|c t IH]; simpl; auto.
  destruct (isspace c) eqn:Hc; simpl; auto.
  now rewrite Hc.
Qed.

Lemma strip_nil (t : str) : strip t = [] -> forallb isspace t = true.
Proof. intros H. apply lstrip_spaces, rstrip_nil, H. Qed.

Lemma lit_i_cases (l c : char) :
  lit_i l c = true ->
  c = l \/ c = l - 32 \/ c = 0x130 \/ c = 0x131 \/ c = 0x17F.
Proof.
  unfold lit_i. rewrite !orb_true_iff, !andb_true_iff, !orb_true_iff, !N.eqb_eq.
  tauto.
Qed.

Lemma word_i_chars (w : str) (c : char) :
  re_chars (word_i w) c = true -> exists l, In l w /\ lit_i l c = true.
Proof.
  induction w as [|l w IH]; simpl; [discriminate|].
  rewrite orb_true_iff. intros [H|H].
  - exists l. auto.
  - destruct (IH H) as (l' & Hin & Hl). exists l'. auto.
Qed.

Lemma word_i_wake_char (w : str) (c : char) :
  forallb (fun l => existsb (N.eqb l) (txt "heyjarvis")) w = true ->
  re_chars (word_i w) c = true -> wake_char c = true.
Proof.
  intros Hw Hc. apply word_i_chars in Hc as (l & Hin & Hl).
  rewrite forallb_forall in Hw. specialize (Hw l Hin).
  apply existsb_exists in Hw as (x & Hx & Heq). apply N.eqb_eq in Heq.
  subst x. apply lit_i_cases in Hl.
  unfold wake_char. apply orb_true_iff. right.
  repeat (destruct Hx as [Hx|Hx];
          [subst l;
           repeat (destruct Hl as [Hl|Hl]; [subst c; reflexivity|]);
           subst c; reflexivity|]).
  destruct Hx.
Qed.

Lemma wake_re_chars (c : char) : re_chars wake_re c = true -> wake_char c = true.
Proof.
  unfold wake_re, plus. cbn [re_chars].
  rewrite !orb_true_iff.
  assert (Hsp : isspace c = true -> wake_char c = true).
  { intros H. unfold wake_char. now rewrite H. }
  assert (Hcm : is_comma c = true -> wake_char c = true).
  { unfold is_comma. rewrite N.eqb_eq. intros ->. reflexivity. }
  assert (Hse : is_sep c = true -> wake_char c = true).
  { unfold is_sep. rewrite !orb_true_iff, !N.eqb_eq.
    intros [[[->| ->]|H]| ->]; auto. }
  intros [H|[[H|[H|[H|H]]]|[H|H]]]; auto;
    (eapply word_i_wake_char; [|exact H]); reflexivity.
Qed.

Lemma wake_char_lower (c : char) :
  wake_char c = true -> forallb wake_lower (lower_char c) = true.
Proof.
  unfold wake_char. rewrite orb_true_iff. intros [H|H].
  - rewrite isspace_lower_char by assumption.
    simpl. unfold wake_lower. now rewrite H.
  - apply existsb_exists in H as (x & Hx & Heq). apply N.eqb_eq in Heq.
    subst x.
    repeat (destruct Hx as [Hx|Hx]; [subst c; reflexivity|]).
    destruct Hx.
Qed.

Lemma lower_wake (s : str) :
  forallb wake_char s = true -> forallb wake_lower (lower s) = true.
Proof.
  intros H. rewrite lower_flat.
  - induction s as [|c s IH]; [reflexivity|].
    simpl in *. rewrite andb_true_iff in H. destruct H as [Hc Hs].
    rewrite forallb_app, IH by assumption.
    now rewrite wake_char_lower.
  - intros Hin. rewrite forallb_forall in H. specialize (H _ Hin).
    discriminate H.
Qed.

Lemma wakeword_only_chars (t : str) :
  truthy (strip t) = true -> strip_wakeword t = [] ->
  forallb wake_lower (command_lower t) = true.
Proof.
  intros Ht Hs. unfold command_lower. apply forallb_strip.
  assert (Hn : forallb wake_char (strip t) = true).
  { unfold strip_wakeword in Hs.
    destruct t as [|c t]; [discriminate Ht|]. cbn [truthy negb] in Hs.
    cbv zeta in Hs.
    assert (He : strip (sub_prefix wake_re (strip (c :: t))) = []).
    { destruct (strip (sub_prefix wake_re (strip (c :: t)))); [reflexivity|].
      discriminate Hs. }
    unfold sub_prefix in He.
    destruct (rmatch wake_re (strip (c :: t)) (fun rest => Some rest))
      as [rest|] eqn:Hm.
    - apply rmatch_consumes in Hm as (pre & rest' & Heq & Hp & Hk).
      inversion Hk. subst rest'. rewrite Heq, forallb_app.
      apply andb_true_iff. split.
      + eapply forallb_weaken; [|exact Hp]. apply wake_re_chars.
      + eapply forallb_weaken; [|apply strip_nil, He].
        intros d Hd. unfold wake_char. now rewrite Hd.
    - rewrite strip_idem in He. rewrite He in Ht. discriminate Ht. }
  now apply lower_wake.
Qed.

Lemma wakeword_only_generic (E : Env) (t : str) :
  forallb wake_lower (command_lower t) = true ->
  classify E t = GenericSearch (strip t).
Proof.
  intros H. unfold classify, rules, first_match, is_question, question_words.
  cbv beta iota. cbn [existsb].
  rewrite !(starts_with_outside wake_lower _ (command_lower t) H)
    by reflexivity.
  rewrite !(contains_outside wake_lower _ (command_lower t) H) by reflexivity.
  rewrite !(token_outside wake_lower _ (command_lower t) H) by reflexivity.
  reflexivity.
Qed.

(** C10: a typed entry that, once trimmed, has the wakeword and is stripped
    by [strip_wakeword] to the empty string is dispatched as it was typed:
    [on_command] clears the entry, logs the trimmed text as the command and
    passes it to [process_command], where no earlier branch matches and the
    last one searches the web for it. *)
Theorem typed_bare_wakeword (E : Env) (entry : str) :
  truthy (strip entry) = true ->
  has_wakeword (strip entry) = true ->
  strip_wakeword (strip entry) = [] ->
  classify E (strip entry) = GenericSearch (strip entry)
  /\ run (on_command E entry)
     = EntryDelete :: Log (txt "Command: " ++ strip entry)
         :: run (process_command E (strip entry))
  /\ run (process_command E (strip entry)) = run (do_web_search E (strip entry))
  /\ exists rest,
      run (do_web_search E (strip entry))
      = Log (txt "No direct action matched. Searching web for: " ++ strip entry)
          :: Speak (txt "Searching the web for " ++ strip entry) :: rest.
Proof.
  intros Ht Hw Hs.
  assert (Ht' : truthy (strip (strip entry)) = true) by now rewrite strip_idem.
  assert (Hc : classify E (strip entry) = GenericSearch (strip entry)).
  { rewrite wakeword_only_generic by now apply wakeword_only_chars.
    now rewrite strip_idem. }
  split; [exact Hc|]. split; [|split].
  - unfold on_command. rewrite Ht, Hw, Hs. cbn [negb truthy].
    unfold log_message.
    rewrite !run_emit_bind; auto using uniform_process_command.
    intros; uniform_tac; auto using uniform_process_command.
  - rewrite run_process_command by assumption. now rewrite Hc.
  - unfold do_web_search, log_message, speak.
    rewrite !run_emit_bind.
    + eexists. reflexivity.
    + intros. unfold open_first_result, webbrowser_open, log_message, speak.
      uniform_tac; auto using uniform_google_urls.
    + intros. unfold open_first_result, webbrowser_open, log_message, speak.
      uniform_tac; auto using uniform_google_urls.
Qed.

Lemma typed_bare_wakeword_witness :
  run (on_command env_offline (txt " Hey, Jarvis: "))
  = EntryDelete :: Log (txt "Command: Hey, Jarvis:")
      :: run (do_web_search env_offline (txt "Hey, Jarvis:")).
Proof.
  destruct (typed_bare_wakeword env_offline (txt " Hey, Jarvis: ")
                                eq_refl eq_refl eq_refl)
    as (_ & H1 & H2 & _).
  rewrite H1, H2. reflexivity.
Defined.

(** * Further properties of the code *)

(** ** Whitespace around a text *)

Lemma lstrip_pad (a t : str) :
  forallb isspace a = true -> lstrip (a ++ t) = lstrip t.
Proof.
  induction a as [|c a IH]; simpl; auto.
  rewrite andb_true_iff. intros [-> Ha]. auto.
Qed.

Lemma rstrip_spaces (b : str) : forallb isspace b = true -> rstrip b = [].
Proof.
  induction b as [|c b IH]; simpl; auto.
  rewrite andb_true_iff. intros [-> Hb]. now rewrite IH.
Qed.

Lemma rstrip_pad (t b : str) :
  forallb isspace b = true -> rstrip (t ++ b) = rstrip t.
Proof.
  intros Hb. induction t as [|c t IH]; simpl.
  - now apply rstrip_spaces.
  - now rewrite IH.
Qed.

Lemma lstrip_spaces_nil (b : str) : forallb isspace b = true -> lstrip b = [].
Proof.
  induction b as [|c b IH]; simpl; auto.
  rewrite andb_true_iff. intros [-> Hb]. auto.
Qed.

Lemma strip_pad (a t b : str) :
  forallb isspace a = true -> forallb isspace b = true ->
  strip (a ++ t ++ b) = strip t.
Proof.
  intros Ha Hb. unfold strip. rewrite lstrip_pad by assumption.
  induction t as [|c t IH]; simpl.
  - now rewrite lstrip_spaces_nil.
  - destruct (isspace c); [exact IH|].
    apply (rstrip_pad (c :: t) b Hb).
Qed.

(** A text is its trimmed form between two runs of whitespace. *)
Lemma lstrip_split (t : str) :
  exists a, t = a ++ lstrip t /\ forallb isspace a = true.
Proof.
  induction t as [|c t (a & Ht & Ha)]; simpl.
  - now exists [].
  - destruct (isspace c) eqn:Hc.
    + exists (c :: a). simpl. rewrite Hc, Ha. split; [congruence|reflexivity].
    + now exists [].
Qed.

Lemma rstrip_split (t : str) :
  exists b, t = rstrip t ++ b /\ forallb isspace b = true.
Proof.
  induction t as [|c t (b & Ht & Hb)]; simpl.
  - now exists [].
  - destruct (rstrip t) as [|d r] eqn:Hr.
    + destruct (isspace c) eqn:Hc.
      * exists (c :: t). simpl. rewrite Hc. split; [reflexivity|].
        now apply rstrip_nil.
      * exists b. simpl in *. split; [congruence|assumption].
    + exists b. simpl in *. split; [congruence|assumption].
Qed.

Lemma strip_split (t : str) :
  exists a b,
    t = a ++ strip t ++ b
    /\ forallb isspace a = true /\ forallb isspace b = true.
Proof.
  destruct (lstrip_split t) as (a & Ht & Ha).
  destruct (rstrip_split (lstrip t)) as (b & Hl & Hb).
  exists a, b. unfold strip. now rewrite <- Hl.
Qed.

Lemma filter_spaces (a : str) :
  forallb isspace a = true ->
  filter (fun c => is_word c || isspace c) a = a.
Proof.
  induction a as [|c a IH]; simpl; auto.
  rewrite andb_true_iff. intros [Hc Ha].
  rewrite Hc, orb_true_r. f_equal. auto.
Qed.

Lemma spaces_settled (a : str) :
  forallb isspace a = true -> forallb settled a = true.
Proof.
  intros H. rewrite forallb_forall in *. intros c Hc. specialize (H c Hc).
  destruct (isspace_plain c H) as (Hl & Hs & _).
  unfold settled, kept. now rewrite H, Hs, Hl, text_eqb_refl, orb_true_r.
Qed.

Lemma lower_spaces (a : str) : forallb isspace a = true -> lower a = a.
Proof. intros H. now apply lower_settled, spaces_settled. Qed.

(** Whitespace is where the search for a cased character ends. *)
Lemma cased_next_stop (p q : str) (s : char) :
  isspace s = true -> cased_next (p ++ s :: q) = cased_next p.
Proof.
  intros Hs. induction p as [|c p IH]; cbn [app cased_next].
  - now destruct (isspace_plain s Hs) as (_ & _ & -> & ->).
  - now destruct (is_case_ignorable c).
Qed.

Lemma cased_next_spaces (p b : str) :
  forallb isspace b = true -> cased_next (p ++ b) = cased_next p.
Proof.
  destruct b as [|s b]; [now rewrite app_nil_r|].
  cbn [forallb]. rewrite andb_true_iff. intros [Hs _].
  now apply cased_next_stop.
Qed.

(** The text before matters to [lower_from] through [cased_next] only. *)
Lemma lower_from_before (b1 b2 t : str) :
  (forall p, cased_next (p ++ b1) = cased_next (p ++ b2)) ->
  lower_from b1 t = lower_from b2 t.
Proof.
  revert b1 b2. induction t as [|c t IH]; intros b1 b2 H; [reflexivity|].
  cbn [lower_from]. f_equal.
  - unfold final_sigma. specialize (H []). cbn [app] in H. now rewrite H.
  - apply IH. intros p. specialize (H (p ++ [c])).
    now rewrite <- !app_assoc in H.
Qed.

Lemma lower_from_spaces_after (before t b : str) :
  forallb isspace b = true ->
  lower_from before (t ++ b) = lower_from before t ++ b.
Proof.
  intros Hb. revert before. induction t as [|c t IH]; intros before.
  - cbn [app lower_from]. now apply lower_from_settled, spaces_settled.
  - cbn [app lower_from]. rewrite IH. unfold final_sigma.
    rewrite (cased_next_spaces t b Hb). now rewrite app_assoc.
Qed.

Lemma lower_from_spaces_before (before a t : str) :
  forallb isspace a = true ->
  lower_from before (a ++ t) = a ++ lower_from (rev a ++ before) t.
Proof.
  revert before. induction a as [|c a IH]; intros before; [reflexivity|].
  cbn [forallb]. rewrite andb_true_iff. intros [Hc Ha].
  cbn [app lower_from]. destruct (isspace_plain c Hc) as (-> & -> & _).
  cbn [app]. f_equal. rewrite IH by assumption. cbn [rev].
  now rewrite <- app_assoc.
Qed.

(** Whitespace around a text stays where it is and leaves the lowercase of
    the text as it is. *)
Lemma lower_pad (a t b : str) :
  forallb isspace a = true -> forallb isspace b = true ->
  lower (a ++ t ++ b) = a ++ lower t ++ b.
Proof.
  intros Ha Hb. unfold lower.
  rewrite lower_from_spaces_before, lower_from_spaces_after by assumption.
  rewrite app_nil_r. f_equal. f_equal.
  apply lower_from_before. intros p. rewrite app_nil_r.
  apply cased_next_spaces.
  rewrite forallb_forall in *. intros c Hc. apply Ha. now apply in_rev.
Qed.

Lemma normalize_text_pad (a t b : str) :
  forallb isspace a = true -> forallb isspace b = true ->
  normalize_text (a ++ t ++ b) = normalize_text t.
Proof.
  intros Ha Hb. unfold normalize_text.
  rewrite !filter_app, (filter_spaces a Ha), (filter_spaces b Hb).
  rewrite (lower_pad a _ b Ha Hb).
  now apply strip_pad.
Qed.

(** X1: whitespace around a text changes neither its normal form nor what
    the wakeword helpers make of it: [normalize_text], [has_wakeword] and
    [strip_wakeword] give on a text that is not blank what they give on its
    trimmed form. *)
Theorem wakeword_helpers_ignore_padding (t : str) :
  truthy (strip t) = true ->
  normalize_text (strip t) = normalize_text t
  /\ has_wakeword (strip t) = has_wakeword t
  /\ strip_wakeword (strip t) = strip_wakeword t.
Proof.
  intros Ht.
  assert (Hn : normalize_text (strip t) = normalize_text t).
  { destruct (strip_split t) as (a & b & Heq & Ha & Hb).
    rewrite Heq at 2. symmetry. now apply normalize_text_pad. }
  assert (Hne : truthy t = true).
  { destruct t; [discriminate Ht|reflexivity]. }
  split; [exact Hn|]. split.
  - unfold has_wakeword. rewrite Ht, Hne, Hn. reflexivity.
  - unfold strip_wakeword. rewrite Ht, Hne, strip_idem. reflexivity.
Qed.

Lemma wakeword_helpers_ignore_padding_witness :
  has_wakeword (strip (txt "  Hey Jarvis, open chrome "))
  = has_wakeword (txt "  Hey Jarvis, open chrome ").
Proof.
  apply (wakeword_helpers_ignore_padding (txt "  Hey Jarvis, open chrome ")).
  reflexivity.
Defined.

(** X2: [strip_wakeword] rewrites nothing: its result is a part of the text
    as it was given, followed in it by whitespace only, and is itself
    trimmed. *)
Theorem strip_wakeword_is_suffix (t : str) :
  (exists a b,
      t = a ++ strip_wakeword t ++ b /\ forallb isspace b = true)
  /\ strip (strip_wakeword t) = strip_wakeword t.
Proof.
  unfold strip_wakeword. destruct (truthy t) eqn:Ht; cbn [negb].
  2:{ destruct t; [|discriminate Ht]. split; [now exists [], []|reflexivity]. }
  cbv zeta.
  destruct (truthy (strip (sub_prefix wake_re (strip t)))) eqn:Hs.
  2:{ split; [|reflexivity]. exists t, []. now rewrite app_nil_r. }
  split; [|apply strip_idem].
  destruct (strip_split t) as (a & b & Heq & Ha & Hb).
  unfold sub_prefix.
  destruct (rmatch wake_re (strip t) (fun rest => Some rest)) as [rest|] eqn:Hm.
  - apply rmatch_consumes in Hm as (pre & rest' & Hpre & _ & Hk).
    inversion Hk. subst rest'.
    destruct (strip_split rest) as (a' & b' & Hr & Ha' & Hb').
    exists (a ++ pre ++ a'), (b' ++ b). split.
    + rewrite Heq at 1. rewrite Hpre. rewrite Hr at 1.
      now rewrite <- !app_assoc.
    + rewrite forallb_app, Hb', Hb. reflexivity.
  - rewrite strip_idem. now exists a, b.
Qed.

(** X3: on a text without the capital I with dot above (U+0130), so on
    every text of ASCII characters, the wakeword test sees the normal form
    only: it gives the same on the text and on its normal form. *)
Theorem has_wakeword_normal_form (t : str) :
  ~ In 0x130 t ->
  has_wakeword (normalize_text t) = has_wakeword t.
Proof.
  intros Ha. pose proof (normalize_text_settled t Ha) as Hs.
  destruct (normalize_text t) as [|c n] eqn:Hn.
  - unfold has_wakeword. destruct t; [reflexivity|].
    cbn [truthy negb]. cbv zeta. rewrite Hn. reflexivity.
  - unfold has_wakeword at 1. cbn [truthy negb]. cbv zeta.
    rewrite (normalize_settled _ Hs), <- Hn.
    unfold normalize_text at 1 2. rewrite strip_idem.
    fold (normalize_text t).
    unfold has_wakeword. destruct t; [discriminate Hn|reflexivity].
Qed.

Lemma has_wakeword_normal_form_witness :
  has_wakeword (normalize_text (txt "Hey, JARVIS! " ++ [0xC7; 0x61; 0x3F]))
  = has_wakeword (txt "Hey, JARVIS! " ++ [0xC7; 0x61; 0x3F]).
Proof.
  apply (has_wakeword_normal_form (txt "Hey, JARVIS! " ++ [0xC7; 0x61; 0x3F])).
  simpl. intros H.
  repeat (destruct H as [H|H]; [discriminate H|]). exact H.
Defined.

(** ** Further properties of the dispatcher *)

(** X4: a command is dispatched as its trimmed form: whitespace before and
    after it changes nothing of what [process_command] does. *)
Theorem process_command_ignores_padding (E : Env) (a text b : str) (w : World) :
  forallb isspace a = true -> forallb isspace b = true ->
  process_command E (a ++ text ++ b) w = process_command E text w.
Proof.
  intros Ha Hb. unfold process_command. now rewrite strip_pad.
Qed.

Lemma process_command_ignores_padding_witness :
  process_command env_offline (txt "  " ++ txt "wiki turing" ++ txt " ") w0
  = process_command env_offline (txt "wiki turing") w0.
Proof.
  apply (process_command_ignores_padding env_offline (txt "  ")
           (txt "wiki turing") (txt " ") w0); reflexivity.
Defined.

Lemma filter_power_harmless (l : list event) :
  Forall (fun e => In (kind_of e) harmless) l -> filter is_power_call l = [].
Proof.
  induction 1 as [|e l He _ IH]; [reflexivity|].
  simpl. rewrite IH.
  destruct e; try reflexivity; exfalso; unfold harmless in He; simpl in He;
    repeat (destruct He as [He|He]; [discriminate He|]); exact He.
Qed.

Lemma filter_power_tail (os : list event) (msg fb : str) :
  os = [] \/ (exists argv, os = [Popen argv false]) ->
  filter is_power_call (os ++ [Log msg; Speak fb]) = [].
Proof. intros [->|[argv ->]]; reflexivity. Qed.

Lemma classify_open (E : Env) (text : str) :
  starts_with (txt "open ") (command_lower text) = true
  \/ starts_with (txt "launch ") (command_lower text) = true ->
  (exists path, classify E text = OpenFolder path)
  \/ (exists target, classify E text = OpenAppOrUrl target).
Proof.
  intros H. unfold classify, rules, first_match. cbv beta iota.
  destruct (starts_with (txt "open folder") (command_lower text)
            || starts_with (txt "open directory") (command_lower text)).
  - left. eexists. reflexivity.
  - right. destruct H as [-> | ->]; rewrite ?orb_true_r; eexists; reflexivity.
Qed.

Lemma classify_restart_no_shutdown (E : Env) (text : str) (c : bool) :
  classify E text = Restart c ->
  contains (txt "shutdown") (command_lower text) = false.
Proof.
  unfold classify, rules, first_match. cbv beta iota.
  repeat match goal with
         | |- context [if ?b then _ else _] => destruct b eqn:?
         end; intros H; try discriminate H; reflexivity.
Qed.

(** X5: a command reaches the power functions at most once: the events of
    [process_command] hold at most one entry of [system_shutdown] or
    [system_restart]; none at all when the command starts with "open " or
    "launch "; and no entry of [system_restart] when it contains
    "shutdown". *)
Theorem one_power_call_at_most (E : Env) (text : str) :
  (List.length (filter is_power_call (run (process_command E text))) <= 1)%nat
  /\ (starts_with (txt "open ") (command_lower text) = true
      \/ starts_with (txt "launch ") (command_lower text) = true ->
      filter is_power_call (run (process_command E text)) = [])
  /\ (contains (txt "shutdown") (command_lower text) = true ->
      forall c, ~ In (CallSystemRestart c) (run (process_command E text))).
Proof.
  destruct (truthy (strip text)) eqn:Ht.
  2:{ unfold run. rewrite blank_process_command by assumption.
      repeat split; simpl; auto. }
  rewrite run_process_command by assumption.
  assert (Hh : forall i, i <> Shutdown true -> i <> Restart true ->
                         filter is_power_call (run (handle E i)) = []).
  { intros i H1 H2. apply filter_power_harmless.
    apply (emits_run harmless). now apply emits_handle_harmless. }
  split; [|split].
  - destruct (classify E text) as [path|target|[|]|[|]| | |b q|q];
      try (rewrite Hh by discriminate; simpl; lia).
    + change (handle E (Shutdown true)) with (do_shutdown E true).
      destruct (run_do_shutdown E) as (os & msg & -> & Hos).
      simpl. rewrite filter_power_tail by assumption. simpl. lia.
    + change (handle E (Restart true)) with (do_restart E true).
      destruct (run_do_restart E) as (os & msg & -> & Hos).
      simpl. rewrite filter_power_tail by assumption. simpl. lia.
  - intros Ho. destruct (classify_open E text Ho) as [[p ->]|[t ->]];
      apply Hh; discriminate.
  - intros Hs c Hin.
    destruct (classify E text) as [path|target|[|]|[|]| | |b q|q] eqn:Hc.
    5,6: apply classify_restart_no_shutdown in Hc; congruence.
    3:{ change (handle E (Shutdown true)) with (do_shutdown E true) in Hin.
        destruct (run_do_shutdown E) as (os & msg & Hr & Hos).
        rewrite Hr in Hin. destruct Hin as [Hin|Hin]; [discriminate Hin|].
        apply in_app_or in Hin as [Hin|Hin].
        - destruct Hos as [->|[argv ->]];
            simpl in Hin; intuition discriminate.
        - simpl in Hin. intuition discriminate. }
    all: match type of Hin with
         | In _ (run (handle _ ?i)) =>
             assert (Hf : filter is_power_call (run (handle E i)) = [])
               by (apply Hh; discriminate);
             assert (Hin' : In (CallSystemRestart c)
                               (filter is_power_call (run (handle E i))))
               by (apply filter_In; split; [exact Hin|reflexivity]);
             rewrite Hf in Hin'; exact Hin'
         end.
Qed.

Lemma one_power_call_at_most_witness :
  filter is_power_call
         (run (process_command env_offline (txt "open shutdown confirm"))) = []
  /\ ~ In (CallSystemRestart true)
          (run (process_command env_offline (txt "restart after shutdown yes"))).
Proof.
  split.
  - apply (proj1 (proj2 (one_power_call_at_most env_offline
                           (txt "open shutdown confirm")))).
    left. reflexivity.
  - apply (proj2 (proj2 (one_power_call_at_most env_offline
                           (txt "restart after shutdown yes")))).
    reflexivity.
Defined.

(** ** Which commands can raise *)

Section NoFail.

Variable E : Env.

Lemma nofail_open_folder path : nofail (open_folder E path).
Proof. unfold open_folder. nofail_tac. Qed.

Lemma nofail_system_shutdown c : nofail (system_shutdown E c).
Proof. unfold system_shutdown. nofail_tac. Qed.

Lemma nofail_system_restart c : nofail (system_restart E c).
Proof. unfold system_restart. nofail_tac. Qed.

Lemma nofail_do_screenshot : nofail (do_screenshot E).
Proof. unfold do_screenshot, log_message, speak. nofail_tac. Qed.

Lemma nofail_capture_photo : nofail (capture_photo E).
Proof. unfold capture_photo, log_message, speak. nofail_tac. Qed.

Lemma nofail_do_web_search q : nofail (do_web_search E q).
Proof.
  unfold do_web_search, open_first_result, webbrowser_open, log_message, speak.
  nofail_tac.
Qed.

(** Apart from the text editors, [open_application] returns. *)
Lemma nofail_open_application name :
  names_editor name = false -> nofail (open_application E name).
Proof.
  unfold names_editor, open_application, webbrowser_open. intros H.
  cbv zeta. rewrite H. nofail_tac.
Qed.

Lemma nofail_handle (i : Intent) :
  (forall target, i = OpenAppOrUrl target ->
                  starts_with (txt "http") target = true
                  \/ names_editor target = false) ->
  nofail (handle E i).
Proof.
  intros Hi.
  pose proof nofail_open_folder. pose proof nofail_system_shutdown.
  pose proof nofail_system_restart.
  pose proof (search_wikipedia_nofail E).
  pose proof (google_first_snippet_nofail E).
  destruct i as [path|target|c|c| | |[|] q|q]; simpl.
  - unfold do_open_folder, log_message, speak. nofail_tac; auto.
  - unfold do_open_target, webbrowser_open, log_message, speak.
    destruct (starts_with (txt "http") target) eqn:Hh; [nofail_tac|].
    destruct (Hi target eq_refl) as [Hc|Hc]; [congruence|].
    pose proof (nofail_open_application target Hc). nofail_tac; auto.
  - unfold do_shutdown, log_message, speak. nofail_tac; auto.
  - unfold do_restart, log_message, speak. nofail_tac; auto.
  - apply nofail_do_screenshot.
  - apply nofail_capture_photo.
  - unfold do_wikipedia, log_message, speak. nofail_tac; auto.
  - unfold do_question, webbrowser_open, log_message, speak. nofail_tac; auto.
  - apply nofail_do_web_search.
Qed.

End NoFail.

(** X6: [process_command] raises in one case only: the command is an open
    or launch command whose target is not a URL and contains "notepad" or
    "text" in any case, the branch of [open_application] whose launch is
    outside any [try].  Every other command runs to its end whatever the
    collaborators do. *)
Theorem process_command_raises_only_for_editor
        (E : Env) (text : str) (w w' : World) (e : exn) :
  process_command E text w = (Raise e, w') ->
  exists target,
    classify E text = OpenAppOrUrl target
    /\ starts_with (txt "http") target = false
    /\ names_editor target = true.
Proof.
  intros Hr.
  destruct (truthy (strip text)) eqn:Ht.
  2:{ rewrite blank_process_command in Hr by assumption. discriminate Hr. }
  rewrite process_command_classify in Hr by assumption.
  destruct (classify E text) as [path|target|c|c| | |b q|q] eqn:Hc.
  2:{ exists target. split; [reflexivity|].
      destruct (starts_with (txt "http") target) eqn:Hh;
        [|destruct (names_editor target) eqn:Hn; [auto|]].
      - destruct (nofail_handle E (OpenAppOrUrl target)
                    ltac:(intros t Ht'; inversion Ht'; subst; auto) w)
          as (a & w1 & Ha).
        rewrite Ha in Hr. discriminate Hr.
      - destruct (nofail_handle E (OpenAppOrUrl target)
                    ltac:(intros t Ht'; inversion Ht'; subst; auto) w)
          as (a & w1 & Ha).
        rewrite Ha in Hr. discriminate Hr. }
  all: match type of Hr with
       | handle _ ?i _ = _ =>
           destruct (nofail_handle E i ltac:(intros t Ht'; discriminate Ht') w)
             as (a & w1 & Ha);
           rewrite Ha in Hr; discriminate Hr
       end.
Qed.

Lemma process_command_raises_only_for_editor_witness :
  exists target,
    classify env_no_programs (txt "open My Text Editor") = OpenAppOrUrl target
    /\ starts_with (txt "http") target = false
    /\ names_editor target = true.
Proof.
  apply (process_command_raises_only_for_editor env_no_programs
           (txt "open My Text Editor") w0
           (snd (process_command env_no_programs (txt "open My Text Editor") w0))
           no_such_file).
  reflexivity.
Defined.

Lemma run_do_web_search (E : Env) (q : str) :
  exists before after,
    run (do_web_search E q) = before ++ BrowserOpen (page_opened E q) :: after
    /\ filter is_browser_open before = []
    /\ filter is_browser_open after = [].
Proof.
  unfold page_opened, first_result, run, trace, do_web_search,
    open_first_result, google_urls, webbrowser_open, log_message, speak,
    bind, try_catch, emit, ret, raise.
  destruct (google_search_available E); cbn -[txt search_url].
  - destruct (google_search E q) as [[|u urls] [e|]]; cbn -[txt search_url].
    all: first
      [ exists [Log (txt "No direct action matched. Searching web for: " ++ q);
                Speak (txt "Searching the web for " ++ q); GoogleSearch q 5];
        eexists; split; [reflexivity|split; reflexivity] ].
  - exists [Log (txt "No direct action matched. Searching web for: " ++ q);
            Speak (txt "Searching the web for " ++ q)].
    eexists; split; [reflexivity|split; reflexivity].
Qed.

(** X7: a command that matches no entry of the table opens exactly one page
    in the browser: the first URL of the search when the search package is
    there and the search runs to its end with a result, the search page of
    the query otherwise. *)
Theorem generic_search_opens_one_page (E : Env) (text q : str) :
  truthy (strip text) = true ->
  classify E text = GenericSearch q ->
  filter is_browser_open (run (process_command E text))
  = [BrowserOpen (page_opened E q)].
Proof.
  intros Ht Hc. rewrite run_process_command, Hc by assumption.
  change (handle E (GenericSearch q)) with (do_web_search E q).
  destruct (run_do_web_search E q) as (before & after & -> & Hb & Ha).
  rewrite filter_app. simpl. now rewrite Hb, Ha.
Qed.

Lemma generic_search_opens_one_page_witness :
  filter is_browser_open (run (process_command env_two_pages (txt "hello world")))
  = [BrowserOpen (txt "http://one")]
  /\ filter is_browser_open (run (process_command env_no_search (txt "hello world")))
     = [BrowserOpen (txt "https://www.google.com/search?q=hello world")].
Proof.
  split.
  - apply (generic_search_opens_one_page env_two_pages (txt "hello world")
             (txt "hello world")); reflexivity.
  - apply (generic_search_opens_one_page env_no_search (txt "hello world")
             (txt "hello world")); reflexivity.
Defined.

Lemma strip_wakeword_trimmed (t : str) :
  strip (strip_wakeword t) = strip_wakeword t.
Proof.
  unfold strip_wakeword. destruct (truthy t) eqn:Ht; cbn [negb].
  - cbv zeta. destruct (truthy (strip (sub_prefix wake_re (strip t))));
      [apply strip_idem|reflexivity].
  - destruct t; [reflexivity|discriminate Ht].
Qed.

Lemma typed_command_trimmed (t : str) :
  truthy (strip t) = true ->
  strip (typed_command (strip t)) = typed_command (strip t)
  /\ truthy (typed_command (strip t)) = true.
Proof.
  intros Ht. unfold typed_command.
  destruct (has_wakeword (strip t)); [|split; [apply strip_idem|assumption]].
  destruct (truthy (strip_wakeword (strip t))) eqn:Hs.
  - split; [apply strip_wakeword_trimmed|assumption].
  - split; [apply strip_idem|assumption].
Qed.

(** X8: [on_command] does nothing for a blank entry, and otherwise never
    hands [process_command] a blank command: it clears the entry, logs the
    command, which is trimmed and not empty, and exactly one handler of the
    table runs on it. *)
Theorem on_command_dispatches (E : Env) (entry : str) :
  (truthy (strip entry) = false /\ run (on_command E entry) = [])
  \/ (exists c,
         c = typed_command (strip entry)
         /\ strip c = c /\ truthy c = true
         /\ run (on_command E entry)
            = EntryDelete :: Log (txt "Command: " ++ c)
                :: run (handle E (classify E c))).
Proof.
  destruct (truthy (strip entry)) eqn:Ht.
  - right. exists (typed_command (strip entry)).
    destruct (typed_command_trimmed entry Ht) as [Hs Hc].
    split; [reflexivity|]. split; [exact Hs|]. split; [exact Hc|].
    unfold on_command. rewrite Ht. cbn [negb].
    fold (typed_command (strip entry)). unfold log_message.
    rewrite !run_emit_bind.
    + rewrite run_process_command by now rewrite Hs. reflexivity.
    + intros. apply uniform_process_command.
    + intros. apply uniform_bind; [apply uniform_emit|].
      intros. apply uniform_process_command.
  - left. split; [reflexivity|]. unfold on_command. now rewrite Ht.
Qed.

(** ** Further properties of the web lookup *)

Section Fetching.

Variable E : Env.

(** The candidates up to the first that is fetched and parsed. *)
Lemma first_fetched (urls : list str) :
  forallb (skipped E) urls = true
  \/ exists pre u post resp pg,
      urls = pre ++ u :: post /\ forallb (skipped E) pre = true
      /\ requests_get E u = Ret resp /\ status_code resp = 200
      /\ soup resp = Ret pg.
Proof.
  induction urls as [|u urls IH]; [now left|].
  destruct (fetch_candidate_cases E u) as [Hs|(resp & pg & Hg & Hs & Hp)].
  - destruct IH as [IH|(pre & v & post & resp & pg & -> & Hpre & Hv)].
    + left. simpl. now rewrite Hs, IH.
    + right. exists (u :: pre), v, post, resp, pg. simpl.
      rewrite Hs, Hpre. auto.
  - right. now exists [], u, urls, resp, pg.
Qed.

Lemma fetch_loop_none (urls : list str) (w : World) :
  forallb (skipped E) urls = true ->
  fetch_loop E urls w
  = (Ret None, push (rev (map (fun u => HttpGet u 6) urls)) w).
Proof.
  intros H. rewrite <- (app_nil_r urls) at 1.
  now rewrite fetch_loop_skip.
Qed.

Lemma fetch_loop_found (pre post : list str) (u : str) (resp : response)
      (pg : page) (w : World) :
  forallb (skipped E) pre = true ->
  requests_get E u = Ret resp -> status_code resp = 200 ->
  soup resp = Ret pg ->
  fetch_loop E (pre ++ u :: post) w
  = (Ret (Some (answer u pg)),
     push (rev (map (fun u => HttpGet u 6) (pre ++ [u]))) w).
Proof.
  intros Hpre Hg Hs Hp. rewrite fetch_loop_skip by assumption.
  simpl. unfold bind. rewrite (fetch_candidate_ok E u resp pg) by assumption.
  rewrite push_push, map_app, rev_app_distr. reflexivity.
Qed.

Lemma firstn_first (pre post : list str) (u : str) :
  firstn (S (List.length pre)) (pre ++ u :: post) = pre ++ [u].
Proof.
  induction pre as [|v pre IH]; [reflexivity|].
  simpl. f_equal. exact IH.
Qed.

Lemma answer_cites (u : str) (pg : page) :
  exists body, answer u pg = body ++ nl ++ nl ++ txt "Source: " ++ u.
Proof.
  unfold answer. destruct (truthy (page_snippet pg)).
  - exists (page_title u pg ++ nl ++ nl ++ page_snippet pg).
    now rewrite <- !app_assoc.
  - now exists (page_title u pg).
Qed.

End Fetching.

(** X9: when the search runs to its end, the web lookup fetches the
    candidates in the order of the search, each once, and stops at the one it
    returns: its requests are those of the first [n] candidates, all of them
    when it returns [None], and the page returned is that of candidate
    [n]. *)
Theorem web_lookup_requests (E : Env) (q : str) :
  google_search_available E = true -> snd (google_search E q) = None ->
  exists n,
    run (google_first_snippet E q)
    = GoogleSearch q 5
        :: map (fun u => HttpGet u 6) (firstn n (fst (google_search E q)))
    /\ (result (google_first_snippet E q) = Ret None ->
        n = List.length (fst (google_search E q)))
    /\ (forall x,
           result (google_first_snippet E q) = Ret (Some x) ->
           exists u resp pg,
             nth_error (fst (google_search E q)) (pred n) = Some u
             /\ (0 < n)%nat
             /\ requests_get E u = Ret resp /\ status_code resp = 200
             /\ soup resp = Ret pg /\ x = answer u pg).
Proof.
  intros Ha He. unfold run, result, google_first_snippet, bind.
  rewrite discover_urls by assumption.
  destruct (first_fetched E (fst (google_search E q)))
    as [Hall|(pre & u & post & resp & pg & Heq & Hpre & Hg & Hs & Hp)].
  - exists (List.length (fst (google_search E q))).
    rewrite fetch_loop_none by assumption. unfold trace. simpl.
    rewrite firstn_all, rev_app_distr, rev_involutive. simpl.
    split; [reflexivity|]. split; [reflexivity|]. discriminate.
  - exists (S (List.length pre)). rewrite Heq.
    rewrite (fetch_loop_found E pre post u resp pg) by assumption.
    unfold trace. simpl fst. simpl snd. split; [|split].
    + simpl events. rewrite firstn_first, rev_app_distr, rev_involutive.
      reflexivity.
    + discriminate.
    + intros x Hx. inversion Hx. exists u, resp, pg.
      simpl pred. rewrite nth_error_app2, Nat.sub_diag by lia.
      repeat split; auto. lia.
Qed.

Lemma web_lookup_requests_witness :
  exists n,
    run (google_first_snippet env_two_pages (txt "turing"))
    = GoogleSearch (txt "turing") 5
        :: map (fun u => HttpGet u 6)
               (firstn n [txt "http://one"; txt "http://two"]).
Proof.
  destruct (web_lookup_requests env_two_pages (txt "turing") eq_refl eq_refl)
    as (n & H & _).
  exists n. exact H.
Defined.

(** X10: a text returned by the web lookup ends with the line
    "Source: " and the URL of one of the candidates that the search gave. *)
Theorem web_lookup_cites_candidate (E : Env) (q x : str) :
  result (google_first_snippet E q) = Ret (Some x) ->
  exists u body,
    In u (fst (google_search E q))
    /\ x = body ++ nl ++ nl ++ txt "Source: " ++ u.
Proof.
  unfold result, google_first_snippet, bind.
  destruct (google_search_available E) eqn:Ha.
  2:{ rewrite discover_unavailable by assumption. discriminate. }
  destruct (snd (google_search E q)) as [e|] eqn:He.
  1:{ rewrite (discover_raises E q e) by assumption. discriminate. }
  rewrite discover_urls by assumption.
  destruct (first_fetched E (fst (google_search E q)))
    as [Hall|(pre & u & post & resp & pg & Heq & Hpre & Hg & Hs & Hp)].
  - rewrite fetch_loop_none by assumption. discriminate.
  - rewrite Heq.
    rewrite (fetch_loop_found E pre post u resp pg) by assumption.
    intros Hx. inversion Hx.
    destruct (answer_cites u pg) as [body Hb].
    exists u, body. split; [|exact Hb].
    apply in_or_app. right. now left.
Qed.

Lemma web_lookup_cites_candidate_witness :
  exists u body,
    In u [txt "http://one"; txt "http://two"]
    /\ answer (txt "http://one") page_one
       = body ++ nl ++ nl ++ txt "Source: " ++ u.
Proof.
  apply (web_lookup_cites_candidate env_two_pages (txt "turing")
           (answer (txt "http://one") page_one)).
  reflexivity.
Defined.

(** ** The OS control helpers *)

(** Run a helper on the oracles of the environment. *)
Ltac run_helper :=
  unfold run, result, trace, popen, startfile, webbrowser_open, log_message,
    speak, bind, try_catch, emit, check, lift, ret, raise;
  cbn -[txt is_system].

(** X11: [open_folder] never raises.  For a path that does not exist it
    starts nothing and returns [(False, "Path does not exist")]; it returns
    [True] only for a path that exists, with the message "Opened", after
    handing the expanded path to exactly one launcher. *)
Theorem open_folder_outcome (E : Env) (path : str) :
  (exists ok msg, result (open_folder E path) = Ret (ok, msg))
  /\ (path_exists E (expanduser E path) = false ->
      result (open_folder E path) = Ret (false, txt "Path does not exist")
      /\ run (open_folder E path) = [CallOpenFolder path])
  /\ (forall msg,
         result (open_folder E path) = Ret (true, msg) ->
         path_exists E (expanduser E path) = true
         /\ msg = txt "Opened"
         /\ (run (open_folder E path)
             = [CallOpenFolder path; StartFile (expanduser E path)]
             \/ exists opener,
                 run (open_folder E path)
                 = [CallOpenFolder path;
                    Popen [opener; expanduser E path] false])).
Proof.
  unfold open_folder. run_helper.
  destruct (path_exists E (expanduser E path)); cbn -[txt is_system].
  2:{ split; [eauto|]. split; [auto|]. discriminate. }
  destruct (is_system E "windows"); [|destruct (is_system E "darwin")];
    cbn -[txt is_system];
    repeat match goal with
           | |- context [os_startfile E ?a] =>
               destruct (os_startfile E a); cbn -[txt is_system]
           | |- context [os_popen E ?a] =>
               destruct (os_popen E a); cbn -[txt is_system]
           end;
    (split; [eauto|]); (split; [discriminate|]);
    intros msg Hm; inversion Hm; eauto 6.
Qed.

Lemma open_folder_outcome_witness :
  path_exists env_offline (expanduser env_offline (txt "~")) = true
  /\ (run (open_folder env_offline (txt "~"))
      = [CallOpenFolder (txt "~"); StartFile (expanduser env_offline (txt "~"))]
      \/ exists opener,
          run (open_folder env_offline (txt "~"))
          = [CallOpenFolder (txt "~");
             Popen [opener; expanduser env_offline (txt "~")] false]).
Proof.
  destruct (open_folder_outcome env_offline (txt "~")) as (_ & _ & H).
  destruct (H (txt "Opened") eq_refl) as (H1 & _ & H3). auto.
Defined.

(** X12: [system_shutdown] and [system_restart] never raise.  Without
    confirmation they run nothing and return [False]; they return [True]
    only when confirmed; and on a system that is none of windows, darwin and
    linux they return [True] when confirmed although they start no
    program. *)
Theorem power_functions_outcome (E : Env) (confirm : bool) :
  (exists ok msg,
      result (system_shutdown E confirm) = Ret (ok, msg)
      /\ (ok = true -> confirm = true /\ msg = txt "Shutdown initiated"))
  /\ (exists ok msg,
         result (system_restart E confirm) = Ret (ok, msg)
         /\ (ok = true -> confirm = true /\ msg = txt "Restart initiated"))
  /\ (confirm = false ->
      run (system_shutdown E confirm) = [CallSystemShutdown false]
      /\ run (system_restart E confirm) = [CallSystemRestart false])
  /\ (confirm = true ->
      is_system E "windows" = false -> is_system E "darwin" = false ->
      is_system E "linux" = false ->
      run (system_shutdown E confirm) = [CallSystemShutdown true]
      /\ result (system_shutdown E confirm) = Ret (true, txt "Shutdown initiated")
      /\ run (system_restart E confirm) = [CallSystemRestart true]
      /\ result (system_restart E confirm) = Ret (true, txt "Restart initiated")).
Proof.
  unfold system_shutdown, system_restart. run_helper.
  destruct confirm; cbn -[txt is_system].
  2:{ repeat split; try discriminate.
      all: eexists _, _; split; [reflexivity|discriminate]. }
  split; [|split; [|split; [discriminate|]]].
  - destruct (is_system E "windows");
      [|destruct (is_system E "darwin" || is_system E "linux")];
      cbn -[txt is_system];
      repeat match goal with
             | |- context [os_popen E ?a] =>
                 destruct (os_popen E a); cbn -[txt is_system]
             end;
      eexists _, _; (split; [reflexivity|]); intros H;
      try discriminate H; auto.
  - destruct (is_system E "windows");
      [|destruct (is_system E "darwin" || is_system E "linux")];
      cbn -[txt is_system];
      repeat match goal with
             | |- context [os_popen E ?a] =>
                 destruct (os_popen E a); cbn -[txt is_system]
             end;
      eexists _, _; (split; [reflexivity|]); intros H;
      try discriminate H; auto.
  - intros _ -> -> ->. cbn -[txt]. auto.
Qed.

Lemma power_functions_outcome_witness :
  (run (system_shutdown env_offline false) = [CallSystemShutdown false]
   /\ run (system_restart env_offline false) = [CallSystemRestart false])
  /\ run (system_shutdown env_freebsd true) = [CallSystemShutdown true]
  /\ result (system_shutdown env_freebsd true)
     = Ret (true, txt "Shutdown initiated").
Proof.
  split.
  - apply (proj1 (proj2 (proj2 (power_functions_outcome env_offline false)))).
    reflexivity.
  - destruct (proj2 (proj2 (proj2 (power_functions_outcome env_freebsd true)))
                eq_refl eq_refl eq_refl eq_refl) as (H1 & H2 & _).
    auto.
Defined.

Lemma starts_with_skipn (p q l : str) :
  starts_with (p ++ q) l = true ->
  starts_with q (skipn (List.length p) l) = true.
Proof.
  revert l. induction p as [|a p IH]; intros l; simpl; auto.
  destruct l as [|b l]; [discriminate|].
  rewrite andb_true_iff. intros [_ H]. auto.
Qed.

Lemma contains_starts_with (q l : str) :
  starts_with q l = true -> contains q l = true.
Proof. intros H. destruct l; simpl; now rewrite H. Qed.

Lemma contains_skipn (q : str) (n : nat) (l : str) :
  contains q (skipn n l) = true -> contains q l = true.
Proof.
  revert l. induction n as [|n IH]; intros l; simpl; auto.
  destruct l as [|c l]; auto.
  intros H. cbn [contains]. rewrite (IH l H). apply orb_true_r.
Qed.

(** A text that contains a word contains the end of the word. *)
Lemma contains_suffix (p q l : str) :
  contains (p ++ q) l = true -> contains q l = true.
Proof.
  induction l as [|c l IH]; cbn [contains].
  - rewrite orb_false_r. intros H.
    apply starts_with_skipn in H. destruct (List.length p); simpl in H;
      now apply contains_starts_with in H.
  - rewrite orb_true_iff. intros [H|H].
    + apply starts_with_skipn, contains_starts_with, contains_skipn in H.
      exact H.
    + fold (contains q l). rewrite (IH H). apply orb_true_r.
Qed.

(** X13: [open_application] returns [False] in one case only: the name
    holds none of "notepad", "text", "chrome", "browser" and "firefox", and
    starting the program by its name raised.  For a name without an editor
    word: with "chrome" in it the result is [True], the browser is started
    with the command of the platform, and the Google page is opened exactly
    when that raised; without "chrome" and with "browser" or "firefox" in it
    the Google page is opened and nothing started; with none of the words
    the program is started by its name, once, and the result is [True]
    exactly when that did not raise. *)
Theorem open_application_outcome (E : Env) (name : str) :
  (result (open_application E name) = Ret false ->
   names_editor name = false
   /\ contains (txt "chrome") (lower name) = false
   /\ contains (txt "browser") (lower name) = false
   /\ contains (txt "firefox") (lower name) = false
   /\ exists e,
       (if is_system E "windows" then os_startfile E name
        else if is_system E "darwin"
             then os_popen E [txt "open"; txt "-a"; name]
             else os_popen E [name]) = Some e)
  /\ (names_editor name = false ->
      contains (txt "chrome") (lower name) = true ->
      result (open_application E name) = Ret true
      /\ run (open_application E name)
         = CallOpenApplication name
             :: Popen (fst (chrome_command E)) (snd (chrome_command E))
             :: (if starts E (fst (chrome_command E)) then []
                 else [BrowserOpen (txt "https://www.google.com")]))
  /\ (names_editor name = false ->
      contains (txt "chrome") (lower name) = false ->
      (contains (txt "browser") (lower name)
       || contains (txt "firefox") (lower name)) = true ->
      result (open_application E name) = Ret true
      /\ run (open_application E name)
         = [CallOpenApplication name;
            BrowserOpen (txt "https://www.google.com")])
  /\ (names_editor name = false ->
      contains (txt "chrome") (lower name) = false ->
      (contains (txt "browser") (lower name)
       || contains (txt "firefox") (lower name)) = false ->
      result (open_application E name)
      = Ret (match direct_raises E name with
             | Some _ => false
             | None => true
             end)
      /\ run (open_application E name)
         = [CallOpenApplication name; direct_launch E name]).
Proof.
  unfold names_editor, open_application, chrome_command, starts,
    direct_launch, direct_raises.
  cbv zeta.
  destruct (contains (txt "notepad") (lower name)
            || contains (txt "text") (lower name)) eqn:Hed.
  - split; [|repeat split; discriminate]. run_helper.
    destruct (is_system E "windows"); cbn -[txt is_system].
    + destruct (os_popen E [txt "notepad"]); discriminate.
    + unfold try_candidates. run_helper.
      repeat match goal with
             | |- context [os_popen E ?a] =>
                 destruct (os_popen E a); cbn -[txt is_system]
             end; discriminate.
  - destruct (contains (txt "chrome") (lower name)) eqn:Hch.
    + rewrite orb_true_l. split; [|split; [|split; discriminate]].
      * run_helper.
        destruct (is_system E "windows"); [|destruct (is_system E "darwin")];
          cbn -[txt is_system];
          repeat match goal with
                 | |- context [os_popen E ?a] =>
                     destruct (os_popen E a); cbn -[txt is_system]
                 end; discriminate.
      * intros _ _. run_helper.
        destruct (is_system E "windows"); [|destruct (is_system E "darwin")];
          cbn -[txt is_system];
          repeat match goal with
                 | |- context [os_popen E ?a] =>
                     destruct (os_popen E a); cbn -[txt is_system]
                 end;
          split; reflexivity.
    + assert (Hg : contains (txt "google chrome") (lower name) = false).
      { destruct (contains (txt "google chrome") (lower name)) eqn:Hg; auto.
        apply (contains_suffix (txt "google ") (txt "chrome")) in Hg.
        congruence. }
      rewrite Hg. cbn [orb].
      destruct (contains (txt "browser") (lower name)
                || contains (txt "firefox") (lower name)) eqn:Hbr.
      * split; [run_helper; discriminate|].
        split; [discriminate|]. split; [|discriminate].
        intros _ _ _. run_helper. split; reflexivity.
      * split; [|split; [discriminate|split; [discriminate|]]].
        -- apply orb_false_iff in Hbr as [Hb Hf]. run_helper.
           destruct (is_system E "windows"); [|destruct (is_system E "darwin")];
             cbn -[txt is_system];
             repeat match goal with
                    | |- context [os_startfile E ?a] =>
                        destruct (os_startfile E a) eqn:?; cbn -[txt is_system]
                    | |- context [os_popen E ?a] =>
                        destruct (os_popen E a) eqn:?; cbn -[txt is_system]
                    end;
             intros H; try discriminate H; repeat split; eauto.
        -- intros _ _ _. run_helper.
           destruct (is_system E "windows"); [|destruct (is_system E "darwin")];
             cbn -[txt is_system];
             repeat match goal with
                    | |- context [os_startfile E ?a] =>
                        destruct (os_startfile E a) eqn:?; cbn -[txt is_system]
                    | |- context [os_popen E ?a] =>
                        destruct (os_popen E a) eqn:?; cbn -[txt is_system]
                    end;
             split; reflexivity.
Qed.

Lemma open_application_outcome_witness :
  names_editor (txt "gimp") = false
  /\ run (open_application env_no_programs (txt "Google Chrome"))
     = [CallOpenApplication (txt "Google Chrome");
        Popen [txt "google-chrome"] false;
        BrowserOpen (txt "https://www.google.com")]
  /\ run (open_application env_no_gedit (txt "Google Chrome"))
     = [CallOpenApplication (txt "Google Chrome");
        Popen [txt "google-chrome"] false]
  /\ result (open_application env_no_gedit (txt "gedit")) = Ret false.
Proof.
  split; [|split; [|split]].
  - apply (proj1 (open_application_outcome env_no_programs (txt "gimp"))).
    reflexivity.
  - apply (proj1 (proj2 (open_application_outcome env_no_programs
                                                  (txt "Google Chrome"))));
      reflexivity.
  - apply (proj1 (proj2 (open_application_outcome env_no_gedit
                                                  (txt "Google Chrome"))));
      reflexivity.
  - apply (proj2 (proj2 (proj2 (open_application_outcome env_no_gedit
                                                         (txt "gedit")))));
      reflexivity.
Defined.

(** X14: for a name with "notepad" or "text" in it, whatever the rest of the
    name, [open_application] starts an editor of its own choice.  On Windows
    it starts notepad, and an exception of that start leaves the function.
    Elsewhere it tries gedit, xed, kate and then the file manager on the home
    directory, in this order, each only when all before it raised, and
    nothing after the first that starts; it returns [True] when one of them
    started, and otherwise the exception of the last leaves the function.
    It never returns [False]. *)
Theorem open_application_editor (E : Env) (name : str) :
  names_editor name = true ->
  (is_system E "windows" = true ->
   run (open_application E name)
   = [CallOpenApplication name; Popen [txt "notepad"] false]
   /\ result (open_application E name)
      = match os_popen E [txt "notepad"] with
        | Some e => Raise e
        | None => Ret true
        end)
  /\ (is_system E "windows" = false ->
      run (open_application E name)
      = CallOpenApplication name
          :: map (fun argv => Popen argv false)
                 (tried E (editor_candidates E))
      /\ result (open_application E name)
         = if existsb (starts E) (editor_candidates E) then Ret true
           else match os_popen E [txt "xdg-open"; expanduser E (txt "~")] with
                | Some e => Raise e
                | None => Ret true
                end)
  /\ (forall b, result (open_application E name) = Ret b -> b = true).
Proof.
  unfold names_editor, open_application, editor_candidates, tried, starts.
  cbv zeta.
  intros ->. run_helper.
  destruct (is_system E "windows"); cbn -[txt is_system].
  - split; [|split; [discriminate|]].
    + intros _. destruct (os_popen E [txt "notepad"]); split; reflexivity.
    + intros b. destruct (os_popen E [txt "notepad"]); cbn; congruence.
  - split; [discriminate|]. unfold try_candidates. run_helper.
    destruct (os_popen E [txt "gedit"]); cbn -[txt is_system];
      [destruct (os_popen E [txt "xed"]); cbn -[txt is_system];
       [destruct (os_popen E [txt "kate"]); cbn -[txt is_system];
        [destruct (os_popen E [txt "xdg-open"; expanduser E (txt "~")]);
         cbn -[txt is_system]|]|]|].
    all: split; [intros _; split; reflexivity|intros b Hb; congruence].
Qed.

Lemma open_application_editor_witness :
  run (open_application env_no_gedit (txt "context menu"))
  = [CallOpenApplication (txt "context menu");
     Popen [txt "gedit"] false; Popen [txt "xed"] false]
  /\ result (open_application env_no_gedit (txt "context menu")) = Ret true
  /\ result (open_application env_no_programs (txt "Notepad"))
     = Raise no_such_file.
Proof.
  split; [|split].
  - destruct (open_application_editor env_no_gedit (txt "context menu")
                eq_refl) as (_ & H & _).
    exact (proj1 (H eq_refl)).
  - destruct (open_application_editor env_no_gedit (txt "context menu")
                eq_refl) as (_ & H & _).
    exact (proj2 (H eq_refl)).
  - destruct (open_application_editor env_no_programs (txt "Notepad")
                eq_refl) as (_ & H & _).
    exact (proj2 (H eq_refl)).
Defined.

(** X15: [capture_photo] writes a file only when the camera is open, the
    frame was read and a path was chosen, and then to that path.  With no
    camera it only warns, without reading a frame; and when the dialog is
    cancelled it writes, logs and says nothing. *)
Theorem capture_photo_outcome (E : Env) :
  (forall p,
      In (ImWrite p) (run (capture_photo E)) ->
      camera_opened E = true /\ camera_read_ok E = true
      /\ p = ask_save_as E (txt ".jpg") /\ truthy p = true)
  /\ (camera_opened E = false ->
      run (capture_photo E)
      = [ShowWarning (txt "Capture") (txt "Camera not running.")])
  /\ (camera_opened E = true -> camera_read_ok E = true ->
      ask_save_as E (txt ".jpg") = [] ->
      run (capture_photo E) = [CameraRead; AskSaveAs (txt ".jpg")])
  /\ (camera_opened E = true -> camera_read_ok E = true ->
      truthy (ask_save_as E (txt ".jpg")) = true ->
      run (capture_photo E)
      = [CameraRead; AskSaveAs (txt ".jpg");
         ImWrite (ask_save_as E (txt ".jpg"));
         Log (txt "Photo saved to " ++ ask_save_as E (txt ".jpg"));
         Speak (txt "Photo saved.")]).
Proof.
  unfold capture_photo. run_helper.
  destruct (camera_opened E); cbn -[txt];
    [destruct (camera_read_ok E); cbn -[txt];
     [destruct (ask_save_as E (txt ".jpg")) eqn:Hp; cbn -[txt]|]|].
  all: split;
    [intros p Hin; simpl in Hin;
     repeat (destruct Hin as [Hin|Hin];
             [try discriminate Hin; inversion Hin; subst; repeat split|]);
     destruct Hin|].
  all: repeat split; intros; try discriminate; try reflexivity.
Qed.

Lemma capture_photo_outcome_witness :
  run (capture_photo env_offline)
  = [ShowWarning (txt "Capture") (txt "Camera not running.")]
  /\ run (capture_photo env_freebsd)
     = [CameraRead; AskSaveAs (txt ".jpg"); ImWrite (txt "/tmp/shot.jpg");
        Log (txt "Photo saved to /tmp/shot.jpg"); Speak (txt "Photo saved.")].
Proof.
  split.
  - apply (proj1 (proj2 (capture_photo_outcome env_offline))). reflexivity.
  - apply (proj2 (proj2 (proj2 (capture_photo_outcome env_freebsd))));
      reflexivity.
Defined.

(** X16: the screenshot branch never raises: a failure of the grab or of the
    save is logged with its message and spoken.  The image is saved only to
    the path chosen in the dialog, which is asked for only after the grab;
    cancelling the dialog leaves one log line and nothing spoken. *)
Theorem screenshot_outcome (E : Env) (w : World) :
  (exists w', do_screenshot E w = (Ret tt, w'))
  /\ (forall p,
         In (ImageSave p) (run (do_screenshot E)) ->
         image_grab E = None /\ p = ask_save_as E (txt ".png")
         /\ truthy p = true)
  /\ (forall e,
         image_grab E = Some e ->
         run (do_screenshot E)
         = [ScreenGrab; Log (txt "Screenshot failed: " ++ exn_str e);
            Speak (txt "I could not take a screenshot.")])
  /\ (image_grab E = None -> ask_save_as E (txt ".png") = [] ->
      run (do_screenshot E)
      = [ScreenGrab; AskSaveAs (txt ".png"); Log (txt "Screenshot cancelled.")])
  /\ (forall e,
         image_grab E = None -> truthy (ask_save_as E (txt ".png")) = true ->
         image_save E (ask_save_as E (txt ".png")) = Some e ->
         run (do_screenshot E)
         = [ScreenGrab; AskSaveAs (txt ".png");
            ImageSave (ask_save_as E (txt ".png"));
            Log (txt "Screenshot failed: " ++ exn_str e);
            Speak (txt "I could not take a screenshot.")]).
Proof.
  split; [destruct (nofail_do_screenshot E w) as ([] & w' & H); eauto|].
  unfold do_screenshot. run_helper.
  destruct (image_grab E) as [e0|]; cbn -[txt].
  - split; [intros p Hin; simpl in Hin; intuition discriminate|].
    split; [intros e He; inversion He; reflexivity|].
    split; [discriminate|]. intros e He. discriminate He.
  - destruct (ask_save_as E (txt ".png")) as [|c p0] eqn:Hp; cbn -[txt].
    + split; [intros p Hin; simpl in Hin; intuition discriminate|].
      split; [discriminate|]. split; [reflexivity|]. discriminate.
    + destruct (image_save E (c :: p0)) as [e1|] eqn:Hs; cbn -[txt].
      * split; [intros p Hin; simpl in Hin;
                destruct Hin as [Hin|[Hin|[Hin|[Hin|[Hin|[]]]]]];
                try discriminate Hin; inversion Hin; auto|].
        split; [discriminate|]. split; [discriminate|].
        intros e _ _ He. inversion He. reflexivity.
      * split; [intros p Hin; simpl in Hin;
                destruct Hin as [Hin|[Hin|[Hin|[Hin|[Hin|[]]]]]];
                try discriminate Hin; inversion Hin; auto|].
        split; [discriminate|]. split; [discriminate|].
        intros e _ _ He. discriminate He.
Qed.

Lemma screenshot_outcome_witness :
  run (do_screenshot env_no_programs)
  = [ScreenGrab; Log (txt "Screenshot failed: FileNotFoundError");
     Speak (txt "I could not take a screenshot.")]
  /\ run (do_screenshot env_offline)
     = [ScreenGrab; AskSaveAs (txt ".png"); Log (txt "Screenshot cancelled.")].
Proof.
  split.
  - apply (proj1 (proj2 (proj2 (screenshot_outcome env_no_programs w0)))
             no_such_file).
    reflexivity.
  - apply (proj1 (proj2 (proj2 (proj2 (screenshot_outcome env_offline w0)))));
      reflexivity.
Defined.

(** ** Further properties of listening *)

Section Listening.

Variable E : Env.

Lemma listen_some (timeout limit : N) (w : World) (t : str) :
  mic_present E = true ->
  ambient (mic_script E (listen_calls w)) = None ->
  heard (mic_script E (listen_calls w)) = Ret t ->
  listen E timeout limit w
  = (Ret (Some t),
     mk_world (CallListen timeout limit :: events w) (S (listen_calls w))
              (flag_reads w)).
Proof.
  intros Hm Ha Hh.
  unfold listen, bind, emit, next_capture, check, ret, raise.
  simpl. rewrite Hm. simpl. rewrite Ha, Hh. reflexivity.
Qed.

Lemma trace_push (l : list event) (w : World) :
  trace (push l w) = trace w ++ rev l.
Proof. unfold trace, push. simpl. apply rev_app_distr. Qed.

End Listening.

(** X17: [listen] gives [None] without using the microphone when there is
    none, and gives [None] when the recognizer raises one of
    [WaitTimeoutError], [UnknownValueError] and [RequestError].  It raises
    in two cases only: the calibration on entering the microphone raised, or
    the recognizer raised an exception of another class; and it returns a
    text only when the recognizer returned it. *)
Theorem listen_outcome (E : Env) (timeout limit : N) (w : World) :
  (mic_present E = false ->
   listen E timeout limit w = (Ret None, push [CallListen timeout limit] w))
  /\ (forall e,
         mic_present E = true ->
         ambient (mic_script E (listen_calls w)) = None ->
         heard (mic_script E (listen_calls w)) = Raise e ->
         caught_by_listen e = true ->
         fst (listen E timeout limit w) = Ret None)
  /\ (forall e,
         fst (listen E timeout limit w) = Raise e ->
         mic_present E = true
         /\ (ambient (mic_script E (listen_calls w)) = Some e
             \/ (heard (mic_script E (listen_calls w)) = Raise e
                 /\ caught_by_listen e = false)))
  /\ (forall t,
         fst (listen E timeout limit w) = Ret (Some t) ->
         heard (mic_script E (listen_calls w)) = Ret t).
Proof.
  unfold listen, bind, emit, next_capture, check, ret, raise, push. simpl.
  destruct (mic_present E); simpl.
  2:{ repeat split; try discriminate. }
  split; [discriminate|].
  destruct (ambient (mic_script E (listen_calls w))) as [e0|]; simpl.
  { split; [discriminate|]. split; [|discriminate].
    intros e He. inversion He. auto. }
  destruct (heard (mic_script E (listen_calls w))) as [t0|e0]; simpl.
  { split; [discriminate|]. split; [discriminate|].
    intros t Ht. inversion Ht. reflexivity. }
  destruct (caught_by_listen e0) eqn:Hc; simpl.
  - split; [reflexivity|]. split; discriminate.
  - split; [intros e _ _ He Hc'; inversion He; congruence|].
    split; [|discriminate]. intros e He. inversion He. subst. auto.
Qed.

Lemma listen_outcome_witness :
  listen env_offline 6 6 w0 = (Ret None, push [CallListen 6 6] w0)
  /\ mic_present env_no_programs = true.
Proof.
  split.
  - apply (proj1 (listen_outcome env_offline 6 6 w0)). reflexivity.
  - apply (proj1 (proj2 (proj2 (listen_outcome env_no_programs 6 6 w0)))
                 no_such_file).
    reflexivity.
Defined.

(** X18: nothing in [_listening_loop] catches an exception: when the flag
    reads true and the iteration raises, the loop ends with that exception
    and the flag is not read again.  A calibration of the microphone that
    raises is such a case: the loop ends after the call of [listen]. *)
Theorem listening_loop_ends_on_exception (E : Env) (k : nat) (w : World) :
  listening_flag E (flag_reads w) = true ->
  (forall e w',
      loop_body E (mk_world (ReadListening true :: events w)
                            (listen_calls w) (S (flag_reads w)))
      = (Raise e, w') ->
      _listening_loop E (S k) w = (Raise e, w'))
  /\ (forall e,
         mic_present E = true ->
         ambient (mic_script E (listen_calls w)) = Some e ->
         exists w',
           _listening_loop E (S k) w = (Raise e, w')
           /\ trace w' = trace w ++ [ReadListening true; CallListen 6 6]
           /\ flag_reads w' = S (flag_reads w)).
Proof.
  intros Hflag.
  assert (Hstep : forall e w',
             loop_body E (mk_world (ReadListening true :: events w)
                                   (listen_calls w) (S (flag_reads w)))
             = (Raise e, w') ->
             _listening_loop E (S k) w = (Raise e, w')).
  { intros e w' Hb. cbn [_listening_loop]. unfold bind at 1.
    unfold read_listening. rewrite Hflag. unfold bind at 1. now rewrite Hb. }
  split; [exact Hstep|].
  intros e Hm Ha. eexists. split; [apply Hstep|].
  - unfold loop_body, listen, bind, emit, next_capture, check, ret, raise.
    simpl. rewrite Hm. simpl. rewrite Ha. reflexivity.
  - unfold trace. simpl. rewrite <- !app_assoc. auto.
Qed.

Lemma listening_loop_ends_on_exception_witness :
  exists w',
    _listening_loop env_no_programs 5 w0 = (Raise no_such_file, w')
    /\ trace w' = trace w0 ++ [ReadListening true; CallListen 6 6]
    /\ flag_reads w' = 1%nat.
Proof.
  destruct (listening_loop_ends_on_exception env_no_programs 4 w0 eq_refl)
    as [_ H].
  apply (H no_such_file); reflexivity.
Defined.

(** X19: speech without the wakeword is logged and dropped: the iteration
    logs the text and that it has no wakeword, and dispatches, says and
    starts nothing. *)
Theorem speech_without_wakeword_ignored (E : Env) (w : World) (t : str) :
  mic_present E = true ->
  ambient (mic_script E (listen_calls w)) = None ->
  heard (mic_script E (listen_calls w)) = Ret t ->
  truthy t = true -> has_wakeword t = false ->
  loop_body E w
  = (Ret tt,
     mk_world (Log (txt "No wakeword detected in speech; ignoring.")
                 :: Log (txt "Voice raw: " ++ t) :: CallListen 6 6 :: events w)
              (S (listen_calls w)) (flag_reads w)).
Proof.
  intros Hm Ha Hh Ht Hw. unfold loop_body. unfold bind at 1.
  rewrite (listen_some E 6 6 w t) by assumption.
  cbn [opt_truthy opt_text]. rewrite Ht. cbv zeta. rewrite Hw.
  reflexivity.
Qed.

Lemma speech_without_wakeword_ignored_witness :
  loop_body env_freebsd w0
  = (Ret tt,
     mk_world [Log (txt "No wakeword detected in speech; ignoring.");
               Log (txt "Voice raw: good morning"); CallListen 6 6]
              1 0).
Proof.
  apply (speech_without_wakeword_ignored env_freebsd w0 (txt "good morning"));
    reflexivity.
Defined.

(** X20: a spoken command is dispatched as the same command typed would be:
    for speech with the wakeword and a command after it, the iteration logs
    both, shows "Processing command...", says so and runs [process_command]
    on the stripped command.  It returns what the dispatch returns, and the
    label goes back to the awaiting text only when the dispatch returned. *)
Theorem spoken_command_dispatched (E : Env) (w : World) (t : str) :
  mic_present E = true ->
  ambient (mic_script E (listen_calls w)) = None ->
  heard (mic_script E (listen_calls w)) = Ret t ->
  has_wakeword t = true -> truthy (strip_wakeword t) = true ->
  fst (loop_body E w) = result (process_command E (strip_wakeword t))
  /\ trace (snd (loop_body E w))
     = trace w
       ++ [CallListen 6 6; Log (txt "Voice raw: " ++ t);
           Log (txt "Wakeword detected. Command: " ++ strip_wakeword t);
           WakeLabel (txt "Processing command...");
           Speak (txt "Processing your command.")]
       ++ run (process_command E (strip_wakeword t))
       ++ match result (process_command E (strip_wakeword t)) with
          | Ret _ => [WakeLabel awaiting_label]
          | Raise _ => []
          end.
Proof.
  intros Hm Ha Hh Hw Hc.
  assert (Ht : truthy t = true).
  { destruct t; [discriminate Hw|reflexivity]. }
  destruct (loop_body E w) as [o w'] eqn:Hb.
  unfold loop_body in Hb. unfold bind at 1 in Hb.
  rewrite (listen_some E 6 6 w t) in Hb by assumption.
  cbn [opt_truthy opt_text] in Hb. rewrite Ht in Hb. cbv zeta in Hb.
  rewrite Hw, Hc in Hb. cbn [negb] in Hb.
  unfold log_message, speak, bind, emit in Hb.
  rewrite (uniform_process_command E (strip_wakeword t)) in Hb.
  unfold result, run.
  destruct (process_command E (strip_wakeword t) w0) as [[[]|e] w1];
    cbn [fst snd events listen_calls flag_reads push] in *;
    apply pair_equal_spec in Hb as [<- <-];
    (split; [reflexivity|]);
    unfold trace, push; cbn [events rev];
    rewrite ?rev_app_distr; cbn [rev];
    rewrite <- ?app_assoc; cbn [app]; rewrite ?app_nil_r; reflexivity.
Qed.

Lemma spoken_command_dispatched_witness :
  fst (loop_body env_spoken w0)
  = result (process_command env_spoken (txt "wiki turing")).
Proof.
  apply (spoken_command_dispatched env_spoken w0
           (txt "Hey Jarvis, wiki turing")); reflexivity.
Defined.

(** X21: after the wakeword alone the iteration says "Yes?", waits 0.6 s and
    listens once more, for 3 s.  What it then hears is dispatched whole, with
    no test for the wakeword and nothing stripped from it; when it hears
    nothing the turn ends without a word. *)
Theorem follow_up_dispatched (E : Env) (w : World) (t : str) :
  mic_present E = true ->
  ambient (mic_script E (listen_calls w)) = None ->
  heard (mic_script E (listen_calls w)) = Ret t ->
  has_wakeword t = true -> strip_wakeword t = [] ->
  (forall f,
      ambient (mic_script E (S (listen_calls w))) = None ->
      heard (mic_script E (S (listen_calls w))) = Ret f ->
      truthy f = true ->
      fst (loop_body E w) = result (process_command E f)
      /\ trace (snd (loop_body E w))
         = trace w
           ++ [CallListen 6 6; Log (txt "Voice raw: " ++ t);
               Log (txt "Wakeword detected but no command followed.");
               Speak (txt "Yes?"); Sleep 600; CallListen 3 4;
               Log (txt "Follow-up voice: " ++ f)]
           ++ run (process_command E f))
  /\ (captures_none (mic_script E (S (listen_calls w))) = true ->
      fst (loop_body E w) = Ret tt
      /\ trace (snd (loop_body E w))
         = trace w
           ++ [CallListen 6 6; Log (txt "Voice raw: " ++ t);
               Log (txt "Wakeword detected but no command followed.");
               Speak (txt "Yes?"); Sleep 600; CallListen 3 4]).
Proof.
  intros Hm Ha Hh Hw Hc.
  assert (Ht : truthy t = true).
  { destruct t; [discriminate Hw|reflexivity]. }
  destruct (loop_body E w) as [o w'] eqn:Hb.
  unfold loop_body in Hb. unfold bind at 1 in Hb.
  rewrite (listen_some E 6 6 w t) in Hb by assumption.
  cbn [opt_truthy opt_text] in Hb. rewrite Ht in Hb. cbv zeta in Hb.
  rewrite Hw, Hc in Hb. cbn [negb truthy] in Hb.
  unfold log_message, speak in Hb.
  unfold bind at 1 2 3 4 in Hb. unfold emit in Hb.
  cbn [events listen_calls flag_reads] in Hb.
  split.
  - intros f Haf Hhf Hf. unfold bind at 1 in Hb.
    rewrite listen_some with (t := f) in Hb by assumption.
    cbn [opt_truthy opt_text] in Hb. rewrite Hf in Hb.
    unfold bind, emit in Hb.
    rewrite (uniform_process_command E f) in Hb.
    unfold result, run.
    destruct (process_command E f w0) as [r w1];
      cbn [fst snd events listen_calls flag_reads push] in *;
      apply pair_equal_spec in Hb as [<- <-];
      (split; [reflexivity|]);
      unfold trace, push; cbn [events rev];
      rewrite ?rev_app_distr; cbn [rev];
      rewrite <- ?app_assoc; cbn [app]; rewrite ?app_nil_r; reflexivity.
  - intros Hn. unfold bind at 1 in Hb.
    rewrite listen_none in Hb by (right; exact Hn).
    cbn [opt_truthy] in Hb. unfold ret in Hb.
    apply pair_equal_spec in Hb as [<- <-].
    split; [reflexivity|].
    unfold trace; cbn [events rev fst snd].
    rewrite <- ?app_assoc; cbn [app]. reflexivity.
Qed.

Lemma follow_up_dispatched_witness :
  fst (loop_body env_spoken (mk_world [] 1 0))
  = result (process_command env_spoken (txt "jarvis who was turing"))
  /\ fst (loop_body env_spoken (mk_world [] 3 0)) = Ret tt.
Proof.
  split.
  - destruct (follow_up_dispatched env_spoken (mk_world [] 1 0)
                (txt "hey jarvis") eq_refl eq_refl eq_refl eq_refl eq_refl)
      as [H _].
    apply (H (txt "jarvis who was turing")); reflexivity.
  - destruct (follow_up_dispatched env_spoken (mk_world [] 3 0)
                (txt "Jarvis") eq_refl eq_refl eq_refl eq_refl eq_refl)
      as [_ H].
    apply H. reflexivity.
Defined.

(** ** The buttons *)

Lemma on_press_consistent (p : press) (c : Controls) :
  consistent c -> consistent (fst (on_press p c)).
Proof.
  unfold consistent. intros (H1 & H2 & H3).
  destruct p as [opened| |]; simpl;
    unfold start_camera, stop_camera, toggle_listening.
  - destruct (camera_running c) eqn:Hr; [simpl; now rewrite Hr|].
    destruct opened; simpl; [auto|now rewrite Hr].
  - destruct (camera_running c) eqn:Hr; simpl; [auto|now rewrite Hr].
  - destruct (listening c); simpl; auto.
Qed.

(** X22: whatever buttons are pressed, in whatever order and whether or not
    the camera opens, the buttons keep saying what the flags are: "Start
    Camera" is enabled exactly when the camera is not running, "Stop Camera"
    exactly when it is, and the listening button reads "Stop Listening"
    exactly when the assistant listens.  A press of "Start Camera" while the
    camera runs, and one of "Stop Camera" while it does not, change nothing
    and open or start nothing. *)
Theorem buttons_follow_flags (ps : list press) :
  consistent (fst (on_presses ps initial_controls))
  /\ (forall opened c,
         camera_running c = true -> start_camera opened c = (c, []))
  /\ (forall c, camera_running c = false -> stop_camera c = (c, [])).
Proof.
  split; [|split].
  - assert (H : forall c, consistent c -> consistent (fst (on_presses ps c))).
    { induction ps as [|p ps IH]; intros c Hc; [exact Hc|].
      simpl. pose proof (on_press_consistent p c Hc) as Hp.
      destruct (on_press p c) as [c1 l1]. specialize (IH c1 Hp).
      destruct (on_presses ps c1) as [c2 l2]. exact IH. }
    apply H. repeat split.
  - intros opened c Hr. unfold start_camera. now rewrite Hr.
  - intros c Hr. unfold stop_camera. now rewrite Hr.
Qed.

Lemma buttons_follow_flags_witness :
  start_camera true (fst (start_camera true initial_controls))
  = (fst (start_camera true initial_controls), []).
Proof.
  apply (proj1 (proj2 (buttons_follow_flags []))). reflexivity.
Defined.
